(** * Multi-year incremental merge of ranking tables

    A shallow embedding of the merge scripts of the repository
    ([02_merge_past_data.py], [02_merge_past_data_2Q.py], [config.py])
    together with the part of the polars DataFrame API they rely on, and
    the properties of the merge engine stated over that embedding. *)

From Stdlib Require Import String Ascii List ZArith Lia Bool Arith DecimalString
  DecimalZ DecimalPos FinFun Permutation.
Import ListNotations.
Local Open Scope string_scope.
Local Open Scope list_scope.

(** ** Python strings

    Column names are Python [str] values.  They are kept here as UTF-8 byte
    strings; [endswith], [in] and [replace] on valid UTF-8 agree with the
    code-point versions because UTF-8 is self-synchronising. *)

Module PyStr.

(** [s.endswith(suf)] *)
Fixpoint endswith (s suf : string) : bool :=
  (s =? suf) ||
  match s with
  | EmptyString => false
  | String _ s' => endswith s' suf
  end.

(** [sub in s] *)
Fixpoint contains (sub s : string) : bool :=
  prefix sub s ||
  match s with
  | EmptyString => false
  | String _ s' => contains sub s'
  end.

(** [s.replace(old, new)] for a non-empty [old]: occurrences are replaced
    from left to right without overlap.  [skip] counts the bytes of the
    occurrence that is being consumed. *)
Fixpoint replace_from (skip : nat) (old new s : string) : string :=
  match s with
  | EmptyString => EmptyString
  | String c s' =>
      match skip with
      | S k => replace_from k old new s'
      | O =>
          if prefix old s
          then (new ++ replace_from (String.length old - 1) old new s')%string
          else String c (replace_from 0 old new s')
      end
  end.

Definition replace (old new s : string) : string := replace_from 0 old new s.

(** [str(n)] for an integer *)
Definition str (n : Z) : string := NilZero.string_of_int (Z.to_int n).

(** Last byte of a string, if any. *)
Fixpoint last_byte (s : string) : option ascii :=
  match s with
  | EmptyString => None
  | String c EmptyString => Some c
  | String _ s' => last_byte s'
  end.

(** A byte below 128, that is, an ASCII character. *)
Definition is_ascii (c : ascii) : bool :=
  match c with Ascii _ _ _ _ _ _ _ b7 => negb b7 end.

Fixpoint all_ascii (s : string) : bool :=
  match s with
  | EmptyString => true
  | String c s' => is_ascii c && all_ascii s'
  end.

(** The string starts with a byte that is not ASCII (the lead byte of a
    multi-byte UTF-8 character). *)
Definition starts_non_ascii (s : string) : bool :=
  match s with
  | EmptyString => false
  | String c _ => negb (is_ascii c)
  end.

End PyStr.

(** ** The polars DataFrame operations used by the scripts *)

Module Polars.

(** A cell: null, a number (the monetary columns are [Int64]) or text. *)
Inductive cell : Type :=
| Null
| Num (z : Z)
| Txt (s : string).

Definition is_null (c : cell) : bool :=
  match c with Null => true | _ => false end.

Definition cell_eqb (a b : cell) : bool :=
  match a, b with
  | Null, Null => true
  | Num x, Num y => Z.eqb x y
  | Txt x, Txt y => String.eqb x y
  | _, _ => false
  end.

Definition Series := list cell.

(** A DataFrame is an ordered list of named columns. *)
Definition DataFrame := list (string * Series).

(** [pl.DataFrame()] *)
Definition pl_DataFrame : DataFrame := [].

(** [df.columns] *)
Definition columns (df : DataFrame) : list string := map fst df.

(** [len(df)], [df.height] *)
Definition height (df : DataFrame) : nat :=
  match df with
  | [] => 0
  | (_, s) :: _ => length s
  end.

(** [df.is_empty()] *)
Definition is_empty (df : DataFrame) : bool := Nat.eqb (height df) 0.

(** [c in names] *)
Definition mem (c : string) (names : list string) : bool :=
  existsb (String.eqb c) names.

(** [c in df.columns] *)
Definition has_column (c : string) (df : DataFrame) : bool :=
  mem c (columns df).

(** [df[c]], when the column exists *)
Fixpoint get_column (c : string) (df : DataFrame) : option Series :=
  match df with
  | [] => None
  | (c', s) :: r => if c' =? c then Some s else get_column c r
  end.

(** [df.with_columns(<series>.alias(c))]: an existing column is replaced in
    place, a new one is appended. *)
Fixpoint with_column (c : string) (s : Series) (df : DataFrame) : DataFrame :=
  match df with
  | [] => [(c, s)]
  | (c', s') :: r =>
      if c' =? c then (c, s) :: r else (c', s') :: with_column c s r
  end.

(** [df.drop(c)] *)
Definition drop (c : string) (df : DataFrame) : DataFrame :=
  filter (fun p => negb (fst p =? c)) df.

(** [pl.lit(None)] broadcast to the frame: one null for every row. *)
Definition lit_null (df : DataFrame) : Series :=
  repeat Null (height df).

(** [pl.when(a.is_null()).then(p).otherwise(a)] on two columns of one
    frame, row by row. *)
Fixpoint when_null_then (a p : Series) : Series :=
  match a with
  | [] => []
  | x :: a' => (if is_null x then hd Null p else x) :: when_null_then a' (tl p)
  end.

(** [pl.coalesce([a, p])] *)
Definition coalesce (a p : Series) : Series := when_null_then a p.

(** [series.sum()]: nulls are skipped; text does not occur in summed
    columns and counts as nothing. *)
Definition cell_value (c : cell) : Z :=
  match c with Num z => z | _ => 0%Z end.

Definition sum (s : Series) : Z :=
  fold_right (fun c acc => (cell_value c + acc)%Z) 0%Z s.

(** [series.is_null().sum()] *)
Definition null_count (s : Series) : nat :=
  length (filter is_null s).

Fixpoint nodupb (l : list string) : bool :=
  match l with
  | [] => true
  | x :: r => negb (mem x r) && nodupb r
  end.

Fixpoint assoc (k : string) (m : list (string * string)) : option string :=
  match m with
  | [] => None
  | (k', v) :: r => if k' =? k then Some v else assoc k r
  end.

(** [df.rename(mapping)]: every key of the mapping must be a column and the
    new names must be distinct, otherwise polars raises. *)
Definition rename (mapping : list (string * string)) (df : DataFrame)
  : option DataFrame :=
  if forallb (fun kv => has_column (fst kv) df) mapping then
    let df' :=
      map (fun p => (match assoc (fst p) mapping with
                     | Some c' => c'
                     | None => fst p
                     end, snd p)) df in
    if nodupb (columns df') then Some df' else None
  else None.

(** Gathering a series by optional row indices ([None] gives null). *)
Definition take (s : Series) (ix : list (option nat)) : Series :=
  map (fun o => match o with Some i => nth i s Null | None => Null end) ix.

(** The key of row [i]: the cells of the key columns. *)
Definition row_key (key_cols : list Series) (i : nat) : list cell :=
  map (fun s => nth i s Null) key_cols.

(** Two rows join when all their key cells are equal and none is null. *)
Fixpoint keys_match (k1 k2 : list cell) : bool :=
  match k1, k2 with
  | [], [] => true
  | a :: r1, b :: r2 => negb (is_null a) && cell_eqb a b && keys_match r1 r2
  | _, _ => false
  end.

Fixpoint key_columns (on : list string) (df : DataFrame)
  : option (list Series) :=
  match on with
  | [] => Some []
  | k :: r =>
      match get_column k df, key_columns r df with
      | Some s, Some rest => Some (s :: rest)
      | _, _ => None
      end
  end.

(** Row pairs of a full outer join: every left row with each of its
    matches (or alone), then the right rows nothing matched. *)
Definition full_pairs (lk rk : list Series) (n m : nat)
  : list (option nat * option nat) :=
  flat_map (fun i =>
              match filter (fun j => keys_match (row_key lk i) (row_key rk j))
                           (seq 0 m) with
              | [] => [(Some i, None)]
              | js => map (fun j => (Some i, Some j)) js
              end) (seq 0 n)
  ++
  flat_map (fun j =>
              if existsb (fun i => keys_match (row_key lk i) (row_key rk j))
                         (seq 0 n)
              then []
              else [(None, Some j)]) (seq 0 m).

(** Row pairs of a left join. *)
Definition left_pairs (lk rk : list Series) (n m : nat)
  : list (option nat * option nat) :=
  flat_map (fun i =>
              match filter (fun j => keys_match (row_key lk i) (row_key rk j))
                           (seq 0 m) with
              | [] => [(Some i, None)]
              | js => map (fun j => (Some i, Some j)) js
              end) (seq 0 n).

(** Name of a right-hand column in the join output. *)
Definition right_name (suffix : string) (left : DataFrame) (c : string)
  : string :=
  if has_column c left then (c ++ suffix)%string else c.

(** [left.join(right, how="full", on=on)].  The key columns of the right
    side are kept (a full join does not coalesce them) and, like every
    right-hand column whose name is taken, get the suffix [_right]. *)
Definition join_full (left right : DataFrame) (on : list string)
  : option DataFrame :=
  match on, key_columns on left, key_columns on right with
  | _ :: _, Some lk, Some rk =>
      let pairs := full_pairs lk rk (height left) (height right) in
      let out :=
        map (fun p => (fst p, take (snd p) (map fst pairs))) left ++
        map (fun p => (right_name "_right" left (fst p),
                       take (snd p) (map snd pairs))) right in
      if nodupb (columns out) then Some out else None
  | _, _, _ => None
  end.

(** [left.join(right, how="left", on=on, suffix=suffix)]: the right-hand
    key columns are not repeated. *)
Definition join_left (left right : DataFrame) (on : list string)
  (suffix : string) : option DataFrame :=
  match on, key_columns on left, key_columns on right with
  | _ :: _, Some lk, Some rk =>
      let pairs := left_pairs lk rk (height left) (height right) in
      let out :=
        map (fun p => (fst p, take (snd p) (map fst pairs))) left ++
        map (fun p => (right_name suffix left (fst p),
                       take (snd p) (map snd pairs)))
            (filter (fun p => negb (mem (fst p) on)) right) in
      if nodupb (columns out) then Some out else None
  | _, _, _ => None
  end.

(** [df.select(names)]: the named columns in the given order; a missing
    or repeated name raises. *)
Fixpoint select_columns (names : list string) (df : DataFrame)
  : option DataFrame :=
  match names with
  | [] => Some []
  | c :: r =>
      match get_column c df, select_columns r df with
      | Some s, Some rest => Some ((c, s) :: rest)
      | _, _ => None
      end
  end.

Definition select (names : list string) (df : DataFrame)
  : option DataFrame :=
  if nodupb names then select_columns names df else None.

(** Row [i] of a frame. *)
Definition row (df : DataFrame) (i : nat) : list cell :=
  map (fun p => nth i (snd p) Null) df.

(** The frame made of the rows with the given indices. *)
Definition take_rows (df : DataFrame) (ix : list nat) : DataFrame :=
  map (fun p => (fst p, map (fun i => nth i (snd p) Null) ix)) df.

Fixpoint cells_eqb (r1 r2 : list cell) : bool :=
  match r1, r2 with
  | [], [] => true
  | a :: t1, b :: t2 => cell_eqb a b && cells_eqb t1 t2
  | _, _ => false
  end.

(** Indices of the first row, in row order, of every group of rows equal
    on [sub] (a frame of the same height). *)
Definition first_of_groups (sub : DataFrame) (h : nat) : list nat :=
  filter (fun i =>
            negb (existsb (fun i' => cells_eqb (row sub i') (row sub i))
                          (seq 0 i)))
         (seq 0 h).

(** [unique] and [group_by] of polars keep no row order.  The order in
    which the rows come back is a parameter of the model: a [RowOrder]
    rearranges a list of row indices, and every permutation is a possible
    behaviour. *)
Definition RowOrder : Type := list nat -> list nat.


(** [df.unique()]: one row of every group of equal rows, in any order. *)
Definition unique (arrange : RowOrder) (df : DataFrame) : DataFrame :=
  take_rows df (arrange (first_of_groups df (height df))).

(** The indices of [ix] whose row, on [sub], is not the row of an earlier
    index of [ix]. *)
Fixpoint first_along (sub : DataFrame) (ix : list nat) : list nat :=
  match ix with
  | [] => []
  | i :: r =>
      i :: filter (fun i' => negb (cells_eqb (row sub i) (row sub i')))
                  (first_along sub r)
  end.

(** [df.unique(subset=names)]: which row of a group stays is left open as
    well ([keep="any"]); the rows are visited in any order and the first
    of every group is kept. *)
Definition unique_subset (arrange : RowOrder) (names : list string)
  (df : DataFrame) : option DataFrame :=
  match select_columns names df with
  | Some sub =>
      Some (take_rows df (first_along sub (arrange (seq 0 (height df)))))
  | None => None
  end.

(** [df.drop_nulls()] *)
Definition drop_nulls (df : DataFrame) : DataFrame :=
  take_rows df
    (filter (fun i => negb (existsb is_null (row df i)))
            (seq 0 (height df))).

(** [df.group_by(key).first()]: the key column, then the first value, in
    row order, of every other column in each group; the groups come in any
    order. *)
Definition group_by_first (arrange : RowOrder) (key : string)
  (df : DataFrame) : option DataFrame :=
  match get_column key df with
  | Some k =>
      let ix := arrange (first_of_groups [(key, k)] (height df)) in
      Some (take_rows ((key, k) :: drop key df) ix)
  | None => None
  end.

(** [len(df.group_by(key).agg(pl.len()).filter(pl.col("count") > 1))] *)
Definition duplicated_groups (key : string) (df : DataFrame) : option nat :=
  match get_column key df with
  | Some k =>
      let ix := first_of_groups [(key, k)] (height df) in
      Some (length
              (filter (fun i =>
                         Nat.ltb 1 (length (filter (cell_eqb (nth i k Null)) k)))
                      ix))
  | None => None
  end.

(** [pl.col(c).cast(pl.Utf8)] on a cell *)
Definition cast_utf8 (c : cell) : cell :=
  match c with
  | Null => Null
  | Num z => Txt (PyStr.str z)
  | Txt s => Txt s
  end.

(** [sorted(names)] by insertion *)
Fixpoint insert_sorted (x : string) (l : list string) : list string :=
  match l with
  | [] => [x]
  | y :: r => if String.leb x y then x :: l else y :: insert_sorted x r
  end.

Definition sorted (l : list string) : list string :=
  fold_right insert_sorted [] l.

(** A well-formed frame: distinct column names, columns of one length. *)
Definition wf (df : DataFrame) : Prop :=
  NoDup (columns df) /\ Forall (fun p => length (snd p) = height df) df.

End Polars.

Import PyStr Polars.

(** A small error monad: [None] stands for a raised exception. *)
Definition bind {A B : Type} (x : option A) (f : A -> option B) : option B :=
  match x with
  | Some a => f a
  | None => None
  end.

Notation "x <- e ;; k" := (bind e (fun x => k))
  (at level 61, e at next level, right associativity).
Notation "' pat <- e ;; k" := (bind e (fun x => match x with pat => k end))
  (at level 61, pat pattern, e at next level, right associativity).

(** ** [config.py] and [ProcessConfig] *)

Definition START_YEAR : Z := 2015.

Definition PRODUCT_JOIN_KEYS : list string :=
  ["営業所名"; "得意先コード"; "得意先名"; "第1階層"; "商品コード"; "商品名"].

Definition CODE_COLUMNS : list string :=
  ["法人コード"; "得意先コード"; "商品コード"].

(** ** [DataProcessor] of [02_merge_past_data.py] *)

(** [range(start_year, end_year + 1)], as text, reversed. *)
Definition generate_years_list (start_year end_year : Z) : list string :=
  rev (map (fun k => str (start_year + Z.of_nat k))
           (seq 0 (Z.to_nat (end_year + 1 - start_year)))).

Definition rename_columns (df2_b df3_b : DataFrame)
  : option (DataFrame * DataFrame) :=
  if is_empty df2_b || is_empty df3_b then Some (df2_b, df3_b)
  else
    df2_b' <- (if has_column "取引先コード" df2_b
               then rename [("取引先コード", "得意先コード");
                            ("取引先名", "得意先名")] df2_b
               else Some df2_b) ;;
    df3_b' <- (if has_column "得意先" df3_b
               then rename [("得意先", "得意先名")] df3_b
               else Some df3_b) ;;
    Some (df2_b', df3_b').

Definition protected_keys : list string :=
  ["法人コード"; "法人名"; "得意先コード"; "得意先名";
   "営業所名"; "担当者名"; "第1階層"; "商品コード"; "商品名"].

Definition add_past_suffix (df : DataFrame) (key_columns : list string)
  : option DataFrame :=
  if is_empty df then Some df
  else
    let all_protected_keys := protected_keys ++ key_columns in
    let rename_mapping :=
      map (fun col => (col, (col ++ "_past")%string))
          (filter (fun col => negb (mem col all_protected_keys))
                  (columns df)) in
    match rename_mapping with
    | [] => Some df
    | _ => rename rename_mapping df
    end.

(** The [_past] columns present when reconciliation starts. *)
Definition past_columns (df : DataFrame) : list string :=
  filter (fun col => endswith col "_past") (columns df).

(** Body of the first loop: identity columns are filled where null.
    [past_col] is a column of [df] throughout the loop (columns are only
    added or replaced), so the first branch is never taken. *)
Definition fill_id_column (years_list : list string) (df : DataFrame)
  (past_col : string) : DataFrame :=
  let base_col := replace "_past" "" past_col in
  if negb (existsb (fun year => contains year base_col) years_list) then
    match get_column past_col df with
    | None => df
    | Some p =>
        match get_column base_col df with
        | None => with_column base_col p df
        | Some b => with_column base_col (when_null_then b p) df
        end
    end
  else df.

Definition year_suffixes (year_str current_year_str : string) : list string :=
  if year_str =? current_year_str
  then ["売上数"; "㎡"; "売上"; "粗利"]
  else ["㎡"; "売上"; "粗利"].

(** Body of the inner year loop of [fix_full_join_nulls]. *)
Definition fix_year_column (current_year_str year_str : string)
  (df : DataFrame) (suffix : string) : DataFrame :=
  let col_name := (year_str ++ suffix)%string in
  let past_col_name := (col_name ++ "_past")%string in
  if year_str =? current_year_str then
    if has_column col_name df then df
    else with_column col_name (lit_null df) df
  else
    match get_column past_col_name df with
    | Some p =>
        match get_column col_name df with
        | None => with_column col_name p df
        | Some c => with_column col_name (when_null_then c p) df
        end
    | None =>
        if has_column col_name df then df
        else with_column col_name (lit_null df) df
    end.

Definition drop_past_column (df : DataFrame) (past_col : string) : DataFrame :=
  if has_column past_col df then drop past_col df else df.

Definition fix_full_join_nulls (df : DataFrame) (years_list : list string)
  (current_year_str : string) : DataFrame :=
  let past_cols := past_columns df in
  let df := fold_left (fill_id_column years_list) past_cols df in
  let df :=
    fold_left
      (fun d year_str =>
         fold_left (fix_year_column current_year_str year_str)
                   (year_suffixes year_str current_year_str) d)
      years_list df in
  fold_left drop_past_column past_cols df.

Definition product_join_keys (df3_a df3_b : DataFrame) : list string :=
  filter (fun key => has_column key df3_a && has_column key df3_b)
         PRODUCT_JOIN_KEYS.

Definition merge_dataframes (df1_a df1_b df2_a df2_b df3_a df3_b : DataFrame)
  (years : list string) (current_year : Z)
  : option (DataFrame * DataFrame * DataFrame) :=
  if is_empty df1_b then Some (df1_a, df2_a, df3_a)
  else
    df1_b_renamed <- add_past_suffix df1_b ["法人コード"] ;;
    df2_b_renamed <- add_past_suffix df2_b ["得意先コード"; "得意先名"] ;;
    df3_b_renamed <- add_past_suffix df3_b PRODUCT_JOIN_KEYS ;;
    df1 <- join_full df1_a df1_b_renamed ["法人コード"] ;;
    df2 <- join_full df2_a df2_b_renamed ["得意先コード"; "得意先名"] ;;
    let join_keys := product_join_keys df3_a df3_b in
    df3 <- (if negb (is_empty df3_b) && negb (Nat.eqb (length join_keys) 0)
            then join_full df3_a df3_b_renamed join_keys
            else Some df3_a) ;;
    Some (fix_full_join_nulls df1 years (str current_year),
          fix_full_join_nulls df2 years (str current_year),
          fix_full_join_nulls df3 years (str current_year)).

(** ** The merger of [02_merge_past_data_2Q.py] *)

Module Script2Q.

(** Body of the inner year loop of [_fix_full_join_nulls]: a prior year is
    always taken from its [_past] column. *)
Definition fix_year_column (current_year_str year_str : string)
  (df : DataFrame) (suffix : string) : DataFrame :=
  let col_name := (year_str ++ suffix)%string in
  let past_col_name := (col_name ++ "_past")%string in
  if year_str =? current_year_str then
    if has_column col_name df then df
    else with_column col_name (lit_null df) df
  else
    match get_column past_col_name df with
    | Some p => with_column col_name p df
    | None =>
        if has_column col_name df then df
        else with_column col_name (lit_null df) df
    end.

Definition _fix_full_join_nulls (years_list : list string)
  (current_year_str : string) (df : DataFrame) : DataFrame :=
  let past_cols := past_columns df in
  let df := fold_left (fill_id_column years_list) past_cols df in
  let df :=
    fold_left
      (fun d year_str =>
         fold_left (fix_year_column current_year_str year_str)
                   (year_suffixes year_str current_year_str) d)
      years_list df in
  fold_left drop_past_column past_cols df.

(** Every column gets the suffix, the join keys too; [key_columns] is not
    used. *)
Definition _add_past_suffix (df : DataFrame) (key_columns : list string)
  : option DataFrame :=
  let rename_mapping := map (fun col => (col, (col ++ "_past")%string)) (columns df) in
  match rename_mapping with
  | [] => Some df
  | _ => rename rename_mapping df
  end.

End Script2Q.

(** ** The remaining stages of [DataProcessor] *)

(** [master] is the table read from the master file. *)
Definition merge_with_master (df1 master : DataFrame) : option DataFrame :=
  df1_c <- select ["法人コード"; "法人名"] master ;;
  df1 <- join_left df1 df1_c ["法人コード"] "_new" ;;
  if has_column "法人名" df1 && has_column "法人名_new" df1 then
    name <- get_column "法人名" df1 ;;
    name_new <- get_column "法人名_new" df1 ;;
    Some (drop "法人名_new" (with_column "法人名" (coalesce name name_new) df1))
  else if has_column "法人名_new" df1 then
    rename [("法人名_new", "法人名")] df1
  else Some df1.

(** [int(year)] *)
Definition int (s : string) : option Z :=
  option_map Z.of_int (NilZero.int_of_string s).

(** [get_year_cols] of [reorder_columns]; [int(year)] is evaluated, and can
    raise, only for a column that carries one of the years. *)
Fixpoint get_year_cols (years base_cols : list string) (year : string)
  (cols : list string) : option (list string) :=
  match cols with
  | [] => Some []
  | col :: r =>
      keep <- (if existsb (fun y => contains y col) years then
                 n <- int year ;;
                 Some (negb (endswith col (str (n - 1) ++ "売上数")%string)
                       && negb (mem col base_cols))
               else Some false) ;;
      rest <- get_year_cols years base_cols year r ;;
      Some (if keep then col :: rest else rest)
  end.

Definition safe_select (df : DataFrame) (cols : list string)
  : option DataFrame :=
  match filter (fun col => has_column col df) cols with
  | [] => Some df
  | existing_cols => select existing_cols df
  end.

(** The second filter of the source, [if col in cols1], keeps every name:
    [get_year_cols] returns names of the table it was given. *)
Definition reorder_columns (df1 df2 df3 : DataFrame) (year : string)
  (years : list string) : option (DataFrame * DataFrame * DataFrame) :=
  let base_cols_df1 := ["法人コード"; "法人名"; (year ++ "売上数")%string] in
  let base_cols_df2 := ["得意先コード"; "得意先名"; (year ++ "売上数")%string] in
  let potential_base_cols_df3 :=
    ["営業所名"; "担当者名"; "得意先コード"; "得意先名"; "第1階層";
     "商品コード"; "商品名"; (year ++ "売上数")%string] in
  let base_cols_df3 :=
    filter (fun col => has_column col df3) potential_base_cols_df3 in
  let all_base := base_cols_df1 ++ base_cols_df2 ++ base_cols_df3 in
  year_cols1 <- get_year_cols years all_base year (columns df1) ;;
  year_cols2 <- get_year_cols years all_base year (columns df2) ;;
  year_cols3 <- get_year_cols years all_base year (columns df3) ;;
  out1 <- safe_select df1 (base_cols_df1 ++ year_cols1) ;;
  out2 <- safe_select df2 (base_cols_df2 ++ year_cols2) ;;
  out3 <- safe_select df3 (base_cols_df3 ++ year_cols3) ;;
  Some (out1, out2, out3).

(** Number of rows whose code is null and whose name is not. *)
Definition target_rows (code name : Series) : nat :=
  length (filter (fun cn => is_null (fst cn) && negb (is_null (snd cn)))
                 (combine code name)).

(** The row orders polars uses in the backfill, one for each call that
    keeps no order. *)
Record RowOrders : Type := mkRowOrders {
  corporate_unique : RowOrder;  (* [df1_b.select(...).unique()] *)
  corporate_groups : RowOrder;  (* [past_mapping.group_by(...).first()] *)
  corporate_dedup : RowOrder;   (* [df1.unique(subset=...)] *)
  customer_unique : RowOrder    (* [df2_b.select(...).unique()] *)
}.


(** Backfill of the corporate code from [name -> code] pairs of the past
    table: an ambiguous name keeps one code, the first of its group, and
    rows multiplied by the join are removed again. *)
Definition fill_corporate (orders : RowOrders) (df1 df1_b : DataFrame)
  : option DataFrame :=
  if Nat.ltb 0 (height df1) && Nat.ltb 0 (height df1_b) then
    code <- get_column "法人コード" df1 ;;
    if has_column "法人名" df1 && has_column "法人名" df1_b
       && has_column "法人コード" df1_b then
      name <- get_column "法人名" df1 ;;
      if Nat.ltb 0 (target_rows code name) then
        let rows_before := height df1 in
        selected <- select ["法人名"; "法人コード"] df1_b ;;
        let past_mapping :=
          drop_nulls (unique (corporate_unique orders) selected) in
        duplicate_names <- duplicated_groups "法人名" past_mapping ;;
        past_mapping <- (if Nat.ltb 0 duplicate_names
                         then group_by_first (corporate_groups orders)
                                             "法人名" past_mapping
                         else Some past_mapping) ;;
        renamed <- rename [("法人コード", "法人コード_補完")] past_mapping ;;
        df1_filled <- join_left df1 renamed ["法人名"] "_right" ;;
        code <- get_column "法人コード" df1_filled ;;
        fill <- get_column "法人コード_補完" df1_filled ;;
        let df1 := drop "法人コード_補完"
                     (with_column "法人コード" (coalesce code fill) df1_filled) in
        let rows_after := height df1 in
        if Nat.ltb rows_before rows_after then
          df1_dedup <- unique_subset (corporate_dedup orders)
                                     ["法人コード"; "法人名"] df1 ;;
          if Nat.ltb (height df1_dedup) rows_after
          then Some df1_dedup else Some df1
        else Some df1
      else Some df1
    else Some df1
  else Some df1.

(** Backfill of the customer code: the pairs are used as they are. *)
Definition fill_customer (orders : RowOrders) (df2 df2_b : DataFrame)
  : option DataFrame :=
  if Nat.ltb 0 (height df2) && Nat.ltb 0 (height df2_b) then
    if has_column "得意先名" df2 && has_column "得意先名" df2_b
       && has_column "得意先コード" df2_b then
      code <- get_column "得意先コード" df2 ;;
      name <- get_column "得意先名" df2 ;;
      if Nat.ltb 0 (target_rows code name) then
        selected <- select ["得意先名"; "得意先コード"] df2_b ;;
        let past_mapping :=
          drop_nulls (unique (customer_unique orders) selected) in
        renamed <- rename [("得意先コード", "得意先コード_補完")] past_mapping ;;
        df2_filled <- join_left df2 renamed ["得意先名"] "_right" ;;
        code <- get_column "得意先コード" df2_filled ;;
        fill <- get_column "得意先コード_補完" df2_filled ;;
        Some (drop "得意先コード_補完"
                (with_column "得意先コード" (coalesce code fill) df2_filled))
      else Some df2
    else Some df2
  else Some df2.

(** The customer+product table is only inspected (null counts are logged),
    never changed. *)
Definition fill_missing_index_columns (orders : RowOrders)
  (df1 df2 df3 df1_b df2_b df3_b : DataFrame)
  : option (DataFrame * DataFrame * DataFrame) :=
  if is_empty df1_b then Some (df1, df2, df3)
  else
    df1 <- fill_corporate orders df1 df1_b ;;
    df2 <- fill_customer orders df2 df2_b ;;
    Some (df1, df2, df3).

Definition cast_column (col : string) (df : DataFrame) : DataFrame :=
  match get_column col df with
  | Some s => with_column col (map cast_utf8 s) df
  | None => df
  end.

Definition convert_data_types (df1 df2 df3 : DataFrame)
  : DataFrame * DataFrame * DataFrame :=
  fold_left
    (fun d col =>
       let '(d1, d2, d3) := d in
       (cast_column col d1, cast_column col d2, cast_column col d3))
    CODE_COLUMNS (df1, df2, df3).

(** ** [DataIntegrityValidator] *)

(** Totals of one column in the three tables. *)
Record Totals : Type := mkTotals {
  corporate : Z;          (* 法人 *)
  customer : Z;           (* 得意先 *)
  customer_product : Z    (* 得意先（商品） *)
}.

(** A totals snapshot: column name to totals, in insertion order. *)
Definition Snapshot := list (string * Totals).

Fixpoint lookup_totals (col : string) (t : Snapshot) : option Totals :=
  match t with
  | [] => None
  | (c, v) :: r => if c =? col then Some v else lookup_totals col r
  end.

Definition column_sum (col : string) (df : DataFrame) : option Z :=
  option_map sum (get_column col df).

Definition validate_data_totals (df1 df2 df3 : DataFrame) : Snapshot :=
  if is_empty df1 then []
  else
    let sales_columns :=
      filter (fun col => endswith col "売上") (columns df1) in
    flat_map
      (fun sales_col =>
         match column_sum sales_col df1, column_sum sales_col df2,
               column_sum sales_col df3 with
         | Some total1, Some total2, Some total3 =>
             [(sales_col, mkTotals total1 total2 total3)]
         | _, _, _ => []
         end)
      (sorted sales_columns).

(** Issues raised by the before/after comparison of one table's total:
    [(critical, counted)]. *)
Definition diff_issue (before after : Z) : bool * nat :=
  if Z.eqb after before then (false, 0)
  else
    let diff_abs := Z.abs (after - before) in
    if Z.ltb 1000000 diff_abs then (true, 1)
    else if Z.ltb 100000 diff_abs then (false, 1)
    else (false, 0).

(** Number of pairs of tables whose totals differ. *)
Definition consistency_issues (after : Totals) : nat :=
  (if Z.eqb (corporate after) (customer after) then 0 else 1)
  + (if Z.eqb (customer after) (customer_product after) then 0 else 1)
  + (if Z.eqb (corporate after) (customer_product after) then 0 else 1).

(** One turn of the loop of [compare_totals] on the state
    [(is_valid, total_issues)]. *)
Definition compare_column (before_totals after_totals : Snapshot)
  (st : bool * nat) (sales_col : string) : bool * nat :=
  let '(is_valid, total_issues) := st in
  match lookup_totals sales_col after_totals with
  | Some after =>
      let '(is_valid, total_issues) :=
        match lookup_totals sales_col before_totals with
        | Some before =>
            fold_left
              (fun s ba =>
                 let '(crit, n) := diff_issue (fst ba) (snd ba) in
                 (fst s && negb crit, snd s + n))
              [(corporate before, corporate after);
               (customer before, customer after);
               (customer_product before, customer_product after)]
              (is_valid, total_issues)
        | None => (is_valid, total_issues)
        end in
      let n := consistency_issues after in
      if Nat.ltb 0 n then (false, total_issues + n)
      else (is_valid, total_issues)
  | None => (false, total_issues + 1)
  end.

Fixpoint dedup (l : list string) : list string :=
  match l with
  | [] => []
  | x :: r => if mem x r then dedup r else x :: dedup r
  end.

(** The [year] argument of the source is not used by it. *)
Definition compare_totals (before_totals after_totals : Snapshot) : bool :=
  let all_sales_columns :=
    dedup (map fst before_totals ++ map fst after_totals) in
  match all_sales_columns with
  | [] => false
  | _ =>
      let '(is_valid, total_issues) :=
        fold_left (compare_column before_totals after_totals)
                  (sorted all_sales_columns) (true, 0) in
      is_valid && Nat.eqb total_issues 0
  end.

(** ** [main] *)

(** What the console shows at the end of a run. *)
Inductive ConsoleMessage : Type :=
| CompletedVerified        (* 過去データ結合処理が完了しました（整合性確認済み） *)
| CompletedWithDifferences (* 過去データ結合処理が完了しましたが、データ差異を検出 *).

(** A run that reaches its end: the three files written by [save_data]
    and the closing console message.  [main] returns nothing. *)
Record Completed : Type := mkCompleted {
  saved : DataFrame * DataFrame * DataFrame;
  console : ConsoleMessage
}.

(** Exit status of the script: [main] returns [None] to the interpreter
    when it completes, and an exception that escapes ends the process with
    status 1. *)
Definition exit_status (r : option Completed) : Z :=
  match r with
  | Some _ => 0
  | None => 1
  end.

(** The identity backfill stage exactly as [main] calls it. *)
Definition main_fill_missing_index_columns (orders : RowOrders)
  (df1 df2 df3 : DataFrame)
  : option (DataFrame * DataFrame * DataFrame) :=
  fill_missing_index_columns orders df1 df2 df3
                             pl_DataFrame pl_DataFrame pl_DataFrame.

(** Verification and saving, the end of [main]. *)
Definition main_verify_and_save (past_totals : Snapshot)
  (df1 df2 df3 : DataFrame) : option Completed :=
  let after_totals := validate_data_totals df1 df2 df3 in
  let integrity_check_passed := compare_totals past_totals after_totals in
  Some (mkCompleted (df1, df2, df3)
          (if integrity_check_passed
           then CompletedVerified else CompletedWithDifferences)).

Section Main.

(** Two stages are taken as given: the group-by aggregation of the
    customer+product table (it depends on column dtypes) and the final
    sort. *)
Variable aggregate_product_data : DataFrame -> DataFrame.
Variable sort_dataframes :
  DataFrame -> DataFrame -> DataFrame -> list string -> Z ->
  option (DataFrame * DataFrame * DataFrame).

(** The row orders polars uses in this run. *)
Variable orders : RowOrders.

(** [current_year] is the fiscal year computed from the clock; the six
    tables and the master table are what the loaders return.  The
    pre-merge validation only logs and is left out. *)
Definition main (current_year : Z)
  (df1_a df2_a df3_a df1_b df2_b df3_b master : DataFrame)
  : option Completed :=
  let year := str current_year in
  let years := generate_years_list START_YEAR current_year in
  let past_totals := validate_data_totals df1_b df2_b df3_b in
  '(df2_b, df3_b) <- rename_columns df2_b df3_b ;;
  '(df1, df2, df3) <-
    merge_dataframes df1_a df1_b df2_a df2_b df3_a df3_b years current_year ;;
  df1 <- merge_with_master df1 master ;;
  let df3 := aggregate_product_data df3 in
  '(df1, df2, df3) <- reorder_columns df1 df2 df3 year years ;;
  '(df1, df2, df3) <- main_fill_missing_index_columns orders df1 df2 df3 ;;
  '(df1, df2, df3) <- sort_dataframes df1 df2 df3 years current_year ;;
  let '(df1, df2, df3) := convert_data_types df1 df2 df3 in
  main_verify_and_save past_totals df1 df2 df3.

End Main.

(** The four metric suffixes: quantity, area, revenue, gross margin. *)
Definition metric_suffixes : list string := ["売上数"; "㎡"; "売上"; "粗利"].

(** The suffixes that exist for every year. *)
Definition yearly_suffixes : list string := ["㎡"; "売上"; "粗利"].

(** The name a historical column has after suffixing, given the names that
    are protected. *)
Definition suffixed_name (all_protected : list string) (c : string) : string :=
  if mem c all_protected then c else (c ++ "_past")%string.

(** No two rows of the table carry the same non-null key: the invariant
    of a dimension table. *)
Definition unique_keys (on : list string) (df : DataFrame) : bool :=
  match key_columns on df with
  | Some lk =>
      forallb
        (fun i =>
           forallb
             (fun i' =>
                Nat.eqb i i'
                || negb (keys_match (row_key lk i) (row_key lk i')))
             (seq 0 (height df)))
        (seq 0 (height df))
  | None => false
  end.

(** The table brings no value of its own for column [c]: the column is
    absent, or null in every row. *)
Definition no_new_values (c : string) (df : DataFrame) : bool :=
  match get_column c df with
  | Some s => forallb is_null s
  | None => true
  end.

(** Sum of [f] over a list of indices. *)
Definition zsum {A : Type} (f : A -> Z) (l : list A) : Z :=
  fold_right (fun x acc => (f x + acc)%Z) 0%Z l.

(** The value a gathered cell adds to a total. *)
Definition taken_value (v : Series) (o : option nat) : Z :=
  match o with
  | Some j => cell_value (nth j v Null)
  | None => 0%Z
  end.

(** The nested year loop of null reconciliation over a loop body. *)
Definition year_loop (years : list string) (cur : string)
  (step : string -> string -> DataFrame -> string -> DataFrame)
  (df : DataFrame) : DataFrame :=
  fold_left
    (fun d year_str =>
       fold_left (step cur year_str) (year_suffixes year_str cur) d)
    years df.

(** A suffix applies to a year: area, revenue and gross margin for every
    year, the quantity for the current year only. *)
Definition applicable_suffix (year_str current_year_str s : string) : Prop :=
  In s yearly_suffixes \/ (s = "売上数" /\ year_str = current_year_str).

(** The table has every metric column the Fiscal Year Set calls for. *)
Definition complete (years : list string) (current_year_str : string)
  (df : DataFrame) : Prop :=
  forall y s, In y years -> applicable_suffix y current_year_str s ->
              has_column (y ++ s)%string df = true.

(** The suffixes of the monetary columns, revenue and gross margin.  They
    are whole numbers ([Int64] in [01_create_data.py]); quantity and area
    are floating-point columns. *)
Definition monetary_suffixes : list string := ["売上"; "粗利"].

(** Two's-complement wrap-around of a 64-bit signed integer, and the total
    of a column as an [Int64] sum computes it. *)
Definition wrap_int64 (z : Z) : Z :=
  ((z + 2 ^ 63) mod 2 ^ 64 - 2 ^ 63)%Z.

Definition sum_int64 (s : Series) : Z :=
  fold_right (fun c acc => wrap_int64 (cell_value c + acc)) 0%Z s.

(** ** Sample tables *)

Module Sample.

Definition years : list string := ["2025"; "2024"].

Definition corporate_current : DataFrame :=
  [("法人コード", [Txt "A"; Txt "C"]);
   ("2025売上数", [Num 3; Num 1]);
   ("2025㎡", [Num 4; Num 2]);
   ("2025売上", [Num 100; Num 5]);
   ("2025粗利", [Num 20; Num 1])].

Definition corporate_history : DataFrame :=
  [("法人コード", [Txt "A"; Txt "B"]);
   ("法人名", [Txt "Alpha"; Txt "Beta"]);
   ("2024㎡", [Num 9; Num 1]);
   ("2024売上", [Num 50; Num 7]);
   ("2024粗利", [Num 10; Num 2])].

Definition customer_current : DataFrame :=
  [("得意先コード", [Txt "K1"]);
   ("得意先名", [Txt "Kite"]);
   ("2025売上数", [Num 4]);
   ("2025㎡", [Num 6]);
   ("2025売上", [Num 105]);
   ("2025粗利", [Num 21])].

Definition customer_history : DataFrame :=
  [("得意先コード", [Txt "K1"; Txt "K2"]);
   ("得意先名", [Txt "Kite"; Txt "Knot"]);
   ("2024㎡", [Num 9; Num 1]);
   ("2024売上", [Num 50; Num 7]);
   ("2024粗利", [Num 10; Num 2])].

Definition product_current : DataFrame :=
  [("営業所名", [Txt "East"]);
   ("得意先コード", [Txt "K1"]);
   ("得意先名", [Txt "Kite"]);
   ("第1階層", [Txt "Floor"]);
   ("商品コード", [Txt "P1"]);
   ("商品名", [Txt "Tile"]);
   ("2025売上数", [Num 4]);
   ("2025㎡", [Num 6]);
   ("2025売上", [Num 105]);
   ("2025粗利", [Num 21])].

Definition product_history : DataFrame :=
  [("営業所名", [Txt "East"; Txt "West"]);
   ("得意先コード", [Txt "K1"; Txt "K2"]);
   ("得意先名", [Txt "Kite"; Txt "Knot"]);
   ("第1階層", [Txt "Floor"; Txt "Wall"]);
   ("商品コード", [Txt "P1"; Txt "P2"]);
   ("商品名", [Txt "Tile"; Txt "Panel"]);
   ("2024㎡", [Num 9; Num 1]);
   ("2024売上", [Num 50; Num 7]);
   ("2024粗利", [Num 10; Num 2])].

(** The three merged tables of the sample. *)
Definition merged : option (DataFrame * DataFrame * DataFrame) :=
  Eval vm_compute in
    merge_dataframes corporate_current corporate_history
                     customer_current customer_history
                     product_current product_history years 2025.

(** A current corporate table without a single row, and a historical one
    that carries a stale value for the current year. *)
Definition corporate_quiet : DataFrame :=
  [("法人コード", []);
   ("2025売上", [])].

Definition corporate_stale : DataFrame :=
  [("法人コード", [Txt "A"]);
   ("2024売上", [Num 30]);
   ("2025売上", [Num 50])].

(** A joined table whose prior-year revenue exists on both sides. *)
Definition joined_both : DataFrame :=
  [("法人コード", [Txt "A"; Txt "B"]);
   ("2024売上", [Num 7; Null]);
   ("2024売上_past", [Num 9; Num 4])].

(** A joined table in which history carries a stale value for the
    current year's revenue. *)
Definition joined_stale : DataFrame :=
  [("法人コード", [Txt "A"; Txt "B"]);
   ("2025売上", [Num 100; Null]);
   ("2025売上_past", [Num 1; Num 2])].

(** A joined corporate table: the name is known for the first row only,
    history knows both. *)
Definition joined_names : DataFrame :=
  [("法人コード", [Txt "A"; Txt "B"]);
   ("法人名", [Txt "Alpha"; Null]);
   ("法人名_past", [Txt "Alfa"; Txt "Beta"])].

(** A customer history without the name column. *)
Definition customer_history_code_only : DataFrame :=
  [("得意先コード", [Txt "K1"]);
   ("2024売上", [Num 50])].

(** A customer+product history without the office column. *)
Definition product_history_no_office : DataFrame :=
  [("得意先コード", [Txt "K1"; Txt "K2"]);
   ("得意先名", [Txt "Kite"; Txt "Knot"]);
   ("第1階層", [Txt "Floor"; Txt "Wall"]);
   ("商品コード", [Txt "P1"; Txt "P2"]);
   ("商品名", [Txt "Tile"; Txt "Panel"]);
   ("2024売上", [Num 50; Num 7])].

(** A customer table with a missing code, and a history in which the name
    of that customer has two codes. *)
Definition customer_missing_code : DataFrame :=
  [("得意先コード", [Null; Txt "K9"]);
   ("得意先名", [Txt "Kite"; Txt "Yarn"]);
   ("2025売上", [Num 100; Num 1])].

Definition customer_two_codes : DataFrame :=
  [("得意先コード", [Txt "K1"; Txt "K2"]);
   ("得意先名", [Txt "Kite"; Txt "Kite"])].

Definition corporate_missing_code : DataFrame :=
  [("法人コード", [Null; Txt "C9"]);
   ("法人名", [Txt "Alpha"; Txt "Yarn"]);
   ("2025売上", [Num 100; Num 1])].


(** Two runs of polars: one that hands rows back in the order it found
    them, one that hands them back in reverse. *)
Definition rows_as_found : RowOrders :=
  mkRowOrders (fun ix => ix) (fun ix => ix) (fun ix => ix) (fun ix => ix).


(** Final tables whose revenue totals agree, and a customer table whose
    total diverges from them. *)
Definition final_corporate : DataFrame :=
  [("法人コード", [Txt "A"]); ("2025売上", [Num 100])].

Definition final_customer : DataFrame :=
  [("得意先コード", [Txt "K1"]); ("得意先名", [Txt "Kite"]);
   ("2025売上", [Num 100])].

Definition final_product : DataFrame :=
  [("営業所名", [Txt "East"]); ("2025売上", [Num 100])].

Definition final_customer_diverging : DataFrame :=
  [("得意先コード", [Txt "K1"]); ("得意先名", [Txt "Kite"]);
   ("2025売上", [Num 90])].

End Sample.

(** ** Further stages of the two scripts *)

(** [get_fiscal_years] of [config.py]; [month] is the month of the clock.
    The fiscal year starts in April. *)
Definition get_fiscal_years (base_year month : Z) : string * string * Z :=
  if (4 <=? month)%Z
  then (str base_year, str (base_year - 1), base_year)
  else (str (base_year - 1), str (base_year - 1 - 1), (base_year - 1)%Z).

(** Every metric column the year list calls for, in the order of the two
    nested loops: years as listed, suffixes in their fixed order. *)
Definition expected_columns (years_list : list string)
  (current_year_str : string) : list string :=
  flat_map (fun year_str =>
              map (fun suffix => (year_str ++ suffix)%string)
                  (year_suffixes year_str current_year_str))
           years_list.



Module Script2QStages.

Definition START_YEAR_DATA : Z := 2015.

(** [now_year] and [now_month] are read from the clock. *)
Definition _calculate_fiscal_years (now_year now_month : Z) : Z * Z :=
  let processing_year :=
    if (4 <=? now_month)%Z then now_year else (now_year - 1)%Z in
  (processing_year, (processing_year - 1)%Z).

Definition _generate_years_list (processing_year : Z) : list string :=
  rev (map (fun k => str (START_YEAR_DATA + Z.of_nat k))
           (seq 0 (Z.to_nat (processing_year + 1 - START_YEAR_DATA)))).

(** Each legacy name is renamed on its own, whether or not the tables have
    rows. *)
Definition preprocess_past_data (df2_past df3_past : DataFrame)
  : option (DataFrame * DataFrame) :=
  let rename_mapping_df2 :=
    (if has_column "取引先コード" df2_past
     then [("取引先コード", "得意先コード")] else [])
    ++ (if has_column "取引先名" df2_past
        then [("取引先名", "得意先名")] else []) in
  df2_past' <- (match rename_mapping_df2 with
                | [] => Some df2_past
                | _ => rename rename_mapping_df2 df2_past
                end) ;;
  let rename_mapping_df3 :=
    if has_column "得意先" df3_past then [("得意先", "得意先名")] else [] in
  df3_past' <- (match rename_mapping_df3 with
                | [] => Some df3_past
                | _ => rename rename_mapping_df3 df3_past
                end) ;;
  Some (df2_past', df3_past').

(** [generate_year_columns] of [reorder_columns] *)
Definition generate_year_columns (years_list : list string)
  (current_year_str : string) (df : DataFrame) : list string :=
  filter (fun col_name => has_column col_name df)
         (expected_columns years_list current_year_str).

(** One table of [reorder_columns]: the key columns, then the year
    columns, each if the table has it. *)
Definition reorder_table (key_cols years_list : list string)
  (current_year_str : string) (df : DataFrame) : option DataFrame :=
  let columns_ordered :=
    key_cols ++ generate_year_columns years_list current_year_str df in
  let existing_cols := filter (fun col => has_column col df) columns_ordered in
  select existing_cols df.

Definition reorder_columns (years_list : list string)
  (current_year_str : string) (df1_merged df2_merged df3_merged : DataFrame)
  : option (DataFrame * DataFrame * DataFrame) :=
  df1_final <- reorder_table ["法人コード"; "法人名"] years_list
                             current_year_str df1_merged ;;
  df2_final <- reorder_table ["得意先コード"; "得意先名"] years_list
                             current_year_str df2_merged ;;
  df3_final <- reorder_table ["営業所名"; "得意先コード"; "得意先名"; "第1階層";
                              "商品コード"; "商品名"] years_list
                             current_year_str df3_merged ;;
  Some (df1_final, df2_final, df3_final).



End Script2QStages.

(** The name has no underscore in it. *)
Fixpoint no_underscore (s : string) : bool :=
  match s with
  | EmptyString => true
  | String a s' => negb (Ascii.eqb a "_") && no_underscore s'
  end.

(** A frame with at least one column, distinct names and [n] rows in every
    column. *)
Definition shaped (n : nat) (d : DataFrame) : Prop :=
  d <> [] /\ NoDup (columns d) /\ Forall (fun p => length (snd p) = n) d.

(** The three tables agree on a total. *)
Definition consistent (t : Totals) : Prop :=
  corporate t = customer t /\ customer t = customer_product t.

(** No table's total moved by more than 100,000 between two snapshots. *)
Definition within_tolerance (before after : Totals) : Prop :=
  (Z.abs (corporate after - corporate before) <= 100000)%Z /\
  (Z.abs (customer after - customer before) <= 100000)%Z /\
  (Z.abs (customer_product after - customer_product before) <= 100000)%Z.

(** A column passes verification: it is in the snapshot taken after the
    merge, the three tables agree on it there, and it is within tolerance
    of the snapshot taken before, if it was in that one. *)
Definition column_passes (before_totals after_totals : Snapshot)
  (col : string) : Prop :=
  exists after,
    lookup_totals col after_totals = Some after /\
    consistent after /\
    forall before, lookup_totals col before_totals = Some before ->
                   within_tolerance before after.



(** Neither table has column [c], under its name or as a [_past] shadow. *)
Definition on_neither_side (c : string) (current historical : DataFrame)
  : Prop :=
  has_column c current = false /\ has_column c historical = false /\
  has_column (c ++ "_past")%string current = false /\
  has_column (c ++ "_past")%string historical = false.

(** The table has column [c], and the column holds nulls only. *)
Definition all_null (c : string) (df : DataFrame) : Prop :=
  exists v, get_column c df = Some v /\ forallb is_null v = true.

(** The base columns [reorder_columns] asks for in each table, and the
    base columns of the three tables together as [get_year_cols] uses them
    (of the customer+product names only those the table has). *)
Definition base_cols_df1 (year : string) : list string :=
  ["法人コード"; "法人名"; (year ++ "売上数")%string].

Definition base_cols_df2 (year : string) : list string :=
  ["得意先コード"; "得意先名"; (year ++ "売上数")%string].

Definition potential_base_cols_df3 (year : string) : list string :=
  ["営業所名"; "担当者名"; "得意先コード"; "得意先名"; "第1階層";
   "商品コード"; "商品名"; (year ++ "売上数")%string].

Definition all_base_cols (year : string) (df3 : DataFrame) : list string :=
  base_cols_df1 year ++ base_cols_df2 year
  ++ filter (fun col => has_column col df3) (potential_base_cols_df3 year).

(** Nothing of [d] can be selected: it has none of the [base] columns, and
    each of its columns that carries a year is a base column of some table
    or the quantity column of the year before [year]. *)
Definition nothing_to_select (base all_base years : list string)
  (year : string) (d : DataFrame) : Prop :=
  forall c, has_column c d = true ->
            ~ In c base /\
            (existsb (fun y => contains y c) years = true ->
             In c all_base \/
             exists n, int year = Some n /\
                       endswith c (str (n - 1) ++ "売上数")%string = true).

(** [o] is made of columns of [d], unchanged; it is [d] itself when nothing
    of [d] can be selected, and otherwise each of its columns is one of
    [base] or carries one of the years. *)
Definition selected_from (base all_base years : list string) (year : string)
  (d o : DataFrame) : Prop :=
  (forall c s, get_column c o = Some s -> get_column c d = Some s) /\
  ((o = d /\ nothing_to_select base all_base years year d) \/
   forall c, has_column c o = true ->
             In c base \/ existsb (fun y => contains y c) years = true).

(** [o] has the columns of [d] that the column order calls for -- the key
    columns, then the metric columns year by year -- each with the data it
    has in [d]. *)
Definition canonical (key_cols years_list : list string)
  (current_year_str : string) (d o : DataFrame) : Prop :=
  columns o
  = filter (fun col => has_column col d)
           (key_cols ++ expected_columns years_list current_year_str) /\
  forall c, has_column c o = true -> get_column c o = get_column c d.

(** [o] is [d] with its code columns cast to text: the same column names in
    the same order, the cells of a code column cast one by one, every other
    column as it was. *)
Definition casted (d o : DataFrame) : Prop :=
  columns o = columns d /\
  forall c, get_column c o
            = if mem c CODE_COLUMNS
              then option_map (map cast_utf8) (get_column c d)
              else get_column c d.

(** ** More sample tables *)

Module Sample2.

(** The three merged tables of the sample, one by one. *)
Definition merged_corporate : DataFrame :=
  Eval vm_compute in
    match Sample.merged with Some (d, _, _) => d | None => [] end.

Definition merged_customer : DataFrame :=
  Eval vm_compute in
    match Sample.merged with Some (_, d, _) => d | None => [] end.

Definition merged_product : DataFrame :=
  Eval vm_compute in
    match Sample.merged with Some (_, _, d) => d | None => [] end.

(** A corporate table that still has last year's quantity column. *)
Definition corporate_old_quantity : DataFrame :=
  [("法人コード", [Txt "A"]);
   ("2025売上数", [Num 3]);
   ("2025売上", [Num 100]);
   ("2024売上数", [Num 2]);
   ("2024売上", [Num 50])].


(** A corporate table with a missing name, and a master table. *)
Definition corporate_unnamed : DataFrame :=
  [("法人コード", [Txt "A"; Txt "B"]);
   ("法人名", [Txt "Alpha"; Null])].

Definition master : DataFrame :=
  [("法人コード", [Txt "B"; Txt "C"]);
   ("法人名", [Txt "Beta"; Txt "Gamma"])].

(** A customer history that has the legacy code column but no legacy name
    column. *)
Definition customer_history_legacy_code : DataFrame :=
  [("取引先コード", [Txt "K1"]);
   ("2024売上", [Num 50])].

(** A year list that reaches back to a year neither sample table knows. *)
Definition years_three : list string := ["2025"; "2024"; "2023"].

(** A current customer+product table whose two rows differ in the office
    only, a customer+product history without any key column, and a current
    customer table with an empty column for the prior year. *)
Definition product_two_offices : DataFrame :=
  [("営業所名", [Txt "East"; Txt "West"]);
   ("得意先コード", [Txt "K1"; Txt "K1"]);
   ("得意先名", [Txt "Kite"; Txt "Kite"]);
   ("第1階層", [Txt "Floor"; Txt "Floor"]);
   ("商品コード", [Txt "P1"; Txt "P1"]);
   ("商品名", [Txt "Tile"; Txt "Tile"]);
   ("2025売上", [Num 60; Num 45])].

Definition product_history_keyless : DataFrame :=
  [("2024売上", [Num 50])].

Definition customer_current_blank : DataFrame :=
  [("得意先コード", [Txt "K1"]);
   ("得意先名", [Txt "Kite"]);
   ("2025売上", [Num 105]);
   ("2024売上", [Null])].

End Sample2.

(** * Properties *)

(** ** Strings *)

Section StringFacts.

Lemma endswith_app (p suf : string) : endswith (p ++ suf)%string suf = true.
Proof.
  induction p as [|c p IH]; simpl.
  - destruct suf; cbn [endswith]; rewrite String.eqb_refl; reflexivity.
  - rewrite IH. apply orb_true_r.
Qed.

Lemma endswith_inv (s suf : string) :
  endswith s suf = true -> exists p, s = (p ++ suf)%string.
Proof.
  induction s as [|c s IH]; cbn [endswith]; intros H.
  - rewrite orb_false_r in H. apply String.eqb_eq in H. subst.
    exists EmptyString. reflexivity.
  - apply orb_true_iff in H. destruct H as [H | H].
    + apply String.eqb_eq in H. exists EmptyString. now rewrite H.
    + destruct (IH H) as [p ->]. exists (String c p). reflexivity.
Qed.

Lemma last_byte_app (p s : string) :
  s <> EmptyString -> last_byte (p ++ s)%string = last_byte s.
Proof.
  intros Hs. induction p as [|c p IH]; simpl; [reflexivity|].
  rewrite IH. destruct (p ++ s)%string eqn:E; [|reflexivity].
  destruct p; simpl in E; [congruence | discriminate].
Qed.

Lemma endswith_last_byte (s suf : string) :
  suf <> EmptyString -> endswith s suf = true ->
  last_byte s = last_byte suf.
Proof.
  intros Hs H. destruct (endswith_inv _ _ H) as [p ->].
  now apply last_byte_app.
Qed.

Lemma prefix_app (a b : string) : prefix a (a ++ b)%string = true.
Proof.
  induction a as [|c a IH]; simpl.
  - destruct b; reflexivity.
  - destruct (ascii_dec c c); [assumption | congruence].
Qed.

Lemma contains_app_l (y s : string) : contains y (y ++ s)%string = true.
Proof.
  destruct y; simpl.
  - destruct s; reflexivity.
  - destruct (ascii_dec a a); [|congruence].
    rewrite prefix_app. reflexivity.
Qed.

Lemma contains_app_r (y p s : string) :
  contains y s = true -> contains y (p ++ s)%string = true.
Proof.
  intros H. induction p as [|c p IH]; [assumption|].
  change (String c p ++ s)%string with (String c (p ++ s)%string).
  cbn [contains]. rewrite IH. apply orb_true_r.
Qed.

Lemma contains_app_mid (y s t : string) :
  contains y ((y ++ s) ++ t)%string = true.
Proof.
  replace ((y ++ s) ++ t)%string with (y ++ (s ++ t))%string.
  - apply contains_app_l.
  - induction y; simpl; congruence.
Qed.

Lemma string_length_app (a b : string) :
  String.length (a ++ b)%string = String.length a + String.length b.
Proof. induction a; simpl; congruence. Qed.

Lemma string_app_inv_tail (a b s : string) :
  (a ++ s)%string = (b ++ s)%string -> a = b.
Proof.
  revert b. induction a as [|c a IH]; intros b H.
  - destruct b as [|d b]; [reflexivity|].
    apply (f_equal String.length) in H. simpl in H.
    rewrite string_length_app in H. simpl in H. lia.
  - destruct b as [|d b].
    + apply (f_equal String.length) in H. simpl in H.
      rewrite string_length_app in H. simpl in H. lia.
    + simpl in H. injection H as -> H. f_equal. now apply IH.
Qed.

End StringFacts.

Section MetricNames.

Lemma year_suffixes_metric (y cur s : string) :
  In s (year_suffixes y cur) -> In s metric_suffixes.
Proof.
  unfold year_suffixes, metric_suffixes.
  destruct (y =? cur)%string; simpl; tauto.
Qed.

Lemma yearly_suffixes_applicable (y cur s : string) :
  In s yearly_suffixes -> In s (year_suffixes y cur).
Proof.
  unfold year_suffixes, yearly_suffixes.
  destruct (y =? cur)%string; simpl; tauto.
Qed.

Lemma metric_suffix_last_byte (s s' : string) :
  In s metric_suffixes -> In s' metric_suffixes ->
  last_byte s = last_byte s' -> s = s'.
Proof.
  unfold metric_suffixes. simpl.
  intros [<-|[<-|[<-|[<-|[]]]]] [<-|[<-|[<-|[<-|[]]]]] H;
    solve [reflexivity | discriminate H].
Qed.

Lemma metric_suffix_nonempty (s : string) :
  In s metric_suffixes -> s <> EmptyString.
Proof.
  unfold metric_suffixes. simpl.
  intros [<-|[<-|[<-|[<-|[]]]]]; discriminate.
Qed.

(** A metric column name splits in one way into year and suffix. *)
Lemma metric_name_inj (y y' s s' : string) :
  In s metric_suffixes -> In s' metric_suffixes ->
  (y ++ s)%string = (y' ++ s')%string -> y = y' /\ s = s'.
Proof.
  intros Hs Hs' E.
  assert (s = s') as <-.
  { apply metric_suffix_last_byte; try assumption.
    rewrite <- (last_byte_app y s), <- (last_byte_app y' s'), E;
      auto using metric_suffix_nonempty. }
  split; [|reflexivity]. eapply string_app_inv_tail; eassumption.
Qed.

Lemma metric_name_not_past (y s : string) :
  In s metric_suffixes -> endswith (y ++ s)%string "_past" = false.
Proof.
  intros Hs. destruct (endswith (y ++ s)%string "_past") eqn:E; [|reflexivity].
  apply endswith_last_byte in E; [|discriminate].
  rewrite last_byte_app in E by auto using metric_suffix_nonempty.
  revert Hs E. unfold metric_suffixes. simpl.
  intros [<-|[<-|[<-|[<-|[]]]]]; discriminate.
Qed.

Lemma metric_name_not_past_name (y s c : string) :
  In s metric_suffixes -> (y ++ s)%string <> (c ++ "_past")%string.
Proof.
  intros Hs E. pose proof (metric_name_not_past y s Hs) as H.
  rewrite E, endswith_app in H. discriminate.
Qed.

End MetricNames.

(** ** Frames *)

Section FrameFacts.

Lemma mem_In (c : string) (l : list string) : mem c l = true <-> In c l.
Proof.
  unfold mem. rewrite existsb_exists. split.
  - intros [x [Hx E]]. apply String.eqb_eq in E. now subst.
  - intros H. exists c. split; [assumption | apply String.eqb_refl].
Qed.

Lemma mem_false (c : string) (l : list string) :
  mem c l = false <-> ~ In c l.
Proof.
  rewrite <- mem_In. destruct (mem c l); split; congruence.
Qed.

Lemma nodupb_NoDup (l : list string) : nodupb l = true <-> NoDup l.
Proof.
  induction l as [|x l IH]; simpl.
  - split; [constructor | reflexivity].
  - rewrite andb_true_iff, negb_true_iff, mem_false, IH. split.
    + intros [H1 H2]. now constructor.
    + intros H. inversion H. auto.
Qed.

Lemma has_column_get (c : string) (df : DataFrame) :
  has_column c df = true <-> exists s, get_column c df = Some s.
Proof.
  unfold has_column, mem, columns.
  induction df as [|[c' s'] df IH]; simpl.
  - split; [discriminate | intros [s H]; discriminate].
  - rewrite (String.eqb_sym c c'). destruct (c' =? c)%string; simpl.
    + split; [eauto | reflexivity].
    + exact IH.
Qed.

Lemma has_column_none (c : string) (df : DataFrame) :
  has_column c df = false <-> get_column c df = None.
Proof.
  destruct (has_column c df) eqn:Hc.
  - apply has_column_get in Hc as [s Hs]. rewrite Hs. split; discriminate.
  - destruct (get_column c df) eqn:E; [|split; reflexivity].
    assert (has_column c df = true) by (apply has_column_get; eauto).
    congruence.
Qed.

Lemma has_column_In (c : string) (df : DataFrame) :
  has_column c df = true <-> In c (columns df).
Proof. apply mem_In. Qed.

Lemma get_with_column_same (c : string) (s : Series) (df : DataFrame) :
  get_column c (with_column c s df) = Some s.
Proof.
  induction df as [|[c' s'] df IH]; simpl.
  - now rewrite String.eqb_refl.
  - destruct (c' =? c)%string eqn:E; simpl.
    + now rewrite String.eqb_refl.
    + now rewrite E.
Qed.

Lemma get_with_column_other (c c' : string) (s : Series) (df : DataFrame) :
  c <> c' -> get_column c' (with_column c s df) = get_column c' df.
Proof.
  intros Hne. induction df as [|[c0 s0] df IH]; simpl.
  - apply String.eqb_neq in Hne. now rewrite Hne.
  - destruct (c0 =? c)%string eqn:E; simpl.
    + apply String.eqb_eq in E. subst c0.
      apply String.eqb_neq in Hne. now rewrite Hne.
    + destruct (c0 =? c')%string; [reflexivity | assumption].
Qed.

Lemma has_with_column (c c' : string) (s : Series) (df : DataFrame) :
  has_column c' df = true -> has_column c' (with_column c s df) = true.
Proof.
  intros H. apply has_column_get.
  destruct (string_dec c c') as [->|Hne].
  - rewrite get_with_column_same. eauto.
  - rewrite get_with_column_other by assumption. now apply has_column_get.
Qed.

Lemma has_with_column_same (c : string) (s : Series) (df : DataFrame) :
  has_column c (with_column c s df) = true.
Proof. apply has_column_get. rewrite get_with_column_same. eauto. Qed.

Lemma get_drop_other (c c' : string) (df : DataFrame) :
  c <> c' -> get_column c' (drop c df) = get_column c' df.
Proof.
  intros Hne. unfold drop. induction df as [|[c0 s0] df IH]; simpl.
  - reflexivity.
  - destruct (c0 =? c)%string eqn:E; simpl.
    + apply String.eqb_eq in E. subst c0.
      apply String.eqb_neq in Hne. now rewrite Hne.
    + rewrite IH. reflexivity.
Qed.

Lemma fold_left_preserves {A B : Type} (f : A -> B -> A) (P : A -> Prop)
  (l : list B) :
  (forall a b, In b l -> P a -> P (f a b)) ->
  forall a, P a -> P (fold_left f l a).
Proof.
  induction l as [|b l IH]; simpl; intros Hf a Ha; [assumption|].
  apply IH; auto.
Qed.

Lemma fold_left_establishes {A B : Type} (f : A -> B -> A)
  (P Q : A -> Prop) (x : B) (l : list B) :
  (forall a b, In b l -> P a -> P (f a b)) ->
  (forall a b, In b l -> Q a -> Q (f a b)) ->
  (forall a, P a -> Q (f a x)) ->
  In x l ->
  forall a, P a -> Q (fold_left f l a).
Proof.
  induction l as [|b l IH]; simpl; intros HP HQ Hx Hin a Ha; [contradiction|].
  destruct Hin as [-> | Hin].
  - apply fold_left_preserves; auto.
  - apply IH; auto.
Qed.

End FrameFacts.

(** ** Null reconciliation, step by step *)

Section Reconciliation.

Variable years : list string.
Variable cur : string.

Lemma year_loop_preserves step (P : DataFrame -> Prop) :
  (forall y s d, In y years -> In s (year_suffixes y cur) ->
                 P d -> P (step cur y d s)) ->
  forall df, P df -> P (year_loop years cur step df).
Proof.
  intros Hstep. unfold year_loop. apply fold_left_preserves.
  intros d y Hy Hd. revert d Hd. apply fold_left_preserves.
  intros d s Hs Hd. now apply Hstep.
Qed.

Lemma year_loop_establishes step (P Q : DataFrame -> Prop) (y s : string) :
  (forall y' s' d, In y' years -> In s' (year_suffixes y' cur) ->
                   P d -> P (step cur y' d s')) ->
  (forall y' s' d, In y' years -> In s' (year_suffixes y' cur) ->
                   Q d -> Q (step cur y' d s')) ->
  (forall d, P d -> Q (step cur y d s)) ->
  In y years -> In s (year_suffixes y cur) ->
  forall df, P df -> Q (year_loop years cur step df).
Proof.
  intros HP HQ Hat Hy Hs. unfold year_loop.
  apply fold_left_establishes with (P := P) (x := y); try assumption.
  - intros d y' Hy' Hd. revert d Hd. apply fold_left_preserves.
    intros d s' Hs' Hd. now apply HP.
  - intros d y' Hy' Hd. revert d Hd. apply fold_left_preserves.
    intros d s' Hs' Hd. now apply HQ.
  - intros d Hd. revert d Hd.
    apply fold_left_establishes with (P := P) (x := s); try assumption.
    + intros d s' Hs' Hd. now apply HP.
    + intros d s' Hs' Hd. now apply HQ.
Qed.

(** *** Which columns a step can write *)

Lemma fill_id_column_other (X past_col : string) (df : DataFrame) :
  existsb (fun year => contains year X) years = true ->
  get_column X (fill_id_column years df past_col) = get_column X df.
Proof.
  intros HX. unfold fill_id_column.
  destruct (existsb _ years) eqn:E at 1; simpl; [reflexivity|].
  assert (replace "_past" "" past_col <> X) as Hne.
  { intros Heq. rewrite Heq in E. congruence. }
  destruct (get_column past_col df); [|reflexivity].
  destruct (get_column _ df); now apply get_with_column_other.
Qed.

Lemma fix_year_column_other (X y s : string) (df : DataFrame) :
  (y ++ s)%string <> X ->
  get_column X (fix_year_column cur y df s) = get_column X df.
Proof.
  intros Hne. unfold fix_year_column.
  destruct (y =? cur)%string.
  - destruct (has_column _ df); [reflexivity|].
    now apply get_with_column_other.
  - destruct (get_column ((y ++ s) ++ "_past") df).
    + destruct (get_column (y ++ s) df); now apply get_with_column_other.
    + destruct (has_column _ df); [reflexivity|].
      now apply get_with_column_other.
Qed.

Lemma fix_year_column_2Q_other (X y s : string) (df : DataFrame) :
  (y ++ s)%string <> X ->
  get_column X (Script2Q.fix_year_column cur y df s) = get_column X df.
Proof.
  intros Hne. unfold Script2Q.fix_year_column.
  destruct (y =? cur)%string.
  - destruct (has_column _ df); [reflexivity|].
    now apply get_with_column_other.
  - destruct (get_column ((y ++ s) ++ "_past") df).
    + now apply get_with_column_other.
    + destruct (has_column _ df); [reflexivity|].
      now apply get_with_column_other.
Qed.

Lemma past_columns_endswith (p : string) (df : DataFrame) :
  In p (past_columns df) -> endswith p "_past" = true.
Proof. unfold past_columns. intros H. now apply filter_In in H. Qed.

Lemma drop_past_column_other (X p : string) (df : DataFrame) :
  endswith X "_past" = false -> endswith p "_past" = true ->
  get_column X (drop_past_column df p) = get_column X df.
Proof.
  intros HX Hp. unfold drop_past_column.
  destruct (has_column p df); [|reflexivity].
  apply get_drop_other. congruence.
Qed.

Lemma drop_loop_other (X : string) (df0 df : DataFrame) :
  endswith X "_past" = false ->
  get_column X (fold_left drop_past_column (past_columns df0) df)
  = get_column X df.
Proof.
  intros HX.
  apply (fold_left_preserves drop_past_column
           (fun d => get_column X d = get_column X df)); [|reflexivity].
  intros d p Hp Hd. rewrite <- Hd.
  apply drop_past_column_other; [assumption|].
  eapply past_columns_endswith; eassumption.
Qed.

Lemma id_loop_other (X : string) (l : list string) (df : DataFrame) :
  existsb (fun year => contains year X) years = true ->
  get_column X (fold_left (fill_id_column years) l df) = get_column X df.
Proof.
  intros HX.
  apply (fold_left_preserves (fill_id_column years)
           (fun d => get_column X d = get_column X df)); [|reflexivity].
  intros d p _ Hd. rewrite <- Hd. now apply fill_id_column_other.
Qed.

Lemma contains_year (y s : string) :
  In y years ->
  existsb (fun year => contains year (y ++ s)%string) years = true.
Proof.
  intros Hy. apply existsb_exists. exists y.
  split; [assumption | apply contains_app_l].
Qed.

Lemma contains_year_past (y s : string) :
  In y years ->
  existsb (fun year => contains year ((y ++ s) ++ "_past")%string) years
  = true.
Proof.
  intros Hy. apply existsb_exists. exists y.
  split; [assumption | apply contains_app_mid].
Qed.

(** *** Columns are never lost before the final drop *)

Lemma fill_id_column_has (c past_col : string) (df : DataFrame) :
  has_column c df = true ->
  has_column c (fill_id_column years df past_col) = true.
Proof.
  intros H. unfold fill_id_column.
  destruct (negb _); [|assumption].
  destruct (get_column past_col df); [|assumption].
  destruct (get_column (replace "_past" "" past_col) df);
    now apply has_with_column.
Qed.

Lemma fix_year_column_has (c y s : string) (df : DataFrame) :
  has_column c df = true ->
  has_column c (fix_year_column cur y df s) = true.
Proof.
  intros H. unfold fix_year_column.
  destruct (y =? cur)%string.
  - destruct (has_column (y ++ s) df); [assumption | now apply has_with_column].
  - destruct (get_column ((y ++ s) ++ "_past") df).
    + destruct (get_column (y ++ s) df); now apply has_with_column.
    + destruct (has_column (y ++ s) df); [assumption | now apply has_with_column].
Qed.

Lemma fix_year_column_creates (y s : string) (df : DataFrame) :
  has_column (y ++ s)%string (fix_year_column cur y df s) = true.
Proof.
  unfold fix_year_column.
  destruct (y =? cur)%string.
  - destruct (has_column (y ++ s) df) eqn:E;
      [assumption | apply has_with_column_same].
  - destruct (get_column ((y ++ s) ++ "_past") df).
    + destruct (get_column (y ++ s) df); apply has_with_column_same.
    + destruct (has_column (y ++ s) df) eqn:E;
        [assumption | apply has_with_column_same].
Qed.

Lemma fix_year_column_2Q_has (c y s : string) (df : DataFrame) :
  has_column c df = true ->
  has_column c (Script2Q.fix_year_column cur y df s) = true.
Proof.
  intros H. unfold Script2Q.fix_year_column.
  destruct (y =? cur)%string.
  - destruct (has_column (y ++ s) df); [assumption | now apply has_with_column].
  - destruct (get_column ((y ++ s) ++ "_past") df).
    + now apply has_with_column.
    + destruct (has_column (y ++ s) df); [assumption | now apply has_with_column].
Qed.

Lemma fix_year_column_2Q_creates (y s : string) (df : DataFrame) :
  has_column (y ++ s)%string (Script2Q.fix_year_column cur y df s) = true.
Proof.
  unfold Script2Q.fix_year_column.
  destruct (y =? cur)%string.
  - destruct (has_column (y ++ s) df) eqn:E;
      [assumption | apply has_with_column_same].
  - destruct (get_column ((y ++ s) ++ "_past") df).
    + apply has_with_column_same.
    + destruct (has_column (y ++ s) df) eqn:E;
        [assumption | apply has_with_column_same].
Qed.

Lemma drop_loop_has (X : string) (df0 df : DataFrame) :
  endswith X "_past" = false ->
  has_column X df = true ->
  has_column X (fold_left drop_past_column (past_columns df0) df) = true.
Proof.
  intros HX H. apply has_column_get. rewrite drop_loop_other by assumption.
  now apply has_column_get.
Qed.

(** Every expected column exists after reconciliation. *)
Lemma fix_full_join_nulls_complete (df : DataFrame) (y s : string) :
  In y years -> In s (year_suffixes y cur) ->
  has_column (y ++ s)%string (fix_full_join_nulls df years cur) = true.
Proof.
  intros Hy Hs. unfold fix_full_join_nulls.
  apply drop_loop_has.
  - apply metric_name_not_past. eapply year_suffixes_metric; eassumption.
  - apply (year_loop_establishes fix_year_column (fun _ => True)
             (fun d => has_column (y ++ s)%string d = true) y s);
      auto using fix_year_column_has, fix_year_column_creates.
Qed.

Lemma fix_full_join_nulls_2Q_complete (df : DataFrame) (y s : string) :
  In y years -> In s (year_suffixes y cur) ->
  has_column (y ++ s)%string (Script2Q._fix_full_join_nulls years cur df)
  = true.
Proof.
  intros Hy Hs. unfold Script2Q._fix_full_join_nulls.
  apply drop_loop_has.
  - apply metric_name_not_past. eapply year_suffixes_metric; eassumption.
  - apply (year_loop_establishes Script2Q.fix_year_column (fun _ => True)
             (fun d => has_column (y ++ s)%string d = true) y s);
      auto using fix_year_column_2Q_has, fix_year_column_2Q_creates.
Qed.

End Reconciliation.

(** ** What reconciliation does to one metric column *)

Section ColumnValues.

Variable years : list string.
Variable cur : string.

Lemma when_null_then_idem (c p : Series) :
  when_null_then (when_null_then c p) p = when_null_then c p.
Proof.
  revert p. induction c as [|x c IH]; intros p; simpl; [reflexivity|].
  rewrite IH. destruct x; simpl; try reflexivity.
  destruct (hd Null p); reflexivity.
Qed.

Lemma when_null_then_self (p : Series) : when_null_then p p = p.
Proof.
  induction p as [|q p IH]; simpl; [reflexivity|].
  rewrite IH. destruct q; reflexivity.
Qed.

Lemma when_null_then_nulls (c p : Series) :
  Forall (fun x => is_null x = true) c -> length c = length p ->
  when_null_then c p = p.
Proof.
  intros Hc. revert p.
  induction Hc as [|x c Hx Hc IH]; intros [|q p] Hlen; simpl in *;
    try reflexivity; try discriminate.
  rewrite Hx, IH by lia. reflexivity.
Qed.

(** Cell by cell, a null is filled and anything else is kept. *)
Lemma when_null_then_nth (c p : Series) (i : nat) :
  i < length c ->
  nth i (when_null_then c p) Null
  = if is_null (nth i c Null) then nth i p Null else nth i c Null.
Proof.
  revert p i. induction c as [|x c IH]; intros p i Hi; simpl in *; [lia|].
  destruct i as [|i].
  - destruct p; reflexivity.
  - rewrite IH by lia. destruct p; [destruct i|]; reflexivity.
Qed.

Lemma when_null_then_keeps (c p : Series) (i : nat) :
  is_null (nth i c Null) = false ->
  nth i (when_null_then c p) Null = nth i c Null.
Proof.
  intros H. destruct (Nat.lt_ge_cases i (length c)) as [Hi | Hi].
  - rewrite when_null_then_nth by assumption. now rewrite H.
  - rewrite (nth_overflow c) in H by assumption. discriminate.
Qed.

(** The current year's column goes through reconciliation unchanged. *)
Lemma current_year_column_kept (df : DataFrame) (s : string) (col : Series) :
  In cur years -> In s metric_suffixes ->
  get_column (cur ++ s)%string df = Some col ->
  get_column (cur ++ s)%string (fix_full_join_nulls df years cur) = Some col.
Proof.
  intros Hcur Hs Hcol. unfold fix_full_join_nulls.
  rewrite drop_loop_other by now apply metric_name_not_past.
  apply (year_loop_preserves years cur fix_year_column
           (fun d => get_column (cur ++ s)%string d = Some col)).
  - intros y s' d Hy Hs' Hd.
    destruct (string_dec (y ++ s')%string (cur ++ s)%string) as [E|Hne].
    + apply metric_name_inj in E as [-> ->];
        eauto using year_suffixes_metric.
      unfold fix_year_column. rewrite String.eqb_refl.
      assert (has_column (cur ++ s)%string d = true) as ->
          by (apply has_column_get; eauto).
      assumption.
    + rewrite fix_year_column_other; assumption.
  - rewrite id_loop_other; [assumption | now apply contains_year].
Qed.

Lemma current_year_column_kept_2Q (df : DataFrame) (s : string)
  (col : Series) :
  In cur years -> In s metric_suffixes ->
  get_column (cur ++ s)%string df = Some col ->
  get_column (cur ++ s)%string (Script2Q._fix_full_join_nulls years cur df)
  = Some col.
Proof.
  intros Hcur Hs Hcol. unfold Script2Q._fix_full_join_nulls.
  rewrite drop_loop_other by now apply metric_name_not_past.
  apply (year_loop_preserves years cur Script2Q.fix_year_column
           (fun d => get_column (cur ++ s)%string d = Some col)).
  - intros y s' d Hy Hs' Hd.
    destruct (string_dec (y ++ s')%string (cur ++ s)%string) as [E|Hne].
    + apply metric_name_inj in E as [-> ->];
        eauto using year_suffixes_metric.
      unfold Script2Q.fix_year_column. rewrite String.eqb_refl.
      assert (has_column (cur ++ s)%string d = true) as ->
          by (apply has_column_get; eauto).
      assumption.
    + rewrite fix_year_column_2Q_other; assumption.
  - rewrite id_loop_other; [assumption | now apply contains_year].
Qed.

(** A prior year's column [y ++ s] and its shadow, through the year loop
    of the protective script: the shadow is never written, and the column
    ends as [final] once its own step, which maps every admissible state
    to [final], has run. *)
Lemma prior_year_protective (df : DataFrame) (y s : string)
  (p final : Series) (start : option Series) :
  In y years -> y <> cur -> In s yearly_suffixes ->
  get_column ((y ++ s) ++ "_past")%string df = Some p ->
  get_column (y ++ s)%string df = start ->
  match start with
  | Some c => when_null_then c p = final
  | None => p = final
  end ->
  when_null_then final p = final ->
  get_column (y ++ s)%string (fix_full_join_nulls df years cur) = Some final.
Proof.
  intros Hy Hne Hs Hp Hstart Hfinal Hidem.
  assert (In s metric_suffixes) as Hm
      by (apply (year_suffixes_metric y cur), yearly_suffixes_applicable, Hs).
  assert (In s (year_suffixes y cur)) as Hs'
      by now apply yearly_suffixes_applicable.
  set (X := (y ++ s)%string) in *.
  set (P := fun d => get_column (X ++ "_past")%string d = Some p /\
                     (get_column X d = start \/ get_column X d = Some final)).
  set (Q := fun d => get_column (X ++ "_past")%string d = Some p /\
                     get_column X d = Some final).
  assert (Hstep : forall y' s' d, In y' years ->
                    In s' (year_suffixes y' cur) ->
                    (y' ++ s')%string <> X ->
                    get_column (X ++ "_past")%string
                               (fix_year_column cur y' d s')
                    = get_column (X ++ "_past")%string d /\
                    get_column X (fix_year_column cur y' d s')
                    = get_column X d).
  { intros y' s' d _ Hs'' HneX. split.
    - apply fix_year_column_other.
      apply metric_name_not_past_name.
      eapply year_suffixes_metric; eassumption.
    - now apply fix_year_column_other. }
  assert (Hat : forall d, P d -> Q (fix_year_column cur y d s)).
  { intros d [Hp' HX]. split.
    - rewrite fix_year_column_other; [assumption|].
      now apply metric_name_not_past_name.
    - unfold fix_year_column. fold X.
      apply String.eqb_neq in Hne. rewrite Hne, Hp'.
      destruct HX as [HX | HX]; rewrite HX.
      + destruct start as [c|]; rewrite get_with_column_same; congruence.
      + rewrite get_with_column_same. congruence. }
  unfold fix_full_join_nulls.
  rewrite drop_loop_other by now apply metric_name_not_past.
  apply (year_loop_establishes years cur fix_year_column P Q y s);
    try assumption.
  - intros y' s' d Hy' Hs'' HP.
    destruct (string_dec (y' ++ s')%string X) as [E|HneX].
    + apply metric_name_inj in E as [-> ->];
        eauto using year_suffixes_metric.
      destruct (Hat d HP) as [H1 H2]. split; auto.
    + destruct (Hstep y' s' d Hy' Hs'' HneX) as [E1 E2].
      unfold P, Q in *. rewrite E1, E2. assumption.
  - intros y' s' d Hy' Hs'' HQ.
    destruct (string_dec (y' ++ s')%string X) as [E|HneX].
    + apply metric_name_inj in E as [-> ->];
        eauto using year_suffixes_metric.
      apply Hat. destruct HQ as [H1 H2]. split; auto.
    + destruct (Hstep y' s' d Hy' Hs'' HneX) as [E1 E2].
      unfold P, Q in *. rewrite E1, E2. assumption.
  - split.
    + rewrite id_loop_other; [assumption | now apply contains_year_past].
    + left. rewrite id_loop_other; [assumption | now apply contains_year].
Qed.

(** The same column in the other script: it is the shadow, whatever was
    there. *)
Lemma prior_year_authoritative (df : DataFrame) (y s : string) (p : Series) :
  In y years -> y <> cur -> In s yearly_suffixes ->
  get_column ((y ++ s) ++ "_past")%string df = Some p ->
  get_column (y ++ s)%string (Script2Q._fix_full_join_nulls years cur df)
  = Some p.
Proof.
  intros Hy Hne Hs Hp.
  assert (In s metric_suffixes) as Hm
      by (apply (year_suffixes_metric y cur), yearly_suffixes_applicable, Hs).
  assert (In s (year_suffixes y cur)) as Hs'
      by now apply yearly_suffixes_applicable.
  set (X := (y ++ s)%string) in *.
  set (P := fun d => get_column (X ++ "_past")%string d = Some p).
  set (Q := fun d => get_column (X ++ "_past")%string d = Some p /\
                     get_column X d = Some p).
  assert (Hpast : forall y' s' d, In s' (year_suffixes y' cur) ->
                    get_column (X ++ "_past")%string
                               (Script2Q.fix_year_column cur y' d s')
                    = get_column (X ++ "_past")%string d).
  { intros y' s' d Hs''. apply fix_year_column_2Q_other.
    apply metric_name_not_past_name.
    eapply year_suffixes_metric; eassumption. }
  assert (Hat : forall d, P d -> Q (Script2Q.fix_year_column cur y d s)).
  { intros d Hp'. split.
    - rewrite Hpast; assumption.
    - unfold Script2Q.fix_year_column. fold X.
      apply String.eqb_neq in Hne. rewrite Hne.
      unfold P in Hp'. rewrite Hp'. apply get_with_column_same. }
  unfold Script2Q._fix_full_join_nulls.
  rewrite drop_loop_other by now apply metric_name_not_past.
  apply (year_loop_establishes years cur Script2Q.fix_year_column P Q y s);
    try assumption.
  - intros y' s' d Hy' Hs'' HP. unfold P. rewrite Hpast; assumption.
  - intros y' s' d Hy' Hs'' [H1 H2].
    destruct (string_dec (y' ++ s')%string X) as [E|HneX].
    + apply metric_name_inj in E as [-> ->];
        eauto using year_suffixes_metric.
    + split; [rewrite Hpast; assumption|].
      rewrite fix_year_column_2Q_other; assumption.
  - unfold P.
    rewrite id_loop_other; [assumption | now apply contains_year_past].
Qed.

End ColumnValues.

(** ** Suffixing and joining *)

Section JoinFacts.



Lemma get_column_In (c : string) (v : Series) (df : DataFrame) :
  get_column c df = Some v -> In (c, v) df.
Proof.
  induction df as [|[c' s'] df IH]; simpl; [discriminate|].
  destruct (c' =? c)%string eqn:E.
  - apply String.eqb_eq in E. intros [= ->]. left. now subst.
  - auto.
Qed.

Lemma get_column_NoDup (c : string) (v : Series) (df : DataFrame) :
  NoDup (columns df) -> In (c, v) df -> get_column c df = Some v.
Proof.
  unfold columns. induction df as [|[c' s'] df IH]; simpl; [contradiction|].
  intros Hnd [H | H].
  - injection H as -> ->. now rewrite String.eqb_refl.
  - inversion Hnd as [|? ? Hnotin Hnd']; subst.
    destruct (c' =? c)%string eqn:E; [|auto].
    apply String.eqb_eq in E. subst c'. exfalso. apply Hnotin.
    change c with (fst (c, v)). now apply in_map.
Qed.

Lemma assoc_suffix_mapping (f : string -> string) (g : string -> bool)
  (l : list string) (c : string) :
  assoc c (map (fun col => (col, f col)) (filter g l))
  = if g c && mem c l then Some (f c) else None.
Proof.
  induction l as [|x l IH]; simpl.
  - now rewrite andb_false_r.
  - rewrite (String.eqb_sym c x).
    destruct (g x) eqn:Gx; simpl; destruct (x =? c)%string eqn:E; simpl.
    + apply String.eqb_eq in E. subst x. now rewrite Gx.
    + exact IH.
    + apply String.eqb_eq in E. subst x. rewrite IH, Gx. reflexivity.
    + exact IH.
Qed.

Lemma suffixed_names_NoDup (keys : list string) (l : list string) :
  Forall (fun k => endswith k "_past" = false) keys ->
  NoDup l -> NoDup (map (suffixed_name (protected_keys ++ keys)) l).
Proof.
  intros Hk. apply NoDup_map_NoDup_ForallPairs. intros x y _ _.
  assert (Hprot : forall c, mem c (protected_keys ++ keys) = true ->
                            endswith c "_past" = false).
  { intros c Hc. apply mem_In, in_app_or in Hc. destruct Hc as [Hc | Hc].
    - unfold protected_keys in Hc. simpl in Hc.
      repeat (destruct Hc as [<- | Hc]; [reflexivity|]). contradiction.
    - rewrite Forall_forall in Hk. now apply Hk. }
  unfold suffixed_name.
  destruct (mem x _) eqn:Ex, (mem y _) eqn:Ey; intros E.
  - assumption.
  - apply Hprot in Ex. rewrite E, endswith_app in Ex. discriminate.
  - apply Hprot in Ey. rewrite <- E, endswith_app in Ey. discriminate.
  - eapply string_app_inv_tail; eassumption.
Qed.

Lemma columns_map_names (f : string -> string) (df : DataFrame) :
  columns (map (fun p => (f (fst p), snd p)) df) = map f (columns df).
Proof. unfold columns. rewrite !map_map. reflexivity. Qed.

(** Suffixing succeeds on a well-formed table and yields this table. *)
Lemma add_past_suffix_spec (df : DataFrame) (keys : list string) :
  NoDup (columns df) ->
  Forall (fun k => endswith k "_past" = false) keys ->
  add_past_suffix df keys
  = Some (if is_empty df then df
          else map (fun p => (suffixed_name (protected_keys ++ keys) (fst p),
                              snd p)) df).
Proof.
  intros Hnd Hk. unfold add_past_suffix.
  destruct (is_empty df); [reflexivity|].
  set (prot := protected_keys ++ keys).
  set (g := fun col => negb (mem col prot)).
  set (mapping := map (fun col => (col, (col ++ "_past")%string))
                      (filter g (columns df))).
  assert (Hmap : map (fun p => (match assoc (fst p) mapping with
                                | Some c' => c'
                                | None => fst p
                                end, snd p)) df
                 = map (fun p => (suffixed_name prot (fst p), snd p)) df).
  { apply map_ext_in. intros [c v] Hin. simpl. f_equal.
    unfold mapping. rewrite assoc_suffix_mapping.
    assert (mem c (columns df) = true) as ->.
    { apply mem_In. change c with (fst (c, v)). now apply in_map. }
    unfold suffixed_name, g. destruct (mem c prot); reflexivity. }
  assert (Hren : rename mapping df
                 = Some (map (fun p => (suffixed_name prot (fst p), snd p))
                             df)).
  { unfold rename.
    assert (forallb (fun kv => has_column (fst kv) df) mapping = true) as ->.
    { apply forallb_forall. intros [k v] Hin. unfold mapping in Hin.
      apply in_map_iff in Hin as [col [[= <- <-] Hcol]].
      apply filter_In in Hcol as [Hcol _]. now apply mem_In. }
    rewrite Hmap, columns_map_names.
    assert (nodupb (map (suffixed_name prot) (columns df)) = true) as ->.
    { apply nodupb_NoDup. now apply suffixed_names_NoDup. }
    reflexivity. }
  clearbody mapping. destruct mapping as [|m0 mapping']; [|exact Hren].
  f_equal. rewrite <- Hmap. simpl.
  rewrite <- (map_id df) at 1. apply map_ext. now intros [c v].
Qed.

Lemma add_past_suffix_2Q_spec (df : DataFrame) (keys : list string) :
  NoDup (columns df) ->
  Script2Q._add_past_suffix df keys
  = Some (map (fun p => ((fst p ++ "_past")%string, snd p)) df).
Proof.
  intros Hnd. unfold Script2Q._add_past_suffix.
  set (mapping := map (fun col => (col, (col ++ "_past")%string))
                      (columns df)).
  assert (Hmap : map (fun p => (match assoc (fst p) mapping with
                                | Some c' => c'
                                | None => fst p
                                end, snd p)) df
                 = map (fun p => ((fst p ++ "_past")%string, snd p)) df).
  { apply map_ext_in. intros [c v] Hin. simpl. f_equal.
    unfold mapping.
    rewrite <- (forallb_filter_id (fun _ => true) (columns df))
      by (apply forallb_forall; reflexivity).
    rewrite assoc_suffix_mapping. simpl.
    assert (mem c (columns df) = true) as ->.
    { apply mem_In. change c with (fst (c, v)). now apply in_map. }
    reflexivity. }
  assert (Hren : rename mapping df
                 = Some (map (fun p => ((fst p ++ "_past")%string, snd p))
                             df)).
  { unfold rename.
    assert (forallb (fun kv => has_column (fst kv) df) mapping = true) as ->.
    { apply forallb_forall. intros [k v] Hin. unfold mapping in Hin.
      apply in_map_iff in Hin as [col [[= <- <-] Hcol]].
      now apply mem_In. }
    rewrite Hmap.
    rewrite (columns_map_names (fun c => (c ++ "_past")%string)).
    assert (nodupb (map (fun c => (c ++ "_past")%string) (columns df)) = true)
      as ->.
    { apply nodupb_NoDup. apply NoDup_map_NoDup_ForallPairs; [|assumption].
      intros x y _ _ E. eapply string_app_inv_tail; eassumption. }
    reflexivity. }
  clearbody mapping. destruct mapping as [|m0 mapping']; [|exact Hren].
  f_equal. rewrite <- Hmap. simpl.
  rewrite <- (map_id df) at 1. apply map_ext. now intros [c v].
Qed.

End JoinFacts.

(** ** Totals across a full join *)

Section JoinTotals.

Lemma cell_eqb_eq (a b : cell) : cell_eqb a b = true <-> a = b.
Proof.
  destruct a, b; simpl; split; intros H; try discriminate;
    try reflexivity.
  - apply Z.eqb_eq in H. now subst.
  - injection H as ->. apply Z.eqb_refl.
  - apply String.eqb_eq in H. now subst.
  - injection H as ->. apply String.eqb_refl.
Qed.

(** Two left rows that join the same right row carry the same key. *)
Lemma keys_match_common (k1 k1' k2 : list cell) :
  keys_match k1 k2 = true -> keys_match k1' k2 = true ->
  keys_match k1 k1' = true.
Proof.
  revert k1' k2. induction k1 as [|a k1 IH]; intros [|a' k1'] [|b k2];
    simpl; try discriminate; try reflexivity.
  intros H H'.
  apply andb_true_iff in H as [H Hr]. apply andb_true_iff in H as [Hn He].
  apply andb_true_iff in H' as [H' Hr'].
  apply andb_true_iff in H' as [Hn' He'].
  apply cell_eqb_eq in He, He'. subst.
  rewrite Hn. simpl. rewrite (IH _ _ Hr Hr').
  assert (cell_eqb b b = true) as -> by now apply cell_eqb_eq.
  reflexivity.
Qed.

Lemma zsum_app {A : Type} (f : A -> Z) (l1 l2 : list A) :
  zsum f (l1 ++ l2) = (zsum f l1 + zsum f l2)%Z.
Proof. induction l1; simpl; lia. Qed.

Lemma zsum_plus {A : Type} (f g : A -> Z) (l : list A) :
  zsum (fun x => (f x + g x)%Z) l = (zsum f l + zsum g l)%Z.
Proof. induction l; simpl; lia. Qed.

Lemma zsum_ext {A : Type} (f g : A -> Z) (l : list A) :
  (forall x, In x l -> f x = g x) -> zsum f l = zsum g l.
Proof.
  induction l; simpl; intros H; [reflexivity|].
  rewrite H, IHl; auto.
Qed.

Lemma zsum_zero {A : Type} (f : A -> Z) (l : list A) :
  (forall x, In x l -> f x = 0%Z) -> zsum f l = 0%Z.
Proof.
  induction l; simpl; intros H; [reflexivity|].
  rewrite H, IHl; auto.
Qed.

Lemma zsum_flat_map {A B : Type} (f : B -> Z) (F : A -> list B)
  (l : list A) :
  zsum f (flat_map F l) = zsum (fun x => zsum f (F x)) l.
Proof. induction l; simpl; [reflexivity|]. rewrite zsum_app. lia. Qed.

Lemma zsum_map {A B : Type} (f : B -> Z) (g : A -> B) (l : list A) :
  zsum f (map g l) = zsum (fun x => f (g x)) l.
Proof. induction l; simpl; congruence. Qed.

Lemma sum_zsum (s : Series) : sum s = zsum cell_value s.
Proof. reflexivity. Qed.

Lemma wrap_int64_add (a b : Z) :
  wrap_int64 (a + wrap_int64 b) = wrap_int64 (a + b).
Proof.
  unfold wrap_int64. f_equal.
  replace (a + ((b + 2 ^ 63) mod 2 ^ 64 - 2 ^ 63) + 2 ^ 63)%Z
    with (a + (b + 2 ^ 63) mod 2 ^ 64)%Z by lia.
  rewrite Zplus_mod_idemp_r. f_equal. lia.
Qed.

(** The wrapping total is the exact total, wrapped once. *)
Lemma sum_int64_wrap (s : Series) : sum_int64 s = wrap_int64 (sum s).
Proof.
  induction s as [|x s IH]; [reflexivity|].
  change (sum_int64 (x :: s))
    with (wrap_int64 (cell_value x + sum_int64 s)).
  change (sum (x :: s)) with (cell_value x + sum s)%Z.
  now rewrite IH, wrap_int64_add.
Qed.

Lemma sum_take (v : Series) (ix : list (option nat)) :
  sum (take v ix) = zsum (taken_value v) ix.
Proof.
  unfold take. rewrite sum_zsum, zsum_map. apply zsum_ext.
  intros [j|] _; reflexivity.
Qed.

Lemma zsum_cons {A : Type} (f : A -> Z) (x : A) (l : list A) :
  zsum f (x :: l) = (f x + zsum f l)%Z.
Proof. reflexivity. Qed.

Lemma sum_seq (v : Series) :
  sum v = zsum (fun j => cell_value (nth j v Null)) (seq 0 (length v)).
Proof.
  induction v as [|x v IH]; [reflexivity|].
  change (length (x :: v)) with (S (length v)).
  change (seq 0 (S (length v))) with (0 :: seq 1 (length v)).
  rewrite <- seq_shift, zsum_cons, zsum_map.
  change (sum (x :: v)) with (cell_value x + sum v)%Z.
  rewrite IH. reflexivity.
Qed.

Variables (M : nat -> nat -> bool) (val : nat -> Z).

(** With at most one left row per right row, the matches of a right row
    add its value once or not at all. *)
Lemma zsum_matches_once (I : list nat) (j : nat) :
  NoDup I ->
  (forall i i', In i I -> In i' I -> M i j = true -> M i' j = true ->
                i = i') ->
  zsum (fun i => if M i j then val j else 0%Z) I
  = if existsb (fun i => M i j) I then val j else 0%Z.
Proof.
  induction I as [|i I IH]; intros Hnd Hone; simpl; [reflexivity|].
  inversion Hnd as [|? ? Hnotin Hnd']; subst.
  destruct (M i j) eqn:E; simpl.
  - rewrite zsum_zero; [lia|].
    intros i' Hi'. destruct (M i' j) eqn:E'; [|reflexivity].
    exfalso. apply Hnotin.
    rewrite (Hone i i'); simpl; auto.
  - apply IH; [assumption|]. intros; apply Hone; simpl; auto.
Qed.

Lemma zsum_matches_split (I J : list nat) :
  NoDup I ->
  (forall i i' j, In i I -> In i' I -> In j J ->
                  M i j = true -> M i' j = true -> i = i') ->
  (zsum (fun i => zsum val (filter (M i) J)) I
   + zsum (fun j => if existsb (fun i => M i j) I then 0 else val j) J)%Z
  = zsum val J.
Proof.
  intros Hnd Hone. induction J as [|j J IH].
  - simpl. rewrite zsum_zero; [reflexivity | reflexivity].
  - rewrite !(zsum_cons _ j J).
    assert (E : zsum (fun i => zsum val (filter (M i) (j :: J))) I
                = (zsum (fun i => if M i j then val j else 0%Z) I
                   + zsum (fun i => zsum val (filter (M i) J)) I)%Z).
    { rewrite <- zsum_plus. apply zsum_ext. intros i _. simpl.
      destruct (M i j); simpl; lia. }
    rewrite E, zsum_matches_once; [|assumption|].
    + rewrite <- IH by (intros; eapply Hone; simpl; eauto).
      destruct (existsb (fun i => M i j) I); lia.
    + intros; eapply Hone; simpl; eauto.
Qed.

End JoinTotals.

(** ** The full join, column by column *)

Section FullJoin.

Variables (a b : DataFrame) (on : list string) (j : DataFrame).
Hypothesis Hjoin : join_full a b on = Some j.

Lemma join_full_inv :
  exists lk rk,
    key_columns on a = Some lk /\ key_columns on b = Some rk /\
    NoDup (columns j) /\
    j = map (fun p => (fst p,
                       take (snd p)
                            (map fst (full_pairs lk rk (height a) (height b)))))
            a
        ++ map (fun p => (right_name "_right" a (fst p),
                          take (snd p)
                               (map snd (full_pairs lk rk (height a)
                                                    (height b)))))
               b.
Proof.
  unfold join_full in Hjoin. destruct on as [|k on']; [discriminate|].
  destruct (key_columns (k :: on') a) as [lk|]; [|discriminate].
  destruct (key_columns (k :: on') b) as [rk|]; [|discriminate].
  match type of Hjoin with
  | (if nodupb ?cs then _ else _) = _ => destruct (nodupb cs) eqn:Hnd
  end; [|discriminate].
  injection Hjoin as <-. exists lk, rk.
  repeat split; try reflexivity. now apply nodupb_NoDup.
Qed.

Lemma join_full_left_column (lk rk : list Series) (c : string) (v : Series) :
  key_columns on a = Some lk -> key_columns on b = Some rk ->
  get_column c a = Some v ->
  get_column c j
  = Some (take v (map fst (full_pairs lk rk (height a) (height b)))).
Proof.
  intros Hlk Hrk Hc.
  destruct join_full_inv as (lk' & rk' & Hlk' & Hrk' & Hnd & ->).
  rewrite Hlk in Hlk'. rewrite Hrk in Hrk'.
  injection Hlk' as <-. injection Hrk' as <-.
  apply get_column_NoDup; [assumption|].
  apply in_or_app. left. apply get_column_In in Hc.
  apply in_map_iff. exists (c, v). split; [reflexivity | assumption].
Qed.

Lemma join_full_right_column (lk rk : list Series) (c : string)
  (v : Series) :
  key_columns on a = Some lk -> key_columns on b = Some rk ->
  get_column c b = Some v -> has_column c a = false ->
  get_column c j
  = Some (take v (map snd (full_pairs lk rk (height a) (height b)))).
Proof.
  intros Hlk Hrk Hc Ha.
  destruct join_full_inv as (lk' & rk' & Hlk' & Hrk' & Hnd & ->).
  rewrite Hlk in Hlk'. rewrite Hrk in Hrk'.
  injection Hlk' as <-. injection Hrk' as <-.
  apply get_column_NoDup; [assumption|].
  apply in_or_app. right. apply get_column_In in Hc.
  apply in_map_iff. exists (c, v). split; [|assumption].
  unfold right_name. simpl. now rewrite Ha.
Qed.

(** A name that is on neither side, also after the [_right] renaming,
    is not a column of the join. *)
Lemma join_full_absent (c : string) :
  has_column c a = false ->
  (forall c', In c' (columns b) -> c' <> c /\ (c' ++ "_right")%string <> c) ->
  get_column c j = None.
Proof.
  intros Ha Hb. apply has_column_none.
  destruct (has_column c j) eqn:E; [|reflexivity]. exfalso.
  apply has_column_In in E.
  destruct join_full_inv as (lk & rk & _ & _ & _ & ->).
  unfold columns in E. rewrite map_app, !map_map in E. simpl in E.
  apply in_app_or in E as [E | E].
  - apply has_column_In in E. congruence.
  - apply in_map_iff in E as [[c' v] [E Hin]]. simpl in E.
    destruct (Hb c') as [H1 H2].
    + change c' with (fst (c', v)). now apply in_map.
    + unfold right_name in E. destruct (has_column c' a); congruence.
Qed.

End FullJoin.

Section FullJoinTotals.

Lemma unique_keys_inv (on : list string) (df : DataFrame)
  (lk : list Series) :
  unique_keys on df = true -> key_columns on df = Some lk ->
  forall i i', In i (seq 0 (height df)) -> In i' (seq 0 (height df)) ->
               keys_match (row_key lk i) (row_key lk i') = true -> i = i'.
Proof.
  unfold unique_keys. intros H Hlk. rewrite Hlk in H.
  intros i i' Hi Hi' Hm.
  rewrite forallb_forall in H. specialize (H i Hi).
  rewrite forallb_forall in H. specialize (H i' Hi').
  rewrite Hm in H. simpl in H. rewrite orb_false_r in H.
  now apply Nat.eqb_eq.
Qed.

(** Gathering a right-hand column through the pairs of a full join keeps
    its total when no two left rows share a key. *)
Lemma full_pairs_right_sum (lk rk : list Series) (n m : nat) (v : Series) :
  length v = m ->
  (forall i i', In i (seq 0 n) -> In i' (seq 0 n) ->
                keys_match (row_key lk i) (row_key lk i') = true -> i = i') ->
  sum (take v (map snd (full_pairs lk rk n m))) = sum v.
Proof.
  intros Hlen Huniq.
  set (M := fun i j => keys_match (row_key lk i) (row_key rk j)).
  set (val := fun j => cell_value (nth j v Null)).
  rewrite sum_take, zsum_map. unfold full_pairs.
  rewrite zsum_app, !zsum_flat_map.
  rewrite (zsum_ext _ (fun i => zsum val (filter (M i) (seq 0 m)))).
  2:{ intros i _. fold (M i).
      destruct (filter (M i) (seq 0 m)) as [|j0 js]; [reflexivity|].
      rewrite zsum_map. reflexivity. }
  rewrite (zsum_ext _ (fun j => if existsb (fun i => M i j) (seq 0 n)
                                then 0%Z else val j) (seq 0 m)).
  2:{ intros j _. change (fun i => keys_match (row_key lk i) (row_key rk j))
                    with (fun i => M i j).
      destruct (existsb (fun i => M i j) (seq 0 n)); simpl;
        [reflexivity | unfold val; lia]. }
  rewrite zsum_matches_split.
  - rewrite sum_seq, Hlen. reflexivity.
  - apply seq_NoDup.
  - intros i i' j Hi Hi' _ H H'. apply Huniq; try assumption.
    eapply keys_match_common; eassumption.
Qed.

Lemma take_nulls (v : Series) (ix : list (option nat)) :
  forallb is_null v = true ->
  Forall (fun x => is_null x = true) (take v ix).
Proof.
  intros Hv. unfold take. apply Forall_forall. intros x Hx.
  apply in_map_iff in Hx as [[i|] [<- _]]; [|reflexivity].
  destruct (nth_in_or_default i v Null) as [Hin | ->]; [|reflexivity].
  rewrite forallb_forall in Hv. now apply Hv.
Qed.

Lemma take_length (v : Series) (ix : list (option nat)) :
  length (take v ix) = length ix.
Proof. unfold take. apply length_map. Qed.

End FullJoinTotals.

(** ** One dimension: suffix, join, reconcile *)

Section OneDimension.

Lemma metric_name_not_protected (y s : string) :
  In s metric_suffixes -> ~ In (y ++ s)%string protected_keys.
Proof.
  intros Hs Hin.
  pose proof (last_byte_app y s (metric_suffix_nonempty s Hs)) as Hl.
  unfold protected_keys in Hin. simpl in Hin.
  repeat (destruct Hin as [E | Hin];
          [rewrite <- E in Hl; revert Hs Hl; unfold metric_suffixes; simpl;
           intros [<-|[<-|[<-|[<-|[]]]]]; discriminate|]).
  contradiction.
Qed.

Lemma metric_name_not_right (y s c : string) :
  In s metric_suffixes -> (c ++ "_right")%string <> (y ++ s)%string.
Proof.
  intros Hs E.
  pose proof (last_byte_app y s (metric_suffix_nonempty s Hs)) as Hl.
  rewrite <- E, last_byte_app in Hl by discriminate.
  revert Hs Hl. unfold metric_suffixes. simpl.
  intros [<-|[<-|[<-|[<-|[]]]]]; discriminate.
Qed.

Lemma protected_not_past (keys : list string) :
  incl keys protected_keys ->
  Forall (fun k => endswith k "_past" = false) keys.
Proof.
  intros Hincl. apply Forall_forall. intros k Hk. apply Hincl in Hk.
  unfold protected_keys in Hk. simpl in Hk.
  repeat (destruct Hk as [<- | Hk]; [reflexivity|]). contradiction.
Qed.

Lemma height_map_names (f : string -> string) (df : DataFrame) :
  height (map (fun p => (f (fst p), snd p)) df) = height df.
Proof. destruct df as [|[c v] df]; reflexivity. Qed.


Variables (a b b' j : DataFrame) (keys on years : list string).
Variables (cur y s : string) (v : Series).

Hypothesis Hnames : NoDup (columns b).
Hypothesis Hlengths : Forall (fun p => length (snd p) = height b) b.
Hypothesis Hrows : is_empty b = false.
Hypothesis Hkeys : incl keys protected_keys.
Hypothesis Hsuffix : add_past_suffix b keys = Some b'.
Hypothesis Hjoin : join_full a b' on = Some j.
Hypothesis Hy : In y years.
Hypothesis Hprior : y <> cur.
Hypothesis Hs : In s yearly_suffixes.
Hypothesis Hv : get_column (y ++ s)%string b = Some v.

Local Abbreviation X := (y ++ s)%string.

Lemma suffixed_shadow :
  get_column (X ++ "_past")%string b' = Some v
  /\ height b' = height b
  /\ (forall c', In c' (columns b') ->
                 c' <> X /\ (c' ++ "_right")%string <> X).
Proof.
  assert (In s metric_suffixes) as Hm
      by (apply (year_suffixes_metric y cur), yearly_suffixes_applicable, Hs).
  pose proof (add_past_suffix_spec b keys Hnames (protected_not_past _ Hkeys))
    as Hspec.
  rewrite Hsuffix, Hrows in Hspec.
  assert (Hb' : b' = map (fun p => (suffixed_name (protected_keys ++ keys)
                                                  (fst p), snd p)) b)
    by congruence.
  clear Hspec. rewrite Hb'.
  assert (Hnot : mem X (protected_keys ++ keys) = false).
  { apply mem_false. intros Hin. apply in_app_or in Hin.
    apply (metric_name_not_protected y s Hm).
    destruct Hin as [Hin | Hin]; [assumption | now apply Hkeys]. }
  split; [|split].
  - apply get_column_NoDup.
    + rewrite columns_map_names.
      apply suffixed_names_NoDup; [now apply protected_not_past | assumption].
    + apply get_column_In in Hv. apply in_map_iff. exists (X, v).
      split; [|assumption]. unfold suffixed_name. cbn [fst snd].
      now rewrite Hnot.
  - apply height_map_names.
  - intros c' Hc'. rewrite columns_map_names in Hc'.
    apply in_map_iff in Hc' as [c0 [<- _]]. split.
    + unfold suffixed_name. destruct (mem c0 _) eqn:E.
      * intros ->. congruence.
      * intros E'. symmetry in E'. revert E'.
        now apply metric_name_not_past_name.
    + now apply metric_name_not_right.
Qed.

Hypothesis Hunique : unique_keys on a = true.
Hypothesis Hno_new : no_new_values (y ++ s)%string a = true.
Hypothesis Hno_shadow : has_column ((y ++ s) ++ "_past")%string a = false.

(** The total of a prior year's column is the historical total. *)
Lemma one_dimension_conserves :
  column_sum (y ++ s)%string (fix_full_join_nulls j years cur)
  = Some (sum v).
Proof.
  destruct suffixed_shadow as (Hshadow & Hheight & Hfresh).
  destruct (join_full_inv a b' on j Hjoin) as (lk & rk & Hlk & Hrk & _ & _).
  set (pairs := full_pairs lk rk (height a) (height b')).
  set (p := take v (map snd pairs)).
  assert (Hp : get_column (X ++ "_past")%string j = Some p)
    by (eapply join_full_right_column; eassumption).
  assert (Hsum : sum p = sum v).
  { apply full_pairs_right_sum.
    - rewrite Hheight. apply get_column_In in Hv.
      rewrite Forall_forall in Hlengths. exact (Hlengths _ Hv).
    - eapply unique_keys_inv; eassumption. }
  unfold column_sum.
  assert (get_column X (fix_full_join_nulls j years cur) = Some p) as Hfix.
  { unfold no_new_values in Hno_new.
    destruct (get_column X a) as [c|] eqn:Ea.
    - apply (prior_year_protective years cur j y s p p
               (Some (take c (map fst pairs)))); try assumption.
      + eapply join_full_left_column; eassumption.
      + apply when_null_then_nulls; [now apply take_nulls|].
        unfold p. rewrite !take_length, !length_map. reflexivity.
      + apply when_null_then_self.
    - apply (prior_year_protective years cur j y s p p None);
        try assumption; [|reflexivity | apply when_null_then_self].
      eapply join_full_absent; [eassumption | | assumption].
      now apply has_column_none. }
  rewrite Hfix. simpl. now rewrite Hsum.
Qed.

End OneDimension.

(** ** The merge and the column order *)

Section MergeFacts.

Lemma applicable_suffix_iff (y cur s : string) :
  applicable_suffix y cur s <-> In s (year_suffixes y cur).
Proof.
  unfold applicable_suffix, year_suffixes, yearly_suffixes.
  destruct (y =? cur)%string eqn:E; simpl.
  - apply String.eqb_eq in E. intuition.
  - apply String.eqb_neq in E. intuition.
Qed.

(** The year list [main] builds holds the current year. *)
Lemma current_year_in_years (start_year end_year : Z) :
  (start_year <= end_year)%Z ->
  In (str end_year) (generate_years_list start_year end_year).
Proof.
  intros H. unfold generate_years_list. apply -> in_rev.
  apply in_map_iff. exists (Z.to_nat (end_year - start_year)). split.
  - f_equal. lia.
  - apply in_seq. lia.
Qed.

Lemma fix_full_join_nulls_is_complete (df : DataFrame)
  (years : list string) (cur : string) :
  complete years cur (fix_full_join_nulls df years cur).
Proof.
  intros y s Hy Hs. apply fix_full_join_nulls_complete; [assumption|].
  now apply applicable_suffix_iff.
Qed.

(** What a merge that went through the joins is made of. *)
Lemma merge_dataframes_inv
  (df1_a df1_b df2_a df2_b df3_a df3_b : DataFrame) (years : list string)
  (current_year : Z) (d1 d2 d3 : DataFrame) :
  is_empty df1_b = false ->
  merge_dataframes df1_a df1_b df2_a df2_b df3_a df3_b years current_year
  = Some (d1, d2, d3) ->
  exists b1 b2 b3 j1 j2 j3,
    add_past_suffix df1_b ["法人コード"] = Some b1 /\
    add_past_suffix df2_b ["得意先コード"; "得意先名"] = Some b2 /\
    add_past_suffix df3_b PRODUCT_JOIN_KEYS = Some b3 /\
    join_full df1_a b1 ["法人コード"] = Some j1 /\
    join_full df2_a b2 ["得意先コード"; "得意先名"] = Some j2 /\
    (if negb (is_empty df3_b)
        && negb (Nat.eqb (length (product_join_keys df3_a df3_b)) 0)
     then join_full df3_a b3 (product_join_keys df3_a df3_b) = Some j3
     else j3 = df3_a) /\
    d1 = fix_full_join_nulls j1 years (str current_year) /\
    d2 = fix_full_join_nulls j2 years (str current_year) /\
    d3 = fix_full_join_nulls j3 years (str current_year).
Proof.
  intros Hne. unfold merge_dataframes. rewrite Hne.
  destruct (add_past_suffix df1_b _) as [b1|] eqn:B1; [|discriminate].
  destruct (add_past_suffix df2_b _) as [b2|] eqn:B2; [|discriminate].
  destruct (add_past_suffix df3_b _) as [b3|] eqn:B3; [|discriminate].
  cbn [bind].
  destruct (join_full df1_a b1 _) as [j1|] eqn:J1; [|discriminate].
  destruct (join_full df2_a b2 _) as [j2|] eqn:J2; [|discriminate].
  cbn [bind].
  destruct (negb (is_empty df3_b) && _) eqn:E.
  - destruct (join_full df3_a b3 _) as [j3|] eqn:J3; [|discriminate].
    cbn [bind]. intros [= <- <- <-].
    exists b1, b2, b3, j1, j2, j3.
    repeat split; try reflexivity; assumption.
  - cbn [bind]. intros [= <- <- <-].
    exists b1, b2, b3, j1, j2, df3_a.
    repeat split; try reflexivity; assumption.
Qed.

Lemma select_columns_columns (names : list string) (df out : DataFrame) :
  select_columns names df = Some out -> columns out = names.
Proof.
  revert out. induction names as [|c names IH]; simpl; intros out H.
  - now injection H as <-.
  - destruct (get_column c df); [|discriminate].
    destruct (select_columns names df); [|discriminate].
    injection H as <-. simpl. f_equal. now apply IH.
Qed.

Lemma safe_select_keeps (df out : DataFrame) (cols : list string)
  (c : string) :
  safe_select df cols = Some out ->
  has_column c df = true -> In c cols -> has_column c out = true.
Proof.
  unfold safe_select. intros H Hc Hin.
  assert (Hex : In c (filter (fun col => has_column col df) cols))
    by (apply filter_In; auto).
  destruct (filter _ cols) as [|c0 l] eqn:E; [contradiction|].
  unfold select in H. destruct (nodupb (c0 :: l)); [|discriminate].
  apply select_columns_columns in H. apply has_column_In. now rewrite H.
Qed.

Lemma get_year_cols_keeps (years base_cols : list string) (year c : string)
  (cols ycs : list string) :
  get_year_cols years base_cols year cols = Some ycs ->
  In c cols ->
  existsb (fun y => contains y c) years = true ->
  exists n, int year = Some n /\
            (endswith c (str (n - 1) ++ "売上数")%string = false ->
             mem c base_cols = false -> In c ycs).
Proof.
  revert ycs. induction cols as [|col cols IH]; intros ycs H Hin Hc;
    [contradiction|].
  cbn [get_year_cols] in H.
  destruct Hin as [-> | Hin].
  - rewrite Hc in H. destruct (int year) as [n|]; [|discriminate].
    cbn [bind] in H. exists n. split; [reflexivity|]. intros H1 H2.
    rewrite H1, H2 in H. cbn [negb andb] in H.
    destruct (get_year_cols years base_cols year cols); [|discriminate].
    cbn [bind] in H. injection H as <-. now left.
  - destruct (if existsb _ years then _ else _) as [keep|]; [|discriminate].
    cbn [bind] in H.
    destruct (get_year_cols years base_cols year cols) as [rest|] eqn:E;
      [|discriminate].
    cbn [bind] in H. injection H as <-.
    destruct (IH rest eq_refl Hin Hc) as [n [Hn Hk]].
    exists n. split; [assumption|]. intros H1 H2.
    destruct keep; [right|]; auto.
Qed.

Lemma yearly_not_quantity_end (y s p : string) :
  In s yearly_suffixes ->
  endswith (y ++ s)%string (p ++ "売上数")%string = false.
Proof.
  intros Hs. destruct (endswith _ _) eqn:E; [|reflexivity].
  apply endswith_last_byte in E.
  - rewrite !last_byte_app in E.
    + revert Hs E. unfold yearly_suffixes. simpl.
      intros [<-|[<-|[<-|[]]]]; discriminate.
    + discriminate.
    + revert Hs. unfold yearly_suffixes. simpl.
      intros [<-|[<-|[<-|[]]]]; discriminate.
  - destruct p; discriminate.
Qed.

(** One table through [safe_select] with its base and year columns. *)
Lemma reorder_one_keeps (years base all_base : list string)
  (year : string) (df out : DataFrame) (ycs : list string) :
  (forall c, In c all_base ->
             In c protected_keys \/ c = (year ++ "売上数")%string) ->
  (has_column (year ++ "売上数")%string df = true ->
   In (year ++ "売上数")%string base) ->
  get_year_cols years all_base year (columns df) = Some ycs ->
  safe_select df (base ++ ycs) = Some out ->
  complete years year df -> complete years year out.
Proof.
  intros Hall Hbase Hyc Hsel Hcomplete y s Hy Hs.
  pose proof (Hcomplete y s Hy Hs) as Hcol.
  eapply safe_select_keeps; [eassumption | assumption |].
  apply in_or_app.
  destruct Hs as [Hs | [-> ->]]; [right | left; auto].
  destruct (get_year_cols_keeps _ _ _ (y ++ s)%string _ _ Hyc)
    as [n [_ Hk]].
  - now apply has_column_In.
  - apply existsb_exists. exists y. split; [assumption|].
    apply contains_app_l.
  - assert (In s metric_suffixes) as Hm
        by (apply (year_suffixes_metric y year),
              yearly_suffixes_applicable, Hs).
    apply Hk; [now apply yearly_not_quantity_end|].
    apply mem_false. intros Hin. apply Hall in Hin as [Hin | Hin].
    + now apply (metric_name_not_protected y s Hm).
    + apply metric_name_inj in Hin as [_ ->];
        [| assumption | unfold metric_suffixes; simpl; auto].
      revert Hs. unfold yearly_suffixes. simpl.
      intros [E|[E|[E|[]]]]; discriminate.
Qed.

(** The column order keeps every expected column. *)
Lemma reorder_columns_complete (df1 df2 df3 o1 o2 o3 : DataFrame)
  (year : string) (years : list string) :
  reorder_columns df1 df2 df3 year years = Some (o1, o2, o3) ->
  (complete years year df1 -> complete years year o1) /\
  (complete years year df2 -> complete years year o2) /\
  (complete years year df3 -> complete years year o3).
Proof.
  unfold reorder_columns.
  set (q := (year ++ "売上数")%string).
  set (base1 := ["法人コード"; "法人名"; q]).
  set (base2 := ["得意先コード"; "得意先名"; q]).
  set (base3 := filter (fun col => has_column col df3)
                       ["営業所名"; "担当者名"; "得意先コード"; "得意先名";
                        "第1階層"; "商品コード"; "商品名"; q]).
  set (all_base := base1 ++ base2 ++ base3).
  destruct (get_year_cols years all_base year (columns df1)) as [yc1|] eqn:E1;
    [|discriminate].
  destruct (get_year_cols years all_base year (columns df2)) as [yc2|] eqn:E2;
    [|discriminate].
  destruct (get_year_cols years all_base year (columns df3)) as [yc3|] eqn:E3;
    [|discriminate].
  cbn [bind].
  destruct (safe_select df1 (base1 ++ yc1)) as [s1|] eqn:S1; [|discriminate].
  destruct (safe_select df2 (base2 ++ yc2)) as [s2|] eqn:S2; [|discriminate].
  destruct (safe_select df3 (base3 ++ yc3)) as [s3|] eqn:S3; [|discriminate].
  cbn [bind]. intros [= <- <- <-].
  assert (Hall : forall c, In c all_base ->
                           In c protected_keys \/ c = q).
  { intros c Hc. unfold all_base in Hc.
    apply in_app_or in Hc as [Hc | Hc];
      [|apply in_app_or in Hc as [Hc | Hc]].
    - unfold base1, protected_keys in *. simpl in *. intuition.
    - unfold base2, protected_keys in *. simpl in *. intuition.
    - unfold base3 in Hc. apply filter_In in Hc as [Hc _].
      unfold protected_keys. simpl in *. intuition. }
  repeat split.
  - apply (reorder_one_keeps years base1 all_base year df1 s1 yc1);
      try assumption.
    intros _. unfold base1. simpl. auto.
  - apply (reorder_one_keeps years base2 all_base year df2 s2 yc2);
      try assumption.
    intros _. unfold base2. simpl. auto.
  - apply (reorder_one_keeps years base3 all_base year df3 s3 yc3);
      try assumption.
    intros Hq. unfold base3. apply filter_In. split; [|assumption].
    simpl. auto 10.
Qed.

End MergeFacts.

(** ** A value that is there is never replaced *)

Section NonNullKept.

Variables (c : string) (i : nat) (x : cell).
Hypothesis Hx : is_null x = false.

(** Column [c] exists and holds [x] in row [i]. *)
Local Abbreviation holds d :=
  (exists col, get_column c d = Some col /\ nth i col Null = x).

Lemma holds_with_column_fill (d : DataFrame) (c' : string) (b p : Series) :
  holds d -> get_column c' d = Some b ->
  holds (with_column c' (when_null_then b p) d).
Proof.
  intros [col [Hc Hn]] Hb. destruct (string_dec c' c) as [->|Hne].
  - rewrite get_with_column_same. eexists. split; [reflexivity|].
    assert (b = col) as -> by congruence.
    rewrite when_null_then_keeps; [assumption | now rewrite Hn].
  - rewrite get_with_column_other by assumption. eauto.
Qed.

Lemma holds_with_column_new (d : DataFrame) (c' : string) (v : Series) :
  holds d -> get_column c' d = None -> holds (with_column c' v d).
Proof.
  intros [col [Hc Hn]] Hnone.
  rewrite get_with_column_other by congruence. eauto.
Qed.

Lemma fill_id_column_holds (years : list string) (d : DataFrame)
  (past_col : string) :
  holds d -> holds (fill_id_column years d past_col).
Proof.
  intros H. unfold fill_id_column.
  destruct (negb _); [|assumption].
  destruct (get_column past_col d) as [p|]; [|assumption].
  destruct (get_column (replace "_past" "" past_col) d) as [b|] eqn:E.
  - now apply holds_with_column_fill.
  - now apply holds_with_column_new.
Qed.

Lemma fix_year_column_holds (cur y s : string) (d : DataFrame) :
  holds d -> holds (fix_year_column cur y d s).
Proof.
  intros H. unfold fix_year_column.
  destruct (y =? cur)%string.
  - destruct (has_column (y ++ s) d) eqn:E; [assumption|].
    apply holds_with_column_new; [assumption | now apply has_column_none].
  - destruct (get_column ((y ++ s) ++ "_past") d) as [p|].
    + destruct (get_column (y ++ s) d) as [b|] eqn:E.
      * now apply holds_with_column_fill.
      * now apply holds_with_column_new.
    + destruct (has_column (y ++ s) d) eqn:E; [assumption|].
      apply holds_with_column_new; [assumption | now apply has_column_none].
Qed.

(** Whatever the year list and the current year, the protective script
    leaves a non-null cell of a canonical column as it is. *)
Lemma fix_full_join_nulls_keeps (df : DataFrame) (years : list string)
  (cur : string) :
  endswith c "_past" = false ->
  holds df -> holds (fix_full_join_nulls df years cur).
Proof.
  intros Hc H. unfold fix_full_join_nulls.
  rewrite drop_loop_other by assumption.
  apply (year_loop_preserves years cur fix_year_column
           (fun d => holds d)).
  - intros y s d _ _. apply fix_year_column_holds.
  - apply (fold_left_preserves (fill_id_column years) (fun d => holds d));
      [|assumption].
    intros d p _. apply fill_id_column_holds.
Qed.

End NonNullKept.

(** ** Columns that reconciliation creates *)

Section CreatedColumns.

Lemma right_not_past (z c : string) :
  (z ++ "_right")%string <> (c ++ "_past")%string.
Proof.
  revert c. induction z as [|a z IH]; intros c E.
  - destruct c as [|b c]; [discriminate|].
    simpl in E. injection E as _ E.
    pose proof (f_equal String.length E) as L.
    rewrite string_length_app in L. simpl in L.
    destruct c; [discriminate E | simpl in L; lia].
  - destruct c as [|b c].
    + apply (f_equal String.length) in E. simpl in E.
      rewrite string_length_app in E. simpl in E. lia.
    + simpl in E. injection E as _ E. now apply (IH c).
Qed.

Lemma lit_null_nulls (d : DataFrame) : forallb is_null (lit_null d) = true.
Proof.
  unfold lit_null. induction (height d); simpl; auto.
Qed.

Lemma fix_year_column_creates_null (years : list string) (cur y s : string)
  (d : DataFrame) :
  get_column (y ++ s)%string d = None ->
  get_column ((y ++ s) ++ "_past")%string d = None ->
  all_null (y ++ s)%string (fix_year_column cur y d s) /\
  get_column ((y ++ s) ++ "_past")%string (fix_year_column cur y d s) = None.
Proof.
  intros Hc Hp. unfold fix_year_column. rewrite Hp.
  rewrite (proj2 (has_column_none _ _) Hc).
  assert (H : all_null (y ++ s)%string
                (with_column (y ++ s)%string (lit_null d) d) /\
              get_column ((y ++ s) ++ "_past")%string
                (with_column (y ++ s)%string (lit_null d) d) = None).
  { split.
    - exists (lit_null d). split; [apply get_with_column_same|].
      apply lit_null_nulls.
    - rewrite get_with_column_other; [assumption|].
      intros E. apply (f_equal String.length) in E.
      rewrite !string_length_app in E. simpl in E. lia. }
  destruct (y =? cur)%string; exact H.
Qed.

(** A metric column that the joined table has neither under its name nor
    as a shadow is created by reconciliation, with nulls only. *)
Lemma fix_full_join_nulls_creates_null (years : list string)
  (cur y s : string) (j : DataFrame) :
  In y years -> In s (year_suffixes y cur) ->
  get_column (y ++ s)%string j = None ->
  get_column ((y ++ s) ++ "_past")%string j = None ->
  all_null (y ++ s)%string (fix_full_join_nulls j years cur).
Proof.
  intros Hy Hs Hc Hp.
  assert (Hm : In s metric_suffixes)
    by (eapply year_suffixes_metric; eassumption).
  set (c := (y ++ s)%string) in *.
  set (P := fun d : DataFrame =>
              get_column c d = None /\ get_column (c ++ "_past")%string d = None).
  set (Q := fun d : DataFrame =>
              all_null c d /\ get_column (c ++ "_past")%string d = None).
  unfold fix_full_join_nulls, all_null.
  rewrite drop_loop_other by (apply metric_name_not_past; assumption).
  assert (Hid : P (fold_left (fill_id_column years) (past_columns j) j)).
  { split.
    - unfold c. rewrite id_loop_other by now apply contains_year.
      assumption.
    - unfold c. rewrite id_loop_other by now apply contains_year_past.
      assumption. }
  assert (Hfinal : Q (year_loop years cur fix_year_column
                        (fold_left (fill_id_column years) (past_columns j) j))).
  { apply (year_loop_establishes years cur fix_year_column
             (fun d => P d \/ Q d) Q y s); auto.
    - intros y' s' d Hy' Hs' [[H1 H2] | [[v [H1 Hv]] H2]].
      + destruct (string_dec (y' ++ s')%string c) as [E | Hne].
        * apply metric_name_inj in E as [-> ->];
            eauto using year_suffixes_metric.
          right. now apply (fix_year_column_creates_null years).
        * left. split; rewrite fix_year_column_other; auto.
          apply metric_name_not_past_name.
          eapply year_suffixes_metric; eassumption.
      + right. destruct (string_dec (y' ++ s')%string c) as [E | Hne].
        * apply metric_name_inj in E as [-> ->];
            eauto using year_suffixes_metric.
          unfold fix_year_column. fold c. rewrite H2.
          rewrite (proj2 (has_column_get c d) (ex_intro _ v H1)).
          destruct (y =? cur)%string; (split; [exists v; auto | assumption]).
        * split.
          -- exists v. rewrite fix_year_column_other; auto.
          -- rewrite fix_year_column_other; auto.
             apply metric_name_not_past_name.
             eapply year_suffixes_metric; eassumption.
    - intros y' s' d Hy' Hs' [[v [H1 Hv]] H2].
      destruct (string_dec (y' ++ s')%string c) as [E | Hne].
      + apply metric_name_inj in E as [-> ->];
          eauto using year_suffixes_metric.
        unfold fix_year_column. fold c. rewrite H2.
        rewrite (proj2 (has_column_get c d) (ex_intro _ v H1)).
        destruct (y =? cur)%string; (split; [exists v; auto | assumption]).
      + split.
        * exists v. rewrite fix_year_column_other; auto.
        * rewrite fix_year_column_other; auto.
          apply metric_name_not_past_name.
          eapply year_suffixes_metric; eassumption.
    - intros d [[H1 H2] | HQ].
      + now apply (fix_year_column_creates_null years).
      + destruct HQ as [[v [H1 Hv]] H2].
        unfold fix_year_column. fold c. rewrite H2.
        rewrite (proj2 (has_column_get c d) (ex_intro _ v H1)).
        destruct (y =? cur)%string; (split; [exists v; auto | assumption]). }
  exact (proj1 Hfinal).
Qed.

Lemma suffixed_absent (b b' : DataFrame) (keys : list string)
  (y s : string) :
  NoDup (columns b) -> incl keys protected_keys ->
  add_past_suffix b keys = Some b' ->
  In s metric_suffixes ->
  has_column (y ++ s)%string b = false ->
  has_column ((y ++ s) ++ "_past")%string b = false ->
  forall c', In c' (columns b') ->
             (c' <> (y ++ s)%string /\
              (c' ++ "_right")%string <> (y ++ s)%string) /\
             (c' <> ((y ++ s) ++ "_past")%string /\
              (c' ++ "_right")%string <> ((y ++ s) ++ "_past")%string).
Proof.
  intros Hnd Hk Hsuf Hm Hc Hp c' Hc'.
  rewrite (add_past_suffix_spec b keys Hnd (protected_not_past _ Hk)) in Hsuf.
  injection Hsuf as <-.
  assert (Hr : (c' ++ "_right")%string <> (y ++ s)%string
               /\ (c' ++ "_right")%string <> ((y ++ s) ++ "_past")%string)
    by (split; [now apply metric_name_not_right | apply right_not_past]).
  assert (Hold : forall x, In x (columns b) ->
                           x <> (y ++ s)%string /\
                           x <> ((y ++ s) ++ "_past")%string).
  { intros x Hx. apply has_column_In in Hx. split; intros ->; congruence. }
  destruct Hr as [Hr1 Hr2].
  destruct (is_empty b).
  - destruct (Hold c' Hc'). auto.
  - rewrite columns_map_names in Hc'.
    apply in_map_iff in Hc' as [x [<- Hx]].
    destruct (Hold x Hx) as [Hx1 Hx2]. revert Hr1 Hr2.
    unfold suffixed_name. destruct (mem x _); intros Hr1 Hr2; [auto|].
    split; split; try assumption.
    + intros E. symmetry in E. revert E.
      now apply metric_name_not_past_name.
    + intros E. apply string_app_inv_tail in E. congruence.
Qed.

Lemma dimension_creates_null (a b b' j : DataFrame)
  (keys on years : list string) (cur y s : string) :
  NoDup (columns b) -> incl keys protected_keys ->
  add_past_suffix b keys = Some b' ->
  join_full a b' on = Some j ->
  In y years -> In s (year_suffixes y cur) ->
  on_neither_side (y ++ s)%string a b ->
  all_null (y ++ s)%string (fix_full_join_nulls j years cur).
Proof.
  intros Hnd Hk Hsuf Hjoin Hy Hs (Ha & Hb & Hap & Hbp).
  assert (Hm : In s metric_suffixes)
    by (eapply year_suffixes_metric; eassumption).
  pose proof (suffixed_absent b b' keys y s Hnd Hk Hsuf Hm Hb Hbp) as Habs.
  apply fix_full_join_nulls_creates_null; try assumption.
  - apply (join_full_absent a b' on j Hjoin); [assumption|].
    intros c' Hc'. now destruct (Habs c' Hc').
  - apply (join_full_absent a b' on j Hjoin); [assumption|].
    intros c' Hc'. now destruct (Habs c' Hc').
Qed.

(** The column order hands on columns as they are. *)
Lemma select_columns_sound (names : list string) (df out : DataFrame) :
  select_columns names df = Some out ->
  forall c s, In (c, s) out -> In c names /\ get_column c df = Some s.
Proof.
  revert out. induction names as [|x names IH]; simpl; intros out H c s Hin.
  - injection H as <-. contradiction.
  - destruct (get_column x df) as [v|] eqn:E; [|discriminate].
    destruct (select_columns names df) as [rest|]; [|discriminate].
    injection H as <-. destruct Hin as [[= <- <-] | Hin]; [auto|].
    destruct (IH rest eq_refl c s Hin). auto.
Qed.

Lemma safe_select_sound (df out : DataFrame) (cols : list string) :
  safe_select df cols = Some out ->
  (forall c s, get_column c out = Some s -> get_column c df = Some s) /\
  (out = df \/ forall c, has_column c out = true -> In c cols).
Proof.
  unfold safe_select. intros H.
  destruct (filter (fun col => has_column col df) cols) as [|c0 l] eqn:E.
  - injection H as <-. auto.
  - unfold select in H. destruct (nodupb (c0 :: l)); [|discriminate]. split.
    + intros c s Hc. apply get_column_In in Hc.
      now apply (select_columns_sound _ _ _ H).
    + right. intros c Hc. apply has_column_get in Hc as [s Hs].
      apply get_column_In in Hs.
      destruct (select_columns_sound _ _ _ H c s Hs) as [Hin _].
      rewrite <- E in Hin. now apply filter_In in Hin.
Qed.

Lemma reorder_columns_inv (df1 df2 df3 o1 o2 o3 : DataFrame)
  (year : string) (years : list string) :
  reorder_columns df1 df2 df3 year years = Some (o1, o2, o3) ->
  let q := (year ++ "売上数")%string in
  let base1 := ["法人コード"; "法人名"; q] in
  let base2 := ["得意先コード"; "得意先名"; q] in
  let base3 := filter (fun col => has_column col df3)
                      ["営業所名"; "担当者名"; "得意先コード"; "得意先名";
                       "第1階層"; "商品コード"; "商品名"; q] in
  let all_base := base1 ++ base2 ++ base3 in
  exists yc1 yc2 yc3,
    get_year_cols years all_base year (columns df1) = Some yc1 /\
    get_year_cols years all_base year (columns df2) = Some yc2 /\
    get_year_cols years all_base year (columns df3) = Some yc3 /\
    safe_select df1 (base1 ++ yc1) = Some o1 /\
    safe_select df2 (base2 ++ yc2) = Some o2 /\
    safe_select df3 (base3 ++ yc3) = Some o3.
Proof.
  intros H q base1 base2 base3 all_base. unfold reorder_columns in H.
  fold q in H. fold base1 base2 base3 in H. fold all_base in H.
  destruct (get_year_cols years all_base year (columns df1)) as [yc1|] eqn:Y1;
    [|discriminate].
  destruct (get_year_cols years all_base year (columns df2)) as [yc2|] eqn:Y2;
    [|discriminate].
  destruct (get_year_cols years all_base year (columns df3)) as [yc3|] eqn:Y3;
    [|discriminate].
  cbn [bind] in H.
  destruct (safe_select df1 (base1 ++ yc1)) as [s1|] eqn:S1; [|discriminate].
  destruct (safe_select df2 (base2 ++ yc2)) as [s2|] eqn:S2; [|discriminate].
  destruct (safe_select df3 (base3 ++ yc3)) as [s3|] eqn:S3; [|discriminate].
  cbn [bind] in H. injection H as <- <- <-.
  exists yc1, yc2, yc3. repeat split; assumption.
Qed.

Lemma reorder_keeps_nulls (df out : DataFrame) (cols : list string)
  (c : string) :
  safe_select df cols = Some out ->
  has_column c out = true -> all_null c df -> all_null c out.
Proof.
  intros Hsel Hc [v [Hv Hn]].
  apply has_column_get in Hc as [w Hw]. exists w. split; [assumption|].
  apply (proj1 (safe_select_sound _ _ _ Hsel)) in Hw. congruence.
Qed.

End CreatedColumns.

(** ** Joins that look a value up *)

Lemma when_null_then_length (a p : Series) :
  length (when_null_then a p) = length a.
Proof.
  revert p. induction a as [|x a IH]; intros p; simpl; [reflexivity|].
  now rewrite IH.
Qed.

Lemma wf_get_length (df : DataFrame) (c : string) (v : Series) :
  wf df -> get_column c df = Some v -> length v = height df.
Proof.
  intros [_ H] Hv. apply get_column_In in Hv.
  rewrite Forall_forall in H. exact (H _ Hv).
Qed.

Section MasterJoin.

Lemma keys_match_right (k k1 k2 : list cell) :
  keys_match k k1 = true -> keys_match k k2 = true ->
  keys_match k1 k2 = true.
Proof.
  revert k1 k2. induction k as [|a k IH]; intros [|b k1] [|c k2];
    simpl; try discriminate; [reflexivity|].
  intros H1 H2.
  apply andb_true_iff in H1 as [H1 H1'].
  apply andb_true_iff in H1 as [Ha Hab].
  apply andb_true_iff in H2 as [H2 H2'].
  apply andb_true_iff in H2 as [_ Hac].
  apply cell_eqb_eq in Hab, Hac. subst b c.
  rewrite Ha, (proj2 (cell_eqb_eq a a) eq_refl). simpl. now apply IH.
Qed.

Lemma filter_at_most_one (P : nat -> bool) (m : nat) :
  (forall j j', In j (seq 0 m) -> In j' (seq 0 m) ->
                P j = true -> P j' = true -> j = j') ->
  filter P (seq 0 m) = [] \/ exists j, filter P (seq 0 m) = [j].
Proof.
  intros H.
  pose proof (NoDup_filter P (seq_NoDup m 0)) as Hnd.
  destruct (filter P (seq 0 m)) as [|j0 [|j1 l]] eqn:E; eauto.
  exfalso.
  assert (H0 : In j0 (filter P (seq 0 m))) by (rewrite E; simpl; auto).
  assert (H1 : In j1 (filter P (seq 0 m))) by (rewrite E; simpl; auto).
  apply filter_In in H0 as [H0 P0]. apply filter_In in H1 as [H1 P1].
  assert (j0 = j1) by auto. subst.
  inversion Hnd as [|? ? Hn _]. apply Hn. now left.
Qed.

Lemma flat_map_singleton {A B : Type} (f : A -> list B) (g : A -> B)
  (l : list A) :
  (forall x, f x = [g x]) -> flat_map f l = map g l.
Proof.
  intros H. induction l as [|x l IH]; [reflexivity|].
  simpl. now rewrite H, IH.
Qed.

Lemma left_pairs_unique (lk rk : list Series) (n m : nat) :
  (forall j j', In j (seq 0 m) -> In j' (seq 0 m) ->
                keys_match (row_key rk j) (row_key rk j') = true -> j = j') ->
  left_pairs lk rk n m
  = map (fun i => (Some i,
                   hd_error (filter (fun j => keys_match (row_key lk i)
                                                         (row_key rk j))
                                    (seq 0 m))))
        (seq 0 n).
Proof.
  intros H. unfold left_pairs. apply flat_map_singleton. intros i.
  destruct (filter_at_most_one
              (fun j => keys_match (row_key lk i) (row_key rk j)) m)
    as [-> | [j ->]]; [|reflexivity | reflexivity].
  intros j j' Hj Hj' M1 M2. apply H; try assumption.
  eapply keys_match_right; eassumption.
Qed.

Lemma take_all (v : Series) :
  take v (map Some (seq 0 (length v))) = v.
Proof.
  unfold take. rewrite map_map.
  induction v as [|x v IH]; [reflexivity|].
  change (length (x :: v)) with (S (length v)).
  change (seq 0 (S (length v))) with (0 :: seq 1 (length v)).
  rewrite <- seq_shift, map_cons, map_map. simpl. f_equal. exact IH.
Qed.

Lemma take_all_frame (df : DataFrame) (n : nat) :
  Forall (fun p => length (snd p) = n) df ->
  map (fun p => (fst p, take (snd p) (map Some (seq 0 n)))) df = df.
Proof.
  induction 1 as [|[c v] df Hv H IH]; [reflexivity|].
  simpl in *. rewrite IH. subst n. now rewrite take_all.
Qed.

Lemma get_column_app (c : string) (a b : DataFrame) :
  get_column c (a ++ b)
  = match get_column c a with
    | Some s => Some s
    | None => get_column c b
    end.
Proof.
  induction a as [|[c' v] a IH]; [reflexivity|]. simpl.
  destruct (c' =? c)%string; [reflexivity | exact IH].
Qed.

Lemma with_column_absent (c : string) (v : Series) (df : DataFrame) :
  has_column c df = false -> with_column c v df = df ++ [(c, v)].
Proof.
  unfold has_column, columns, mem.
  induction df as [|[c' v'] df IH]; [reflexivity|]. simpl.
  rewrite (String.eqb_sym c c').
  destruct (c' =? c)%string; [discriminate|]. simpl.
  intros H. now rewrite IH.
Qed.

Lemma with_column_app (c : string) (v : Series) (a b : DataFrame) :
  has_column c a = true -> with_column c v (a ++ b) = with_column c v a ++ b.
Proof.
  unfold has_column, columns, mem.
  induction a as [|[c' v'] a IH]; [discriminate|]. simpl.
  rewrite (String.eqb_sym c c').
  destruct (c' =? c)%string; [reflexivity|]. simpl.
  intros H. now rewrite IH.
Qed.

Lemma drop_absent (c : string) (df : DataFrame) :
  has_column c df = false -> drop c df = df.
Proof.
  unfold has_column, columns, mem, drop.
  induction df as [|[c' v'] df IH]; [reflexivity|]. simpl.
  rewrite (String.eqb_sym c c').
  destruct (c' =? c)%string; [discriminate|]. simpl.
  intros H. now rewrite IH.
Qed.

Lemma drop_last (c : string) (v : Series) (df : DataFrame) :
  has_column c df = false -> drop c (df ++ [(c, v)]) = df.
Proof.
  intros H. unfold drop. rewrite filter_app. fold (drop c df).
  rewrite drop_absent by assumption. simpl.
  rewrite String.eqb_refl. simpl. apply app_nil_r.
Qed.

Lemma has_column_app (c : string) (a b : DataFrame) :
  has_column c (a ++ b) = has_column c a || has_column c b.
Proof.
  unfold has_column, columns, mem. now rewrite map_app, existsb_app.
Qed.

End MasterJoin.

(** ** The identity backfill *)

Section Backfill.
























End Backfill.

(** * The properties of the merge engine *)

(** C1, as the specification words it, fails in four ways, each on tables
    that bring no value of their own for the column in question.
    (1) The current year: a historical table that still carries a total
    for the current year loses it, even when the current table has no row
    at all, because the current year's column is never filled from history.
    (2) Keys that are not distinct where the join looks: the
    customer+product join uses only the keys both sides have, so a current
    table whose rows differ in the office alone, distinct on the six
    configured keys, doubles a historical row that has no office column.
    (3) No shared key: the customer+product join is skipped and the
    historical total does not arrive at all.
    (4) The first run: with an empty corporate history the merge returns
    the current tables as they are, and the customer history's total is
    not taken over. *)
Lemma conservation_fails :
  (height Sample.corporate_quiet = 0 /\
   no_new_values "2025売上" Sample.corporate_quiet = true /\
   unique_keys ["法人コード"] Sample.corporate_quiet = true /\
   exists d1 d2 d3,
     merge_dataframes Sample.corporate_quiet Sample.corporate_stale
                      Sample.customer_current Sample.customer_history
                      Sample.product_current Sample.product_history
                      Sample.years 2025 = Some (d1, d2, d3) /\
     column_sum "2025売上" Sample.corporate_stale = Some 50%Z /\
     column_sum "2025売上" d1 = Some 0%Z) /\
  (no_new_values "2024売上" Sample2.product_two_offices = true /\
   unique_keys PRODUCT_JOIN_KEYS Sample2.product_two_offices = true /\
   exists d1 d2 d3,
     merge_dataframes Sample.corporate_current Sample.corporate_history
                      Sample.customer_current Sample.customer_history
                      Sample2.product_two_offices
                      Sample.product_history_no_office
                      Sample.years 2025 = Some (d1, d2, d3) /\
     column_sum "2024売上" Sample.product_history_no_office = Some 57%Z /\
     column_sum "2024売上" d3 = Some 107%Z) /\
  (no_new_values "2024売上" Sample.product_current = true /\
   unique_keys PRODUCT_JOIN_KEYS Sample.product_current = true /\
   product_join_keys Sample.product_current Sample2.product_history_keyless
   = [] /\
   exists d1 d2 d3,
     merge_dataframes Sample.corporate_current Sample.corporate_history
                      Sample.customer_current Sample.customer_history
                      Sample.product_current Sample2.product_history_keyless
                      Sample.years 2025 = Some (d1, d2, d3) /\
     column_sum "2024売上" Sample2.product_history_keyless = Some 50%Z /\
     column_sum "2024売上" d3 = Some 0%Z) /\
  (no_new_values "2024売上" Sample2.customer_current_blank = true /\
   unique_keys ["得意先コード"; "得意先名"] Sample2.customer_current_blank
   = true /\
   exists d1 d2 d3,
     merge_dataframes Sample.corporate_current pl_DataFrame
                      Sample2.customer_current_blank Sample.customer_history
                      Sample.product_current Sample.product_history
                      Sample.years 2025 = Some (d1, d2, d3) /\
     column_sum "2024売上" Sample.customer_history = Some 57%Z /\
     column_sum "2024売上" d2 = Some 0%Z).
Proof.
  split; [|split; [|split]].
  - split; [reflexivity|]. split; [reflexivity|]. split; [reflexivity|].
    eexists _, _, _. split; [vm_compute; reflexivity|].
    split; reflexivity.
  - split; [reflexivity|]. split; [vm_compute; reflexivity|].
    eexists _, _, _. split; [vm_compute; reflexivity|].
    split; reflexivity.
  - split; [reflexivity|]. split; [vm_compute; reflexivity|].
    split; [reflexivity|].
    eexists _, _, _. split; [vm_compute; reflexivity|].
    split; reflexivity.
  - split; [reflexivity|]. split; [vm_compute; reflexivity|].
    eexists _, _, _. split; [vm_compute; reflexivity|].
    split; reflexivity.
Qed.

(** C1 (amended) -- Conservation under merge, for monetary totals: when the
    corporate historical table is not empty and the merge goes through,
    take any of the three dimensions with the keys its join really uses
    (for the customer+product dimension those of the six configured keys
    that both sides have, at least one).  A prior year's revenue or
    gross-margin column of a well-formed, non-empty historical table has
    the same total in the merged table, as an exact sum and as the
    wrapping [Int64] sum, provided the current table has distinct keys,
    brings no value of its own for that column and has no column of that
    name with [_past]. *)
Theorem conservation_under_merge
  (df1_a df1_b df2_a df2_b df3_a df3_b : DataFrame) (years : list string)
  (current_year : Z) (d1 d2 d3 : DataFrame) (y s : string)
  (current historical merged : DataFrame) (on : list string) (v : Series) :
  is_empty df1_b = false ->
  merge_dataframes df1_a df1_b df2_a df2_b df3_a df3_b years current_year
  = Some (d1, d2, d3) ->
  In y years -> y <> str current_year -> In s monetary_suffixes ->
  In (current, historical, merged, on)
     [(df1_a, df1_b, d1, ["法人コード"]);
      (df2_a, df2_b, d2, ["得意先コード"; "得意先名"]);
      (df3_a, df3_b, d3, product_join_keys df3_a df3_b)] ->
  on <> [] ->
  wf historical ->
  is_empty historical = false ->
  unique_keys on current = true ->
  no_new_values (y ++ s)%string current = true ->
  has_column ((y ++ s) ++ "_past")%string current = false ->
  get_column (y ++ s)%string historical = Some v ->
  column_sum (y ++ s)%string merged = Some (sum v) /\
  option_map sum_int64 (get_column (y ++ s)%string merged)
  = Some (sum_int64 v).
Proof.
  intros Hne Hmerge Hy Hprior Hs Hdim Hon [Hnd Hlen] Hrows Huniq Hnew
         Hshadow Hv.
  destruct (merge_dataframes_inv _ _ _ _ _ _ _ _ _ _ _ Hne Hmerge)
    as (b1 & b2 & b3 & j1 & j2 & j3 & B1 & B2 & B3 & J1 & J2 & J3
        & -> & -> & ->).
  assert (K1 : incl ["法人コード"] protected_keys).
  { intros k Hk. unfold protected_keys. simpl in *. intuition. }
  assert (K2 : incl ["得意先コード"; "得意先名"] protected_keys).
  { intros k Hk. unfold protected_keys. simpl in *. intuition. }
  assert (K3 : incl PRODUCT_JOIN_KEYS protected_keys).
  { intros k Hk. unfold protected_keys, PRODUCT_JOIN_KEYS in *.
    simpl in *. intuition. }
  assert (Hs' : In s yearly_suffixes).
  { revert Hs. unfold monetary_suffixes, yearly_suffixes. simpl. tauto. }
  assert (Hsum : column_sum (y ++ s)%string merged = Some (sum v)).
  { destruct Hdim as [E | [E | [E | []]]]; injection E as <- <- <- <-.
    - apply (one_dimension_conserves df1_a df1_b b1 j1 ["法人コード"]
               ["法人コード"] years (str current_year) y s v); assumption.
    - apply (one_dimension_conserves df2_a df2_b b2 j2
               ["得意先コード"; "得意先名"] ["得意先コード"; "得意先名"]
               years (str current_year) y s v); assumption.
    - rewrite Hrows in J3.
      destruct (product_join_keys df3_a df3_b) as [|k ks] eqn:E;
        [contradiction|].
      cbn [negb andb length Nat.eqb] in J3.
      apply (one_dimension_conserves df3_a df3_b b3 j3 PRODUCT_JOIN_KEYS
               (k :: ks) years (str current_year) y s v); assumption. }
  split; [exact Hsum|].
  unfold column_sum in Hsum.
  destruct (get_column (y ++ s)%string merged) as [w|]; [|discriminate].
  simpl in *. injection Hsum as Hsum.
  now rewrite !sum_int64_wrap, Hsum.
Qed.

Lemma conservation_under_merge_witness :
  exists d1 d2 d3,
    Sample.merged = Some (d1, d2, d3) /\
    column_sum "2024売上" d1 = Some 57%Z.
Proof.
  eexists _, _, _. split; [reflexivity|].
  refine (proj1 (conservation_under_merge
                   Sample.corporate_current Sample.corporate_history
                   Sample.customer_current Sample.customer_history
                   Sample.product_current Sample.product_history
                   Sample.years 2025 _ _ _ "2024" "売上"
                   Sample.corporate_current Sample.corporate_history _
                   ["法人コード"] [Num 50; Num 7]%Z
                   _ _ _ _ _ _ _ _ _ _ _ _ _)).
  - reflexivity.
  - vm_compute. reflexivity.
  - simpl. auto.
  - discriminate.
  - unfold monetary_suffixes. simpl. auto.
  - left. reflexivity.
  - discriminate.
  - split.
    + repeat constructor; simpl; intuition discriminate.
    + repeat constructor.
  - reflexivity.
  - reflexivity.
  - reflexivity.
  - reflexivity.
  - reflexivity.
Defined.

(** C2 -- Current-year protection: a current-year metric column goes
    through null reconciliation unchanged in both scripts, null cells
    included, whatever its [_past] counterpart holds; and in a full join
    of a current table with a suffixed historical one, every row carries in
    that column the value of the current row it comes from (and null when
    it comes from history alone). *)
Theorem current_year_protection (years : list string) (cur s : string) :
  In cur years -> In s metric_suffixes ->
  (forall df col,
      get_column (cur ++ s)%string df = Some col ->
      get_column (cur ++ s)%string (fix_full_join_nulls df years cur)
      = Some col /\
      get_column (cur ++ s)%string
                 (Script2Q._fix_full_join_nulls years cur df) = Some col) /\
  (forall current historical on joined col,
      join_full current historical on = Some joined ->
      get_column (cur ++ s)%string current = Some col ->
      exists rows,
        (forall c v, get_column c current = Some v ->
                     get_column c joined = Some (take v rows)) /\
        get_column (cur ++ s)%string (fix_full_join_nulls joined years cur)
        = Some (take col rows)).
Proof.
  intros Hcur Hs. split.
  - intros df col Hcol. split.
    + now apply current_year_column_kept.
    + now apply current_year_column_kept_2Q.
  - intros current historical on joined col Hjoin Hcol.
    destruct (join_full_inv _ _ _ _ Hjoin) as (lk & rk & Hlk & Hrk & _ & _).
    exists (map fst (full_pairs lk rk (height current) (height historical))).
    assert (Hleft : forall c v,
               get_column c current = Some v ->
               get_column c joined
               = Some (take v (map fst (full_pairs lk rk (height current)
                                                   (height historical))))).
    { intros c v Hc. eapply join_full_left_column; eassumption. }
    split; [exact Hleft|].
    apply current_year_column_kept; auto.
Qed.

Lemma current_year_protection_witness :
  get_column "2025売上"
             (fix_full_join_nulls Sample.joined_stale Sample.years "2025")
  = Some [Num 100; Null] /\
  get_column "2025売上"
             (Script2Q._fix_full_join_nulls Sample.years "2025"
                                            Sample.joined_stale)
  = Some [Num 100; Null].
Proof.
  refine (proj1 (current_year_protection Sample.years "2025" "売上" _ _)
                Sample.joined_stale [Num 100; Null] _).
  - simpl. auto.
  - unfold metric_suffixes. simpl. auto.
  - reflexivity.
Defined.

(** C3, as the specification words it, fails: the merger takes no policy
    flag.  On a table whose prior-year revenue is 7 with 9 in its shadow,
    the merger of [02_merge_past_data.py] keeps the 7 for every year list
    and current year it can be called with, while the merger of
    [02_merge_past_data_2Q.py], called with the same arguments, takes the
    9. *)
Lemma no_policy_flag :
  get_column "2024売上"
             (fix_full_join_nulls Sample.joined_both Sample.years "2025")
  = Some [Num 7; Num 4] /\
  get_column "2024売上"
             (Script2Q._fix_full_join_nulls Sample.years "2025"
                                            Sample.joined_both)
  = Some [Num 9; Num 4] /\
  forall years cur,
    exists col,
      get_column "2024売上" (fix_full_join_nulls Sample.joined_both years cur)
      = Some col /\ nth 0 col Null = Num 7.
Proof.
  split; [reflexivity|]. split; [reflexivity|].
  intros years cur.
  apply (fix_full_join_nulls_keeps "2024売上" 0 (Num 7)); try reflexivity.
  exists [Num 7; Null]. split; reflexivity.
Qed.

(** C3 (amended) -- Prior-year reconciliation: both policies exist, each
    in its own script and without a flag.  For a prior year's metric
    column present together with its [_past] shadow, the merger of
    [02_merge_past_data.py] is protective (it fills the nulls of the column
    from the shadow and keeps every other cell) and the merger of
    [02_merge_past_data_2Q.py] is authoritative (the column becomes the
    shadow). *)
Theorem prior_year_policies (years : list string) (cur y s : string)
  (df : DataFrame) (c p : Series) :
  In y years -> y <> cur -> In s yearly_suffixes ->
  get_column (y ++ s)%string df = Some c ->
  get_column ((y ++ s) ++ "_past")%string df = Some p ->
  get_column (y ++ s)%string (fix_full_join_nulls df years cur)
  = Some (when_null_then c p) /\
  get_column (y ++ s)%string (Script2Q._fix_full_join_nulls years cur df)
  = Some p.
Proof.
  intros Hy Hne Hs Hc Hp. split.
  - apply (prior_year_protective years cur df y s p (when_null_then c p)
             (Some c)); try assumption; [reflexivity|].
    apply when_null_then_idem.
  - now apply prior_year_authoritative.
Qed.

Lemma prior_year_policies_witness :
  get_column "2024売上"
             (fix_full_join_nulls Sample.joined_both Sample.years "2025")
  = Some (when_null_then [Num 7; Null] [Num 9; Num 4]) /\
  get_column "2024売上"
             (Script2Q._fix_full_join_nulls Sample.years "2025"
                                            Sample.joined_both)
  = Some [Num 9; Num 4].
Proof.
  refine (prior_year_policies Sample.years "2025" "2024" "売上"
            Sample.joined_both [Num 7; Null] [Num 9; Num 4] _ _ _ _ _).
  - simpl. auto.
  - discriminate.
  - unfold yearly_suffixes. simpl. auto.
  - reflexivity.
  - reflexivity.
Defined.

(** C4, as the specification words it, fails on a first run: with an empty
    historical side the merge hands back the current tables, which have no
    column for the prior year. *)
Lemma first_run_lacks_prior_year_columns :
  merge_dataframes Sample.corporate_current pl_DataFrame
                   Sample.customer_current pl_DataFrame
                   Sample.product_current pl_DataFrame Sample.years 2025
  = Some (Sample.corporate_current, Sample.customer_current,
          Sample.product_current) /\
  In "2024" Sample.years /\
  applicable_suffix "2024" (str 2025) "売上" /\
  has_column "2024売上" Sample.corporate_current = false /\
  ~ complete Sample.years (str 2025) Sample.corporate_current.
Proof.
  split; [reflexivity|]. split; [simpl; auto|].
  assert (applicable_suffix "2024" (str 2025) "売上") as Ha
      by (left; unfold yearly_suffixes; simpl; auto).
  split; [exact Ha|]. split; [reflexivity|].
  intros H. specialize (H "2024" "売上" (or_intror (or_introl eq_refl)) Ha).
  discriminate H.
Qed.

(** C4 (amended) -- Column completeness: when the corporate historical
    table is not empty and the merge goes through, each of the three merged
    tables has the metric column of every year of the Fiscal Year Set and
    every suffix that applies to it; such a column that neither input table
    has (under its name or as a [_past] shadow) is created with nulls only;
    and the column order keeps all of these columns as they are. *)
Theorem column_completeness
  (df1_a df1_b df2_a df2_b df3_a df3_b : DataFrame) (years : list string)
  (current_year : Z) (d1 d2 d3 : DataFrame) :
  is_empty df1_b = false ->
  merge_dataframes df1_a df1_b df2_a df2_b df3_a df3_b years current_year
  = Some (d1, d2, d3) ->
  (complete years (str current_year) d1 /\
   complete years (str current_year) d2 /\
   complete years (str current_year) d3) /\
  (forall y s,
      In y years -> applicable_suffix y (str current_year) s ->
      (NoDup (columns df1_b) -> on_neither_side (y ++ s)%string df1_a df1_b ->
       all_null (y ++ s)%string d1) /\
      (NoDup (columns df2_b) -> on_neither_side (y ++ s)%string df2_a df2_b ->
       all_null (y ++ s)%string d2) /\
      (NoDup (columns df3_b) -> on_neither_side (y ++ s)%string df3_a df3_b ->
       all_null (y ++ s)%string d3)) /\
  (forall o1 o2 o3,
      reorder_columns d1 d2 d3 (str current_year) years = Some (o1, o2, o3) ->
      (complete years (str current_year) o1 /\
       complete years (str current_year) o2 /\
       complete years (str current_year) o3) /\
      (forall y s,
          In y years -> applicable_suffix y (str current_year) s ->
          (all_null (y ++ s)%string d1 -> all_null (y ++ s)%string o1) /\
          (all_null (y ++ s)%string d2 -> all_null (y ++ s)%string o2) /\
          (all_null (y ++ s)%string d3 -> all_null (y ++ s)%string o3))).
Proof.
  intros Hne Hmerge.
  destruct (merge_dataframes_inv _ _ _ _ _ _ _ _ _ _ _ Hne Hmerge)
    as (b1 & b2 & b3 & j1 & j2 & j3 & B1 & B2 & B3 & J1 & J2 & J3
        & -> & -> & ->).
  assert (Hall : complete years (str current_year)
                          (fix_full_join_nulls j1 years (str current_year)) /\
                 complete years (str current_year)
                          (fix_full_join_nulls j2 years (str current_year)) /\
                 complete years (str current_year)
                          (fix_full_join_nulls j3 years (str current_year)))
    by (repeat split; apply fix_full_join_nulls_is_complete).
  split; [exact Hall|]. split.
  - intros y s Hy Ha. apply applicable_suffix_iff in Ha.
    split; [|split].
    + intros Hnd Hside.
      apply (dimension_creates_null df1_a df1_b b1 j1 ["法人コード"]
               ["法人コード"]); try assumption.
      intros k Hk. unfold protected_keys. simpl in *. intuition.
    + intros Hnd Hside.
      apply (dimension_creates_null df2_a df2_b b2 j2
               ["得意先コード"; "得意先名"] ["得意先コード"; "得意先名"]);
        try assumption.
      intros k Hk. unfold protected_keys. simpl in *. intuition.
    + intros Hnd Hside.
      destruct (negb (is_empty df3_b) && _).
      * apply (dimension_creates_null df3_a df3_b b3 j3 PRODUCT_JOIN_KEYS
                 (product_join_keys df3_a df3_b)); try assumption.
        intros k Hk. unfold protected_keys, PRODUCT_JOIN_KEYS in *.
        simpl in *. intuition.
      * subst j3. destruct Hside as (Hc & _ & Hp & _).
        apply fix_full_join_nulls_creates_null; try assumption;
          now apply has_column_none.
  - intros o1 o2 o3 Hre.
    destruct (reorder_columns_complete _ _ _ _ _ _ _ _ Hre) as (H1 & H2 & H3).
    destruct Hall as (C1 & C2 & C3).
    split; [auto|].
    destruct (reorder_columns_inv _ _ _ _ _ _ _ _ Hre)
      as (yc1 & yc2 & yc3 & _ & _ & _ & S1 & S2 & S3).
    intros y s Hy Ha. split; [|split].
    + apply (reorder_keeps_nulls _ _ _ _ S1). now apply (H1 C1).
    + apply (reorder_keeps_nulls _ _ _ _ S2). now apply (H2 C2).
    + apply (reorder_keeps_nulls _ _ _ _ S3). now apply (H3 C3).
Qed.

Lemma column_completeness_witness :
  exists d1 d2 d3,
    merge_dataframes Sample.corporate_current Sample.corporate_history
                     Sample.customer_current Sample.customer_history
                     Sample.product_current Sample.product_history
                     Sample2.years_three 2025 = Some (d1, d2, d3) /\
    complete Sample2.years_three (str 2025) d1 /\
    all_null "2023売上" d1.
Proof.
  eexists _, _, _. split; [vm_compute; reflexivity|].
  pose proof (column_completeness
                Sample.corporate_current Sample.corporate_history
                Sample.customer_current Sample.customer_history
                Sample.product_current Sample.product_history
                Sample2.years_three 2025 _ _ _ eq_refl
                ltac:(vm_compute; reflexivity)) as (Hc & Hn & _).
  split; [exact (proj1 Hc)|].
  refine (proj1 (Hn "2023" "売上" _ _) _ _).
  - simpl. auto.
  - left. unfold yearly_suffixes. simpl. auto.
  - repeat constructor; simpl; intuition discriminate.
  - repeat split; reflexivity.
Defined.

(** C5, as the specification words it, fails for a single dimension: with
    a corporate history in place and an empty customer+product history, the
    customer+product table that comes back is the current one with the
    prior year's columns added. *)
Lemma empty_product_history_adds_columns :
  is_empty pl_DataFrame = true /\
  exists d1 d2 d3,
    merge_dataframes Sample.corporate_current Sample.corporate_history
                     Sample.customer_current Sample.customer_history
                     Sample.product_current pl_DataFrame Sample.years 2025
    = Some (d1, d2, d3) /\
    d3 <> Sample.product_current /\
    has_column "2024売上" Sample.product_current = false /\
    has_column "2024売上" d3 = true.
Proof.
  split; [reflexivity|].
  eexists _, _, _. split; [vm_compute; reflexivity|].
  split; [discriminate|]. split; reflexivity.
Qed.

(** C5 (amended) -- Empty-historical no-op: when the corporate historical
    table is empty, the merge returns the three current tables unchanged
    and does not fail; and the key renaming that precedes it returns its two
    historical tables unchanged when either of them is empty. *)
Theorem empty_history_noop
  (df1_a df1_b df2_a df2_b df3_a df3_b : DataFrame) (years : list string)
  (current_year : Z) :
  (is_empty df1_b = true ->
   merge_dataframes df1_a df1_b df2_a df2_b df3_a df3_b years current_year
   = Some (df1_a, df2_a, df3_a)) /\
  (is_empty df2_b || is_empty df3_b = true ->
   rename_columns df2_b df3_b = Some (df2_b, df3_b)).
Proof.
  split.
  - intros H. unfold merge_dataframes. now rewrite H.
  - intros H. unfold rename_columns. now rewrite H.
Qed.

Lemma empty_history_noop_witness :
  merge_dataframes Sample.corporate_current pl_DataFrame
                   Sample.customer_current Sample.customer_history
                   Sample.product_current Sample.product_history
                   Sample.years 2025
  = Some (Sample.corporate_current, Sample.customer_current,
          Sample.product_current) /\
  rename_columns pl_DataFrame Sample.product_history
  = Some (pl_DataFrame, Sample.product_history).
Proof.
  split.
  - refine (proj1 (empty_history_noop
                     Sample.corporate_current pl_DataFrame
                     Sample.customer_current Sample.customer_history
                     Sample.product_current Sample.product_history
                     Sample.years 2025) _).
    reflexivity.
  - refine (proj2 (empty_history_noop
                     Sample.corporate_current Sample.corporate_history
                     Sample.customer_current pl_DataFrame
                     Sample.product_current Sample.product_history
                     Sample.years 2025) _).
    reflexivity.
Defined.

(** C6, as the specification words it, fails in both scripts: in
    [02_merge_past_data.py] the corporate name, which is not a join key of
    the corporate dimension, stays unsuffixed; in [02_merge_past_data_2Q.py]
    the join key itself is suffixed. *)
Lemma protected_name_not_suffixed :
  mem "法人名" ["法人コード"] = false /\
  (exists b,
      add_past_suffix Sample.corporate_history ["法人コード"] = Some b /\
      has_column "法人名" b = true /\
      has_column "法人名_past" b = false) /\
  (exists b,
      Script2Q._add_past_suffix Sample.corporate_history ["法人コード"]
      = Some b /\
      has_column "法人コード" b = false /\
      has_column "法人コード_past" b = true).
Proof.
  split; [reflexivity|]. split.
  - eexists. split; [vm_compute; reflexivity|]. split; reflexivity.
  - eexists. split; [vm_compute; reflexivity|]. split; reflexivity.
Qed.

(** C6 (amended) -- Suffixing rule: in [02_merge_past_data.py] a historical
    table with rows gets [_past] appended to every column that is neither
    one of the nine protected identity names nor one of the given join
    keys, those stay as they are, the data is untouched, and a table
    without rows is returned as it is; in [02_merge_past_data_2Q.py] every
    column, join keys included, gets the suffix. *)
Theorem suffixing_rule (df : DataFrame) (keys : list string) :
  wf df ->
  Forall (fun k => endswith k "_past" = false) keys ->
  add_past_suffix df keys
  = Some (if is_empty df then df
          else map (fun p => (suffixed_name (protected_keys ++ keys) (fst p),
                              snd p)) df) /\
  Script2Q._add_past_suffix df keys
  = Some (map (fun p => ((fst p ++ "_past")%string, snd p)) df) /\
  (forall k, In k (protected_keys ++ keys) ->
             suffixed_name (protected_keys ++ keys) k = k) /\
  (forall c, ~ In c (protected_keys ++ keys) ->
             suffixed_name (protected_keys ++ keys) c = (c ++ "_past")%string).
Proof.
  intros [Hnd _] Hk. repeat split.
  - now apply add_past_suffix_spec.
  - now apply add_past_suffix_2Q_spec.
  - intros k Hin. unfold suffixed_name.
    apply mem_In in Hin. now rewrite Hin.
  - intros c Hin. unfold suffixed_name.
    apply mem_false in Hin. now rewrite Hin.
Qed.

Lemma suffixing_rule_witness :
  add_past_suffix Sample.corporate_history ["法人コード"]
  = Some [("法人コード", [Txt "A"; Txt "B"]);
          ("法人名", [Txt "Alpha"; Txt "Beta"]);
          ("2024㎡_past", [Num 9; Num 1]);
          ("2024売上_past", [Num 50; Num 7]);
          ("2024粗利_past", [Num 10; Num 2])].
Proof.
  refine (proj1 (suffixing_rule Sample.corporate_history ["法人コード"] _ _)).
  - split.
    + repeat constructor; simpl; intuition discriminate.
    + repeat constructor.
  - repeat constructor.
Defined.

(** C7 -- Join-key degradation is there for the customer+product
    dimension only: a customer history that is missing altogether (the
    empty table the loader puts in its place) or that lacks the name column
    makes the whole merge fail, while a customer+product history without
    the office column is joined on the keys that are left. *)
Theorem missing_customer_key_aborts_merge :
  merge_dataframes Sample.corporate_current Sample.corporate_history
                   Sample.customer_current pl_DataFrame
                   Sample.product_current Sample.product_history
                   Sample.years 2025 = None /\
  has_column "得意先名" Sample.customer_history_code_only = false /\
  merge_dataframes Sample.corporate_current Sample.corporate_history
                   Sample.customer_current Sample.customer_history_code_only
                   Sample.product_current Sample.product_history
                   Sample.years 2025 = None /\
  product_join_keys Sample.product_current Sample.product_history_no_office
  = ["得意先コード"; "得意先名"; "第1階層"; "商品コード"; "商品名"] /\
  merge_dataframes Sample.corporate_current Sample.corporate_history
                   Sample.customer_current Sample.customer_history
                   Sample.product_current Sample.product_history_no_office
                   Sample.years 2025 <> None.
Proof.
  split; [vm_compute; reflexivity|].
  split; [reflexivity|]. split; [vm_compute; reflexivity|].
  split; [reflexivity|]. vm_compute. discriminate.
Qed.

(** C8, as the specification words it, fails: a run whose verification
    fails and a run whose verification passes end with the same exit
    status. *)
Lemma exit_status_ignores_verification :
  compare_totals []
    (validate_data_totals Sample.final_corporate
                          Sample.final_customer_diverging
                          Sample.final_product) = false /\
  compare_totals []
    (validate_data_totals Sample.final_corporate Sample.final_customer
                          Sample.final_product) = true /\
  exit_status (main_verify_and_save [] Sample.final_corporate
                                    Sample.final_customer_diverging
                                    Sample.final_product)
  = exit_status (main_verify_and_save [] Sample.final_corporate
                                      Sample.final_customer
                                      Sample.final_product).
Proof. repeat split; vm_compute; reflexivity. Qed.

(** C8 (amended) -- Verifier propagation: the end of [main] never fails on
    the outcome of verification and always saves the three tables it was
    given; the outcome shows in the closing console message only, and the
    exit status is 0 either way. *)
Theorem verification_reports_and_continues (past_totals : Snapshot)
  (df1 df2 df3 : DataFrame) :
  exists message,
    main_verify_and_save past_totals df1 df2 df3
    = Some (mkCompleted (df1, df2, df3) message) /\
    (message = CompletedVerified <->
     compare_totals past_totals (validate_data_totals df1 df2 df3) = true) /\
    exit_status (main_verify_and_save past_totals df1 df2 df3) = 0%Z.
Proof.
  unfold main_verify_and_save.
  destruct (compare_totals past_totals (validate_data_totals df1 df2 df3));
    eexists; (split; [reflexivity|]); split; try reflexivity;
    split; intros H; try reflexivity; discriminate.
Qed.




(** C10 -- The identity backfill stage of [main] changes nothing: it is
    called with three empty historical tables, so the rest of [main] goes
    on with the very tables the stage was given, and the function returns
    its three merged tables as they are whenever the corporate historical
    table is empty. *)
Theorem backfill_stage_is_identity :
  (forall orders df1 df2 df3,
      main_fill_missing_index_columns orders df1 df2 df3
      = Some (df1, df2, df3)) /\
  (forall (B : Type) (rest : DataFrame * DataFrame * DataFrame -> option B)
          orders df1 df2 df3,
      bind (main_fill_missing_index_columns orders df1 df2 df3) rest
      = rest (df1, df2, df3)) /\
  (forall orders df1 df2 df3 df1_b df2_b df3_b,
      is_empty df1_b = true ->
      fill_missing_index_columns orders df1 df2 df3 df1_b df2_b df3_b
      = Some (df1, df2, df3)).
Proof.
  split; [reflexivity|]. split; [reflexivity|].
  intros orders df1 df2 df3 df1_b df2_b df3_b H.
  unfold fill_missing_index_columns. now rewrite H.
Qed.

Lemma backfill_stage_is_identity_witness :
  fill_missing_index_columns Sample.rows_as_found
                             Sample.corporate_missing_code
                             Sample.customer_missing_code
                             Sample.product_current
                             pl_DataFrame Sample.customer_two_codes
                             Sample.product_history
  = Some (Sample.corporate_missing_code, Sample.customer_missing_code,
          Sample.product_current).
Proof.
  refine (proj2 (proj2 backfill_stage_is_identity)
                _ _ _ _ pl_DataFrame _ _ _).
  reflexivity.
Defined.

(** * Further properties of the two scripts *)

(** ** Years *)

Section Years.

Lemma years_list_cons (start_year end_year : Z) :
  (start_year <= end_year)%Z ->
  generate_years_list start_year end_year
  = str end_year :: generate_years_list start_year (end_year - 1).
Proof.
  intros H. unfold generate_years_list.
  replace (Z.to_nat (end_year + 1 - start_year))
    with (S (Z.to_nat (end_year - 1 + 1 - start_year))) by lia.
  rewrite seq_S, map_app, rev_app_distr. simpl. do 2 f_equal. lia.
Qed.

End Years.

(** X1 -- [generate_years_list] lists the years from the end year down to
    the start year, one entry per year: entry [i] is the text of the end
    year minus [i], and the list is empty when the end year is before the
    start year. *)
Theorem years_list_descending (start_year end_year : Z) :
  length (generate_years_list start_year end_year)
  = Z.to_nat (end_year + 1 - start_year) /\
  forall i, i < length (generate_years_list start_year end_year) ->
            nth i (generate_years_list start_year end_year) EmptyString
            = str (end_year - Z.of_nat i).
Proof.
  unfold generate_years_list.
  set (n := Z.to_nat (end_year + 1 - start_year)).
  set (f := fun k => str (start_year + Z.of_nat k)).
  assert (Hlen : length (rev (map f (seq 0 n))) = n)
    by now rewrite length_rev, length_map, length_seq.
  split; [exact Hlen|].
  intros i Hi. rewrite Hlen in Hi.
  rewrite rev_nth by now rewrite length_map, length_seq.
  rewrite length_map, length_seq.
  rewrite (nth_indep _ EmptyString (f 0))
    by (rewrite length_map, length_seq; lia).
  rewrite map_nth, seq_nth by lia.
  unfold f. f_equal. lia.
Qed.

Lemma years_list_descending_witness :
  nth 1 (generate_years_list 2015 2025) EmptyString = str (2025 - Z.of_nat 1).
Proof.
  refine (proj2 (years_list_descending 2015 2025) 1 _).
  vm_compute. lia.
Defined.

(** X2 -- The fiscal year computed from the clock heads the year list built
    from it, followed by the previous fiscal year: from April on the fiscal
    year is the base year, before April the year before; the same holds
    for the second-quarter script. *)
Theorem fiscal_year_heads_years_list (base_year month : Z) :
  (START_YEAR + 1 < base_year)%Z ->
  (let '(year, last_year, current_year) := get_fiscal_years base_year month in
   current_year = (if (4 <=? month)%Z then base_year else base_year - 1)%Z /\
   year = str current_year /\
   exists rest,
     generate_years_list START_YEAR current_year = year :: last_year :: rest) /\
  (let '(processing_year, last_processing_year) :=
     Script2QStages._calculate_fiscal_years base_year month in
   exists rest,
     Script2QStages._generate_years_list processing_year
     = str processing_year :: str last_processing_year :: rest).
Proof.
  intros H. unfold START_YEAR in H. split.
  - unfold get_fiscal_years. destruct (4 <=? month)%Z.
    + split; [reflexivity|]. split; [reflexivity|].
      eexists. unfold START_YEAR.
      rewrite years_list_cons, years_list_cons by lia. reflexivity.
    + split; [reflexivity|]. split; [reflexivity|].
      eexists. unfold START_YEAR.
      rewrite years_list_cons, years_list_cons by lia. reflexivity.
  - unfold Script2QStages._calculate_fiscal_years.
    change Script2QStages._generate_years_list
      with (generate_years_list Script2QStages.START_YEAR_DATA).
    unfold Script2QStages.START_YEAR_DATA.
    destruct (4 <=? month)%Z; eexists;
      rewrite years_list_cons, years_list_cons by lia; reflexivity.
Qed.

Lemma fiscal_year_heads_years_list_witness :
  exists rest,
    generate_years_list START_YEAR 2024 = "2024" :: "2023" :: rest.
Proof.
  exact (proj2 (proj2 (proj1 (fiscal_year_heads_years_list 2025 2
                                 ltac:(vm_compute; reflexivity))))).
Defined.

(** ** More on null reconciliation *)

Section ReconciliationShape.

Lemma columns_drop (q : string) (df : DataFrame) :
  columns (drop q df) = filter (fun c => negb (c =? q)%string) (columns df).
Proof.
  unfold drop, columns. induction df as [|[c v] df IH]; simpl; [reflexivity|].
  destruct (c =? q)%string; simpl; now rewrite IH.
Qed.

Lemma has_column_drop_same (q : string) (df : DataFrame) :
  has_column q (drop q df) = false.
Proof.
  apply mem_false. rewrite columns_drop. intros H.
  apply filter_In in H as [_ H]. now rewrite String.eqb_refl in H.
Qed.

Lemma drop_past_column_absent (c q : string) (df : DataFrame) :
  has_column c df = false -> has_column c (drop_past_column df q) = false.
Proof.
  intros H. unfold drop_past_column.
  destruct (has_column q df); [|assumption].
  apply mem_false. rewrite columns_drop. intros Hin.
  apply filter_In in Hin as [Hin _]. apply mem_In in Hin.
  unfold has_column in H. congruence.
Qed.

Lemma drop_loop_drops (p : string) (l : list string) (df : DataFrame) :
  In p l -> has_column p (fold_left drop_past_column l df) = false.
Proof.
  revert df. induction l as [|q l IH]; intros df Hin; [contradiction|].
  simpl. destruct (in_dec string_dec p l) as [Hl | Hl]; [now apply IH|].
  destruct Hin as [-> | Hin]; [|contradiction].
  apply (fold_left_preserves drop_past_column
           (fun d => has_column p d = false)).
  - intros d q _ Hd. now apply drop_past_column_absent.
  - unfold drop_past_column. destruct (has_column p df) eqn:E;
      [apply has_column_drop_same | assumption].
Qed.

Lemma columns_with_column (c : string) (v : Series) (df : DataFrame) :
  columns (with_column c v df)
  = if has_column c df then columns df else columns df ++ [c].
Proof.
  unfold has_column, mem, columns.
  induction df as [|[c' v'] df IH]; simpl; [reflexivity|].
  rewrite (String.eqb_sym c c').
  destruct (c' =? c)%string eqn:E; simpl.
  - apply String.eqb_eq in E. now subst.
  - rewrite IH. now destruct (existsb (String.eqb c) (map fst df)).
Qed.

Lemma with_column_NoDup (c : string) (v : Series) (df : DataFrame) :
  NoDup (columns df) -> NoDup (columns (with_column c v df)).
Proof.
  intros H. rewrite columns_with_column.
  destruct (has_column c df) eqn:E; [assumption|].
  apply NoDup_app; [assumption | repeat constructor; auto |].
  intros x Hx [<- | []]. apply mem_false in E. contradiction.
Qed.

Lemma with_column_Forall (P : string * Series -> Prop) (c : string)
  (v : Series) (df : DataFrame) :
  Forall P df -> P (c, v) -> Forall P (with_column c v df).
Proof.
  intros H Hc. induction H as [|[c' v'] df Hp H IH]; simpl.
  - now constructor.
  - destruct (c' =? c)%string; constructor; auto.
Qed.

Lemma shaped_get (n : nat) (d : DataFrame) (c : string) (v : Series) :
  shaped n d -> get_column c d = Some v -> length v = n.
Proof.
  intros (_ & _ & H) Hc. apply get_column_In in Hc.
  rewrite Forall_forall in H. exact (H _ Hc).
Qed.

Lemma shaped_with_column (n : nat) (d : DataFrame) (c : string) (v : Series) :
  shaped n d -> length v = n -> shaped n (with_column c v d).
Proof.
  intros (Hne & Hnd & Hlen) Hv. split; [|split].
  - destruct d as [|[c' v'] d]; [contradiction|]. simpl.
    destruct (c' =? c)%string; discriminate.
  - now apply with_column_NoDup.
  - now apply with_column_Forall.
Qed.

Lemma shaped_lit_null (n : nat) (d : DataFrame) :
  shaped n d -> length (lit_null d) = n.
Proof.
  intros (Hne & _ & Hlen). destruct d as [|[c v] d]; [contradiction|].
  unfold lit_null. rewrite repeat_length. simpl.
  now inversion Hlen.
Qed.

Lemma fill_id_column_shaped (n : nat) (years : list string) (d : DataFrame)
  (q : string) :
  shaped n d -> shaped n (fill_id_column years d q).
Proof.
  intros H. unfold fill_id_column.
  destruct (negb _); [|assumption].
  destruct (get_column q d) as [p|] eqn:Eq; [|assumption].
  destruct (get_column (replace "_past" "" q) d) as [b|] eqn:Eb;
    apply shaped_with_column; try assumption.
  - rewrite when_null_then_length. eapply shaped_get; eassumption.
  - eapply shaped_get; eassumption.
Qed.

Lemma fix_year_column_shaped (n : nat) (cur y s : string) (d : DataFrame) :
  shaped n d -> shaped n (fix_year_column cur y d s).
Proof.
  intros H. unfold fix_year_column.
  destruct (y =? cur)%string.
  - destruct (has_column (y ++ s) d); [assumption|].
    apply shaped_with_column; [assumption | now apply shaped_lit_null].
  - destruct (get_column ((y ++ s) ++ "_past") d) as [p|] eqn:Ep.
    + destruct (get_column (y ++ s) d) as [b|] eqn:Eb;
        apply shaped_with_column; try assumption.
      * rewrite when_null_then_length. eapply shaped_get; eassumption.
      * eapply shaped_get; eassumption.
    + destruct (has_column (y ++ s) d); [assumption|].
      apply shaped_with_column; [assumption | now apply shaped_lit_null].
Qed.

Lemma fix_year_column_2Q_shaped (n : nat) (cur y s : string)
  (d : DataFrame) :
  shaped n d -> shaped n (Script2Q.fix_year_column cur y d s).
Proof.
  intros H. unfold Script2Q.fix_year_column.
  destruct (y =? cur)%string.
  - destruct (has_column (y ++ s) d); [assumption|].
    apply shaped_with_column; [assumption | now apply shaped_lit_null].
  - destruct (get_column ((y ++ s) ++ "_past") d) as [p|] eqn:Ep.
    + apply shaped_with_column; [assumption|].
      eapply shaped_get; eassumption.
    + destruct (has_column (y ++ s) d); [assumption|].
      apply shaped_with_column; [assumption | now apply shaped_lit_null].
Qed.

Lemma drop_past_column_rows (n : nat) (d : DataFrame) (q : string) :
  NoDup (columns d) /\ Forall (fun p => length (snd p) = n) d ->
  NoDup (columns (drop_past_column d q)) /\
  Forall (fun p => length (snd p) = n) (drop_past_column d q).
Proof.
  intros [Hnd Hlen]. unfold drop_past_column.
  destruct (has_column q d); [|auto]. split.
  - rewrite columns_drop. now apply NoDup_filter.
  - unfold drop. apply Forall_forall. intros x Hx.
    apply filter_In in Hx as [Hx _].
    rewrite Forall_forall in Hlen. auto.
Qed.

End ReconciliationShape.

(** X3 -- Null reconciliation keeps the table rectangular in both scripts:
    on a joined table with at least one column, distinct column names and
    columns of one length, the result again has distinct column names and
    every one of its columns has as many rows as the joined table. *)
Theorem reconciliation_keeps_shape (df : DataFrame) (years : list string)
  (cur : string) :
  df <> [] -> wf df ->
  (NoDup (columns (fix_full_join_nulls df years cur)) /\
   Forall (fun p => length (snd p) = height df)
          (fix_full_join_nulls df years cur)) /\
  (NoDup (columns (Script2Q._fix_full_join_nulls years cur df)) /\
   Forall (fun p => length (snd p) = height df)
          (Script2Q._fix_full_join_nulls years cur df)).
Proof.
  intros Hne [Hnd Hlen].
  assert (Hid : (fun d => d <> [] /\ NoDup (columns d) /\
                          Forall (fun p => length (snd p) = height df) d)
                  (fold_left (fill_id_column years) (past_columns df) df)).
  { apply fold_left_preserves; [|auto].
    intros d q _ Hd. now apply fill_id_column_shaped. }
  split.
  - unfold fix_full_join_nulls.
    apply (fold_left_preserves drop_past_column
             (fun d => NoDup (columns d) /\
                       Forall (fun p => length (snd p) = height df) d)).
    + intros d q _ Hd. now apply drop_past_column_rows.
    + apply (year_loop_preserves years cur fix_year_column
               (fun d => d <> [] /\ NoDup (columns d) /\
                         Forall (fun p => length (snd p) = height df) d))
        in Hid.
      * destruct Hid as (_ & H1 & H2). auto.
      * intros y s d _ _ Hd. now apply fix_year_column_shaped.
  - unfold Script2Q._fix_full_join_nulls.
    apply (fold_left_preserves drop_past_column
             (fun d => NoDup (columns d) /\
                       Forall (fun p => length (snd p) = height df) d)).
    + intros d q _ Hd. now apply drop_past_column_rows.
    + apply (year_loop_preserves years cur Script2Q.fix_year_column
               (fun d => d <> [] /\ NoDup (columns d) /\
                         Forall (fun p => length (snd p) = height df) d))
        in Hid.
      * destruct Hid as (_ & H1 & H2). auto.
      * intros y s d _ _ Hd. now apply fix_year_column_2Q_shaped.
Qed.

Lemma reconciliation_keeps_shape_witness :
  Forall (fun p => length (snd p) = 2)
         (fix_full_join_nulls Sample.joined_both Sample.years "2025").
Proof.
  refine (proj2 (proj1 (reconciliation_keeps_shape
                          Sample.joined_both Sample.years "2025" _ _))).
  - discriminate.
  - split.
    + repeat constructor; simpl; intuition discriminate.
    + repeat constructor.
Defined.

(** X4 -- Every [_past] column the joined table starts with is gone after
    null reconciliation, in both scripts: the shadow columns are never
    handed on. *)
Theorem shadows_dropped (df : DataFrame) (years : list string)
  (cur p : string) :
  In p (past_columns df) ->
  has_column p (fix_full_join_nulls df years cur) = false /\
  has_column p (Script2Q._fix_full_join_nulls years cur df) = false.
Proof.
  intros H. split.
  - unfold fix_full_join_nulls. now apply drop_loop_drops.
  - unfold Script2Q._fix_full_join_nulls. now apply drop_loop_drops.
Qed.

Lemma shadows_dropped_witness :
  has_column "2024売上_past"
             (fix_full_join_nulls Sample.joined_both Sample.years "2025")
  = false /\
  has_column "2024売上_past"
             (Script2Q._fix_full_join_nulls Sample.years "2025"
                                            Sample.joined_both)
  = false.
Proof.
  refine (shadows_dropped Sample.joined_both Sample.years "2025"
                          "2024売上_past" _).
  simpl. auto.
Defined.

(** X5 -- The null reconciliation of the second-quarter script leaves a
    table with the metric column of every listed year and every suffix that
    applies to it, whatever the joined table held. *)
Theorem reconciliation_2Q_complete (df : DataFrame) (years : list string)
  (cur : string) :
  complete years cur (Script2Q._fix_full_join_nulls years cur df).
Proof.
  intros y s Hy Hs. apply fix_full_join_nulls_2Q_complete; [assumption|].
  now apply applicable_suffix_iff.
Qed.

(** X6 -- Suffixing and stripping round-trip: for a column name without an
    underscore, removing [_past] from the suffixed name, as the first loop
    of null reconciliation does, gives the name back. *)
Theorem suffix_strip_round_trip (c : string) :
  no_underscore c = true ->
  replace "_past" "" (c ++ "_past")%string = c.
Proof.
  unfold replace. induction c as [|a c IH]; intros H; [reflexivity|].
  simpl in H. apply andb_true_iff in H as [Ha Hc].
  apply negb_true_iff, Ascii.eqb_neq in Ha.
  change (String a c ++ "_past")%string with (String a (c ++ "_past")%string).
  cbn [replace_from prefix].
  destruct (ascii_dec "_" a) as [E | _]; [congruence|].
  now rewrite IH.
Qed.

Lemma suffix_strip_round_trip_witness :
  replace "_past" "" ("2024売上" ++ "_past")%string = "2024売上".
Proof.
  refine (suffix_strip_round_trip "2024売上" _). reflexivity.
Defined.

Section IdentityFill.

Variables (years : list string) (df : DataFrame) (p base : string).
Variables (pv final : Series).

Lemma fill_id_column_writes (X q : string) (d : DataFrame) :
  X <> replace "_past" "" q ->
  get_column X (fill_id_column years d q) = get_column X d.
Proof.
  intros Hne. unfold fill_id_column.
  destruct (negb _); [|reflexivity].
  destruct (get_column q d); [|reflexivity].
  destruct (get_column (replace "_past" "" q) d);
    apply get_with_column_other; congruence.
Qed.

Hypothesis Hp : In p (past_columns df).
Hypothesis Hbase : replace "_past" "" p = base.
Hypothesis Hno_year : existsb (fun year => contains year base) years = false.
Hypothesis Hkept : endswith base "_past" = false.
Hypothesis Honly :
  forall q, In q (past_columns df) -> q <> p ->
            replace "_past" "" q <> base /\ replace "_past" "" q <> p.
Hypothesis Hpv : get_column p df = Some pv.
Hypothesis Hfinal :
  final = match get_column base df with
          | Some b => when_null_then b pv
          | None => pv
          end.

Lemma identity_final_idem : when_null_then final pv = final.
Proof.
  rewrite Hfinal. destruct (get_column base df).
  - apply when_null_then_idem.
  - apply when_null_then_self.
Qed.

Lemma base_not_shadow : base <> p.
Proof.
  intros E. apply past_columns_endswith in Hp. congruence.
Qed.

Lemma id_loop_fills :
  get_column base (fold_left (fill_id_column years) (past_columns df) df)
  = Some final.
Proof.
  pose proof base_not_shadow as Hbp.
  pose proof identity_final_idem as Hidem.
  set (P := fun d => get_column p d = Some pv /\
                     (get_column base d = get_column base df \/
                      get_column base d = Some final)).
  set (Q := fun d => get_column p d = Some pv /\
                     get_column base d = Some final).
  assert (Hat : forall d, P d -> Q (fill_id_column years d p)).
  { intros d [Hd1 Hd2]. split.
    - rewrite fill_id_column_writes; [assumption | congruence].
    - unfold fill_id_column. rewrite Hbase, Hno_year, Hd1. cbn [negb].
      destruct Hd2 as [Hd2 | Hd2]; rewrite Hd2.
      + rewrite Hfinal. destruct (get_column base df);
          apply get_with_column_same.
      + rewrite get_with_column_same. now rewrite Hidem. }
  assert (Hother : forall d q, In q (past_columns df) -> q <> p ->
                     get_column p (fill_id_column years d q) = get_column p d
                     /\ get_column base (fill_id_column years d q)
                        = get_column base d).
  { intros d q Hq Hne. destruct (Honly q Hq Hne) as [H1 H2].
    split; apply fill_id_column_writes; congruence. }
  enough (Q (fold_left (fill_id_column years) (past_columns df) df))
    as [_ H] by exact H.
  apply (fold_left_establishes (fill_id_column years) P Q p);
    try assumption.
  - intros d q Hq Hd. destruct (string_dec q p) as [-> | Hne].
    + destruct (Hat d Hd) as [H1 H2]. split; auto.
    + destruct (Hother d q Hq Hne) as [E1 E2].
      unfold P. rewrite E1, E2. exact Hd.
  - intros d q Hq Hd. destruct (string_dec q p) as [-> | Hne].
    + apply Hat. destruct Hd as [H1 H2]. split; auto.
    + destruct (Hother d q Hq Hne) as [E1 E2].
      unfold Q. rewrite E1, E2. exact Hd.
  - split; auto.
Qed.

Lemma base_not_metric (y s : string) : In y years -> (y ++ s)%string <> base.
Proof.
  intros Hy E. rewrite <- E, contains_year in Hno_year by assumption.
  discriminate.
Qed.

End IdentityFill.

(** X7 -- Identity columns are filled where null and otherwise kept, in
    both scripts: for a [_past] column whose stripped name carries none of
    the listed years (and is the only shadow stripping to that name), the
    column of the stripped name ends as its old values with the nulls taken
    from the shadow, or as the shadow itself when it did not exist.  This
    also holds for a metric column of a year outside the list. *)
Theorem identity_column_fill (years : list string) (cur : string)
  (df : DataFrame) (p base : string) (pv final : Series) :
  In p (past_columns df) ->
  replace "_past" "" p = base ->
  existsb (fun year => contains year base) years = false ->
  endswith base "_past" = false ->
  (forall q, In q (past_columns df) -> q <> p ->
             replace "_past" "" q <> base /\ replace "_past" "" q <> p) ->
  get_column p df = Some pv ->
  final = match get_column base df with
          | Some b => when_null_then b pv
          | None => pv
          end ->
  get_column base (fix_full_join_nulls df years cur) = Some final /\
  get_column base (Script2Q._fix_full_join_nulls years cur df) = Some final.
Proof.
  intros Hp Hbase Hno Hkept Honly Hpv Hfinal.
  pose proof (id_loop_fills years df p base pv final Hp Hbase Hno Hkept
                            Honly Hpv Hfinal) as Hid.
  split.
  - unfold fix_full_join_nulls. rewrite drop_loop_other by assumption.
    apply (year_loop_preserves years cur fix_year_column
             (fun d => get_column base d = Some final)); [|exact Hid].
    intros y s d Hy _ Hd. rewrite fix_year_column_other; [assumption|].
    now apply (base_not_metric years base Hno).
  - unfold Script2Q._fix_full_join_nulls.
    rewrite drop_loop_other by assumption.
    apply (year_loop_preserves years cur Script2Q.fix_year_column
             (fun d => get_column base d = Some final)); [|exact Hid].
    intros y s d Hy _ Hd. rewrite fix_year_column_2Q_other; [assumption|].
    now apply (base_not_metric years base Hno).
Qed.

Lemma identity_column_fill_witness :
  get_column "法人名"
             (fix_full_join_nulls Sample.joined_names Sample.years "2025")
  = Some [Txt "Alpha"; Txt "Beta"] /\
  get_column "法人名"
             (Script2Q._fix_full_join_nulls Sample.years "2025"
                                            Sample.joined_names)
  = Some [Txt "Alpha"; Txt "Beta"].
Proof.
  refine (identity_column_fill Sample.years "2025" Sample.joined_names
            "法人名_past" "法人名" [Txt "Alfa"; Txt "Beta"]
            [Txt "Alpha"; Txt "Beta"] _ _ _ _ _ _ _).
  - simpl. auto.
  - reflexivity.
  - reflexivity.
  - reflexivity.
  - intros q Hq H. simpl in Hq. destruct Hq as [<- | []].
    exfalso. apply H. reflexivity.
  - reflexivity.
  - reflexivity.
Defined.

(** ** The verifier *)

Section VerifierFacts.

Lemma In_dedup (x : string) (l : list string) : In x (dedup l) <-> In x l.
Proof.
  induction l as [|y l IH]; simpl; [tauto|].
  destruct (mem y l) eqn:E.
  - rewrite IH. split; [auto|]. intros [<- | H]; [now apply mem_In | assumption].
  - simpl. now rewrite IH.
Qed.

Lemma In_insert_sorted (x y : string) (l : list string) :
  In x (insert_sorted y l) <-> x = y \/ In x l.
Proof.
  induction l as [|z l IH]; simpl; [intuition|].
  destruct (String.leb y z); simpl; [intuition|].
  rewrite IH. intuition.
Qed.

Lemma In_sorted (x : string) (l : list string) : In x (sorted l) <-> In x l.
Proof.
  unfold sorted. induction l as [|y l IH]; simpl; [tauto|].
  rewrite In_insert_sorted, IH. intuition.
Qed.

Lemma diff_issue_spec (before after : Z) :
  diff_issue before after
  = if (Z.abs (after - before) <=? 100000)%Z then (false, 0)
    else if (1000000 <? Z.abs (after - before))%Z then (true, 1)
         else (false, 1).
Proof.
  unfold diff_issue.
  destruct (Z.eqb_spec after before) as [-> | Hne].
  - rewrite Z.sub_diag. reflexivity.
  - destruct (Z.ltb_spec 1000000 (Z.abs (after - before)));
      destruct (Z.leb_spec (Z.abs (after - before)) 100000);
      destruct (Z.ltb_spec 100000 (Z.abs (after - before)));
      try reflexivity; lia.
Qed.

Lemma consistency_issues_zero (t : Totals) :
  consistency_issues t = 0 <-> consistent t.
Proof.
  unfold consistency_issues, consistent.
  destruct (Z.eqb_spec (corporate t) (customer t));
    destruct (Z.eqb_spec (customer t) (customer_product t));
    destruct (Z.eqb_spec (corporate t) (customer_product t));
    simpl; split; intros H; try lia; try discriminate; intuition congruence.
Qed.

Lemma compare_column_ok (before_totals after_totals : Snapshot)
  (st : bool * nat) (col : string) :
  compare_column before_totals after_totals st col = (true, 0)
  <-> st = (true, 0) /\ column_passes before_totals after_totals col.
Proof.
  unfold compare_column, column_passes. destruct st as [v n].
  destruct (lookup_totals col after_totals) as [a|].
  - destruct (lookup_totals col before_totals) as [b|].
    + cbn [fold_left fst snd]. rewrite !diff_issue_spec.
      pose proof (consistency_issues_zero a) as Hc.
      unfold within_tolerance.
      destruct (Z.leb_spec (Z.abs (corporate a - corporate b)) 100000);
      destruct (Z.leb_spec (Z.abs (customer a - customer b)) 100000);
      destruct (Z.leb_spec (Z.abs (customer_product a - customer_product b))
                           100000);
      destruct (Nat.ltb_spec 0 (consistency_issues a));
      repeat match goal with
             | |- context [if ?c then _ else _] => destruct c
             end;
      cbn [fst snd negb andb]; rewrite ?andb_true_r, ?andb_false_r;
      (split;
       [ intros [= -> Hn]
       | intros [[= -> ->] (a' & [= <-] & Hcons & Htol)] ]);
      try (specialize (Htol b eq_refl)); try lia.
      all: try (exfalso; apply Hc in Hcons; lia).
      all: try (replace n with 0 by lia).
      all: try reflexivity.
      all: split; [reflexivity|]; exists a; split; [reflexivity|];
        split; [apply Hc; lia|]; intros b' [= <-]; lia.
    + pose proof (consistency_issues_zero a) as Hc.
      destruct (Nat.ltb_spec 0 (consistency_issues a)); split.
      * discriminate.
      * intros [_ (a' & [= <-] & Hcons & _)]. apply Hc in Hcons. lia.
      * intros [= -> ->]. split; [reflexivity|]. exists a.
        split; [reflexivity|]. split; [apply Hc; lia|]. discriminate.
      * intros [E _]. exact E.
  - split; [discriminate|]. intros [_ (a' & E & _)]. discriminate.
Qed.

Lemma fold_compare_ok (before_totals after_totals : Snapshot)
  (l : list string) (st : bool * nat) :
  fold_left (compare_column before_totals after_totals) l st = (true, 0)
  <-> st = (true, 0) /\
      forall col, In col l -> column_passes before_totals after_totals col.
Proof.
  revert st. induction l as [|x l IH]; intros st; simpl.
  - intuition.
  - rewrite IH, compare_column_ok. split.
    + intros [[H1 H2] H3]. split; [assumption|].
      intros col [<- | Hin]; auto.
    + intros [H1 H2]. auto.
Qed.

End VerifierFacts.

(** X8 -- [compare_totals] passes exactly when there is a column to check
    and every column of either snapshot is in the snapshot taken after the
    merge, has the same total in the three tables there, and, if it was in
    the snapshot taken before, has moved by at most 100,000 in each table:
    smaller differences are logged only, and two empty snapshots fail. *)
Theorem compare_totals_passes_iff (before_totals after_totals : Snapshot) :
  compare_totals before_totals after_totals = true
  <-> (before_totals <> [] \/ after_totals <> []) /\
      forall col, In col (map fst before_totals ++ map fst after_totals) ->
                  column_passes before_totals after_totals col.
Proof.
  unfold compare_totals.
  set (keys := map fst before_totals ++ map fst after_totals).
  destruct (dedup keys) as [|k ks] eqn:E.
  - split; [discriminate|]. intros [Hne _]. exfalso.
    assert (keys <> []) as Hk.
    { unfold keys. destruct Hne as [H | H].
      - destruct before_totals; [contradiction | discriminate].
      - destruct after_totals; [contradiction|].
        intros H'. apply app_eq_nil in H' as [_ H']. discriminate. }
    destruct keys as [|x keys']; [contradiction|].
    assert (In x (dedup (x :: keys'))) as Hin by (apply In_dedup; now left).
    rewrite E in Hin. contradiction.
  - rewrite <- E.
    destruct (fold_left _ _ _) as [v n] eqn:F.
    assert (v && Nat.eqb n 0 = true <-> (v, n) = (true, 0)) as ->.
    { destruct v, n; simpl; split; intros H; congruence. }
    rewrite <- F, fold_compare_ok. split.
    + intros [_ H]. split.
      * destruct before_totals as [|b bs]; [|left; discriminate].
        destruct after_totals as [|a' as']; [|right; discriminate].
        discriminate E.
      * intros col Hin. apply H. now apply In_sorted, In_dedup.
    + intros [_ H]. split; [reflexivity|].
      intros col Hin. apply H. now apply In_dedup, In_sorted.
Qed.

Lemma compare_totals_passes_iff_witness :
  compare_totals
    [("2025売上", mkTotals 100 100 40)]
    (validate_data_totals Sample.final_corporate Sample.final_customer
                          Sample.final_product) = true.
Proof.
  refine (proj2 (compare_totals_passes_iff _ _) _).
  split; [left; discriminate|].
  intros col [<- | [<- | []]];
    (exists (mkTotals 100 100 100); split; [reflexivity|];
     split; [split; reflexivity|];
     intros before [= <-]; unfold within_tolerance; simpl; lia).
Defined.

Section SnapshotFacts.

Lemma lookup_flat_map (f : string -> list (string * Totals))
  (l : list string) (col : string) (t : Totals) :
  (forall c, f c = [] \/ exists v, f c = [(c, v)]) ->
  lookup_totals col (flat_map f l) = Some t
  <-> In col l /\ f col = [(col, t)].
Proof.
  intros Hf. induction l as [|x l IH]; simpl.
  - split; [discriminate | intros [[] _]].
  - destruct (Hf x) as [E | [v E]]; rewrite E; simpl.
    + rewrite IH. split.
      * intros [H1 H2]. auto.
      * intros [[-> | H1] H2]; [congruence | auto].
    + destruct (String.eqb_spec x col) as [-> | Hne].
      * split.
        -- intros [= ->]. auto.
        -- intros [_ H]. congruence.
      * rewrite IH. split.
        -- intros [H1 H2]. auto.
        -- intros [[-> | H1] H2]; [contradiction | auto].
Qed.

End SnapshotFacts.

(** X9 -- A totals snapshot holds exactly the revenue columns (names ending
    in 売上) that all three tables have, each with the three column sums,
    and nothing when the corporate table has no rows: area, gross-margin
    and quantity columns are never part of the verification. *)
Theorem snapshot_lookup (df1 df2 df3 : DataFrame) (col : string)
  (t : Totals) :
  lookup_totals col (validate_data_totals df1 df2 df3) = Some t
  <-> is_empty df1 = false /\
      endswith col "売上" = true /\
      column_sum col df1 = Some (corporate t) /\
      column_sum col df2 = Some (customer t) /\
      column_sum col df3 = Some (customer_product t).
Proof.
  unfold validate_data_totals.
  destruct (is_empty df1).
  - split; [discriminate | intros [H _]; discriminate].
  - rewrite lookup_flat_map.
    + rewrite In_sorted, filter_In. split.
      * intros [[Hin He] Hf].
        destruct (column_sum col df1), (column_sum col df2),
          (column_sum col df3); try discriminate.
        injection Hf as <-. simpl. auto.
      * intros (_ & He & H1 & H2 & H3). rewrite H1, H2, H3.
        split; [|destruct t; reflexivity].
        split; [|assumption]. apply has_column_In, has_column_get.
        unfold column_sum in H1.
        destruct (get_column col df1); [eauto | discriminate].
    + intros c. destruct (column_sum c df1), (column_sum c df2),
        (column_sum c df3); eauto.
Qed.

Lemma snapshot_lookup_witness :
  lookup_totals "2025売上"
    (validate_data_totals Sample.final_corporate Sample.final_customer
                          Sample.final_product)
  = Some (mkTotals 100 100 100).
Proof.
  refine (proj2 (snapshot_lookup _ _ _ _ _) _).
  repeat split; reflexivity.
Defined.

(** ** The column order *)

Section ColumnOrder.

Lemma int_str (z : Z) : int (str z) = Some z.
Proof.
  unfold int, str. rewrite NilZero.isi.
  - simpl. now rewrite DecimalZ.of_to.
  - destruct z; simpl; try discriminate.
    intros [= H]. now apply Unsigned.to_uint_nonnil in H.
  - destruct z; simpl; try discriminate.
    intros [= H]. now apply Unsigned.to_uint_nonnil in H.
Qed.

Lemma str_inj (a b : Z) : str a = str b -> a = b.
Proof.
  intros H. apply (f_equal int) in H. rewrite !int_str in H. congruence.
Qed.

Lemma get_year_cols_sound (years base_cols : list string) (year : string)
  (cols ycs : list string) :
  get_year_cols years base_cols year cols = Some ycs ->
  forall c, In c ycs ->
            existsb (fun y => contains y c) years = true /\
            mem c base_cols = false /\
            exists n, int year = Some n /\
                      endswith c (str (n - 1) ++ "売上数")%string = false.
Proof.
  revert ycs. induction cols as [|col cols IH]; intros ycs H c Hin.
  - injection H as <-. contradiction.
  - cbn [get_year_cols] in H.
    destruct (existsb (fun y => contains y col) years) eqn:Ey.
    + destruct (int year) as [n|] eqn:En; [|discriminate].
      cbn [bind] in H.
      destruct (get_year_cols years base_cols year cols) as [rest|];
        [|discriminate].
      cbn [bind] in H. injection H as <-.
      destruct (endswith col _) eqn:Ee; cbn [negb andb] in Hin.
      * now apply (IH rest eq_refl).
      * destruct (mem col base_cols) eqn:Em; cbn [negb] in Hin.
        -- now apply (IH rest eq_refl).
        -- destruct Hin as [<- | Hin]; [|now apply (IH rest eq_refl)].
           repeat split; try assumption. exists n. auto.
    + cbn [bind] in H.
      destruct (get_year_cols years base_cols year cols) as [rest|];
        [|discriminate].
      cbn [bind] in H. injection H as <-. now apply (IH rest eq_refl).
Qed.


Lemma safe_select_cases (df out : DataFrame) (cols : list string) :
  safe_select df cols = Some out ->
  (out = df /\ forall c, In c cols -> has_column c df = false) \/
  (forall c, has_column c out = true -> In c cols).
Proof.
  unfold safe_select. intros H.
  destruct (filter (fun col => has_column col df) cols) as [|c0 l] eqn:E.
  - injection H as <-. left. split; [reflexivity|]. intros c Hc.
    destruct (has_column c df) eqn:Ec; [|reflexivity].
    assert (Hin : In c (filter (fun col => has_column col df) cols))
      by (apply filter_In; auto).
    rewrite E in Hin. contradiction.
  - right. unfold select in H. destruct (nodupb (c0 :: l)); [|discriminate].
    intros c Hc. apply has_column_get in Hc as [v Hv].
    apply get_column_In in Hv.
    destruct (select_columns_sound _ _ _ H c v Hv) as [Hin _].
    rewrite <- E in Hin. now apply filter_In in Hin.
Qed.

(** A column that carries a year and is not taken is a base column or the
    quantity column of the year before. *)
Lemma get_year_cols_complete (years base_cols : list string) (year : string)
  (cols ycs : list string) :
  get_year_cols years base_cols year cols = Some ycs ->
  forall c, In c cols ->
            existsb (fun y => contains y c) years = true ->
            In c ycs \/ In c base_cols \/
            exists n, int year = Some n /\
                      endswith c (str (n - 1) ++ "売上数")%string = true.
Proof.
  revert ycs. induction cols as [|col cols IH]; intros ycs H c Hin Hc;
    [contradiction|].
  cbn [get_year_cols] in H.
  destruct (existsb (fun y => contains y col) years) eqn:Ey.
  - destruct (int year) as [n|] eqn:En; [|discriminate].
    cbn [bind] in H.
    destruct (get_year_cols years base_cols year cols) as [rest|];
      [|discriminate].
    cbn [bind] in H. injection H as <-.
    destruct Hin as [-> | Hin].
    + destruct (endswith c _) eqn:Ee; cbn [negb andb]; [eauto|].
      destruct (mem c base_cols) eqn:Em; cbn [negb].
      * right. left. now apply mem_In.
      * left. now left.
    + destruct (IH rest eq_refl c Hin Hc) as [Hr | Hr]; [|auto].
      left. destruct (negb _ && negb _); [now right | assumption].
  - cbn [bind] in H.
    destruct (get_year_cols years base_cols year cols) as [rest|];
      [|discriminate].
    cbn [bind] in H. injection H as <-.
    destruct Hin as [-> | Hin]; [congruence|].
    now apply (IH rest eq_refl).
Qed.

Lemma nothing_selected (years base base' all_base : list string)
  (year : string) (df : DataFrame) (ycs : list string) :
  (forall c, In c base' -> has_column c df = true -> In c base) ->
  get_year_cols years all_base year (columns df) = Some ycs ->
  (forall c, In c (base ++ ycs) -> has_column c df = false) ->
  nothing_to_select base' all_base years year df.
Proof.
  intros Hbase Hyc Hnone c Hc. split.
  - intros Hin. apply Hbase in Hin; [|assumption].
    rewrite Hnone in Hc by (apply in_or_app; now left). discriminate.
  - intros Hy.
    destruct (get_year_cols_complete _ _ _ _ _ Hyc c
                (proj1 (has_column_In c df) Hc) Hy) as [Hin | Hin];
      [|assumption].
    rewrite Hnone in Hc by (apply in_or_app; now right). discriminate.
Qed.

Lemma selected_from_safe_select (years base base' all_base : list string)
  (year : string) (df out : DataFrame) (ycs : list string) :
  incl base base' ->
  (forall c, In c base' -> has_column c df = true -> In c base) ->
  get_year_cols years all_base year (columns df) = Some ycs ->
  safe_select df (base ++ ycs) = Some out ->
  selected_from base' all_base years year df out.
Proof.
  intros Hincl Hbase Hyc Hsel.
  destruct (safe_select_sound _ _ _ Hsel) as [Hdata _].
  split; [exact Hdata|].
  destruct (safe_select_cases _ _ _ Hsel) as [[-> Hnone] | Hcols].
  - left. split; [reflexivity|]. eapply nothing_selected; eassumption.
  - right. intros c Hc.
    apply Hcols, in_app_or in Hc as [Hc | Hc]; [left; auto|].
    right. now destruct (get_year_cols_sound _ _ _ _ _ Hyc c Hc).
Qed.

End ColumnOrder.

(** X10 -- [reorder_columns] only selects: every column of a table it
    returns is a column of the table it was given, with the same data.
    The table comes back as it is only when nothing of it can be selected
    (it has none of its base columns, and its columns that carry a year
    are base columns of the three tables or the previous year's quantity
    column); otherwise each column of the result is a base column of that
    table or carries one of the listed years, so the [_right] key columns
    left by the join are dropped here. *)
Theorem reorder_columns_only_selects (df1 df2 df3 o1 o2 o3 : DataFrame)
  (year : string) (years : list string) :
  reorder_columns df1 df2 df3 year years = Some (o1, o2, o3) ->
  selected_from (base_cols_df1 year) (all_base_cols year df3) years year
                df1 o1 /\
  selected_from (base_cols_df2 year) (all_base_cols year df3) years year
                df2 o2 /\
  selected_from (potential_base_cols_df3 year) (all_base_cols year df3)
                years year df3 o3.
Proof.
  intros H.
  destruct (reorder_columns_inv _ _ _ _ _ _ _ _ H)
    as (yc1 & yc2 & yc3 & Y1 & Y2 & Y3 & S1 & S2 & S3).
  split; [|split].
  - eapply selected_from_safe_select; [| |exact Y1 | exact S1];
      [apply incl_refl | auto].
  - eapply selected_from_safe_select; [| |exact Y2 | exact S2];
      [apply incl_refl | auto].
  - eapply selected_from_safe_select; [| |exact Y3 | exact S3].
    + intros c Hc. now apply filter_In in Hc.
    + intros c Hc Hhas. apply filter_In. auto.
Qed.

Lemma reorder_columns_only_selects_witness :
  exists o1 o2 o3,
    reorder_columns Sample2.merged_corporate Sample2.merged_customer
                    Sample2.merged_product (str 2025) Sample.years
    = Some (o1, o2, o3) /\
    selected_from (base_cols_df1 (str 2025))
                  (all_base_cols (str 2025) Sample2.merged_product)
                  Sample.years (str 2025) Sample2.merged_corporate o1.
Proof.
  eexists _, _, _. split; [vm_compute; reflexivity|].
  refine (proj1 (reorder_columns_only_selects
                   Sample2.merged_corporate Sample2.merged_customer
                   Sample2.merged_product _ _ _ (str 2025) Sample.years _)).
  vm_compute. reflexivity.
Defined.

Section PreviousQuantity.

Lemma quantity_not_selected (years base base' all_base : list string)
  (n : Z) (df out : DataFrame) (ycs : list string) :
  (forall c, In c base ->
             In c protected_keys \/ c = (str n ++ "売上数")%string) ->
  (forall c, In c base' -> has_column c df = true -> In c base) ->
  get_year_cols years all_base (str n) (columns df) = Some ycs ->
  safe_select df (base ++ ycs) = Some out ->
  (out = df /\ nothing_to_select base' all_base years (str n) df) \/
  has_column (str (n - 1) ++ "売上数")%string out = false.
Proof.
  intros Hbase Hbase' Hyc Hsel.
  destruct (safe_select_cases _ _ _ Hsel) as [[-> Hnone] | Hcols].
  { left. split; [reflexivity|]. eapply nothing_selected; eassumption. }
  right.
  destruct (has_column _ out) eqn:E; [|reflexivity]. exfalso.
  assert (Hq : In "売上数" metric_suffixes)
    by (unfold metric_suffixes; simpl; auto).
  apply Hcols, in_app_or in E as [E | E].
  - apply Hbase in E as [E | E].
    + now apply (metric_name_not_protected _ _ Hq) in E.
    + apply string_app_inv_tail, str_inj in E. lia.
  - destruct (get_year_cols_sound _ _ _ _ _ Hyc _ E)
      as (_ & _ & m & Hm & He).
    rewrite int_str in Hm. injection Hm as <-.
    pose proof (endswith_app EmptyString (str (n - 1) ++ "売上数")) as H.
    simpl in H. congruence.
Qed.

End PreviousQuantity.

(** X11 -- [reorder_columns], called with the text of the current year,
    never keeps the previous year's quantity column in a table it has
    selected from: each table it returns has no such column, unless
    nothing of the table could be selected and it comes back as it is. *)
Theorem previous_year_quantity_dropped (df1 df2 df3 o1 o2 o3 : DataFrame)
  (n : Z) (years : list string) :
  reorder_columns df1 df2 df3 (str n) years = Some (o1, o2, o3) ->
  ((o1 = df1 /\
    nothing_to_select (base_cols_df1 (str n)) (all_base_cols (str n) df3)
                      years (str n) df1) \/
   has_column (str (n - 1) ++ "売上数")%string o1 = false) /\
  ((o2 = df2 /\
    nothing_to_select (base_cols_df2 (str n)) (all_base_cols (str n) df3)
                      years (str n) df2) \/
   has_column (str (n - 1) ++ "売上数")%string o2 = false) /\
  ((o3 = df3 /\
    nothing_to_select (potential_base_cols_df3 (str n))
                      (all_base_cols (str n) df3) years (str n) df3) \/
   has_column (str (n - 1) ++ "売上数")%string o3 = false).
Proof.
  intros H.
  destruct (reorder_columns_inv _ _ _ _ _ _ _ _ H)
    as (yc1 & yc2 & yc3 & Y1 & Y2 & Y3 & S1 & S2 & S3).
  split; [|split].
  - eapply quantity_not_selected; [| |exact Y1 | exact S1]; [|auto].
    intros c Hc. unfold protected_keys. simpl in *. intuition.
  - eapply quantity_not_selected; [| |exact Y2 | exact S2]; [|auto].
    intros c Hc. unfold protected_keys. simpl in *. intuition.
  - eapply quantity_not_selected; [| |exact Y3 | exact S3].
    + intros c Hc. apply filter_In in Hc as [Hc _].
      unfold protected_keys. simpl in *. intuition.
    + intros c Hc Hhas. apply filter_In. auto.
Qed.

Lemma previous_year_quantity_dropped_witness :
  exists o1 o2 o3,
    reorder_columns Sample2.corporate_old_quantity Sample2.merged_customer
                    Sample2.merged_product (str 2025) Sample.years
    = Some (o1, o2, o3) /\
    ((o1 = Sample2.corporate_old_quantity /\
      nothing_to_select (base_cols_df1 (str 2025))
                        (all_base_cols (str 2025) Sample2.merged_product)
                        Sample.years (str 2025)
                        Sample2.corporate_old_quantity) \/
     has_column (str (2025 - 1) ++ "売上数")%string o1 = false).
Proof.
  eexists _, _, _. split; [vm_compute; reflexivity|].
  refine (proj1 (previous_year_quantity_dropped
                   Sample2.corporate_old_quantity Sample2.merged_customer
                   Sample2.merged_product _ _ _ 2025 Sample.years _)).
  vm_compute. reflexivity.
Defined.

(** ** The zero filter of the second-quarter script *)

Section ZeroFilter.









End ZeroFilter.



(** ** The column order of the second-quarter script *)

Section CanonicalOrder.

Lemma years_list_NoDup (start_year end_year : Z) :
  NoDup (generate_years_list start_year end_year).
Proof.
  unfold generate_years_list. apply NoDup_rev.
  apply Injective_map_NoDup; [|apply seq_NoDup].
  intros a b H. apply str_inj in H. lia.
Qed.

Lemma expected_columns_In (years : list string) (cur c : string) :
  In c (expected_columns years cur)
  <-> exists y s, In y years /\ In s (year_suffixes y cur)
                  /\ c = (y ++ s)%string.
Proof.
  unfold expected_columns. rewrite in_flat_map. split.
  - intros [y [Hy H]]. apply in_map_iff in H as [s [<- Hs]]. eauto.
  - intros (y & s & Hy & Hs & ->). exists y. split; [assumption|].
    apply in_map_iff. eauto.
Qed.

Lemma string_app_inv_head (y a b : string) :
  (y ++ a)%string = (y ++ b)%string -> a = b.
Proof.
  induction y as [|x y IH]; simpl; intros H; [assumption|].
  injection H as H. auto.
Qed.

Lemma year_suffixes_NoDup (y cur : string) : NoDup (year_suffixes y cur).
Proof.
  unfold year_suffixes.
  destruct (y =? cur)%string; repeat constructor; simpl;
    intuition discriminate.
Qed.

Lemma expected_columns_NoDup (years : list string) (cur : string) :
  NoDup years -> NoDup (expected_columns years cur).
Proof.
  induction 1 as [|y years Hy Hnd IH]; [constructor|].
  change (expected_columns (y :: years) cur)
    with (map (fun suffix => (y ++ suffix)%string) (year_suffixes y cur)
          ++ expected_columns years cur).
  apply NoDup_app; [| exact IH |].
  - apply Injective_map_NoDup; [|apply year_suffixes_NoDup].
    intros a b H. now apply string_app_inv_head in H.
  - intros c Hc Hc'. apply in_map_iff in Hc as [s [<- Hs]].
    apply expected_columns_In in Hc' as (y' & s' & Hy' & Hs' & E).
    apply metric_name_inj in E as [-> _];
      eauto using year_suffixes_metric.
Qed.

Lemma expected_not_protected (years : list string) (cur c : string) :
  In c (expected_columns years cur) -> ~ In c protected_keys.
Proof.
  intros H. apply expected_columns_In in H as (y & s & _ & Hs & ->).
  apply metric_name_not_protected. eauto using year_suffixes_metric.
Qed.

Lemma select_columns_total (names : list string) (df : DataFrame) :
  (forall c, In c names -> has_column c df = true) ->
  exists out, select_columns names df = Some out.
Proof.
  induction names as [|c names IH]; intros H; simpl; [eauto|].
  destruct (proj1 (has_column_get c df) (H c (or_introl eq_refl))) as [s ->].
  destruct IH as [rest ->]; [intros x Hx; apply H; now right|]. eauto.
Qed.

Lemma filter_filter_same {A : Type} (f : A -> bool) (l : list A) :
  filter f (filter f l) = filter f l.
Proof.
  induction l as [|x l IH]; [reflexivity|]. simpl.
  destruct (f x) eqn:E; simpl; [rewrite E|]; now rewrite IH.
Qed.

Lemma reorder_table_canonical (key_cols years : list string) (cur : string)
  (df : DataFrame) :
  NoDup key_cols -> incl key_cols protected_keys -> NoDup years ->
  exists out,
    Script2QStages.reorder_table key_cols years cur df = Some out /\
    canonical key_cols years cur df out.
Proof.
  intros Hk Hp Hy. unfold Script2QStages.reorder_table, canonical.
  unfold Script2QStages.generate_year_columns.
  rewrite !filter_app, filter_filter_same, <- filter_app.
  set (names := filter (fun col => has_column col df)
                       (key_cols ++ expected_columns years cur)).
  assert (Hnd : NoDup names).
  { apply NoDup_filter, NoDup_app; auto using expected_columns_NoDup.
    intros c Hc Hc'. apply (expected_not_protected _ _ _ Hc'). auto. }
  unfold select. rewrite (proj2 (nodupb_NoDup names) Hnd).
  destruct (select_columns_total names df) as [out Hout].
  { intros c Hc. unfold names in Hc. now apply filter_In in Hc. }
  exists out. split; [assumption|]. split.
  - now apply (select_columns_columns names df).
  - intros c Hc. apply has_column_get in Hc as [s Hs]. rewrite Hs.
    symmetry. apply get_column_In in Hs.
    exact (proj2 (select_columns_sound names df out Hout c s Hs)).
Qed.

End CanonicalOrder.

(** X13 -- The column order of the second-quarter script never fails and
    is canonical: for the year list the script builds, each table comes
    back with exactly those of its key columns and yearly metric columns
    that it has, keys first, then the metric columns from the newest year
    down, each with its data unchanged; every other column is dropped. *)
Theorem reorder_columns_2Q_canonical (processing_year : Z)
  (d1 d2 d3 : DataFrame) :
  let years := Script2QStages._generate_years_list processing_year in
  let cur := str processing_year in
  exists o1 o2 o3,
    Script2QStages.reorder_columns years cur d1 d2 d3 = Some (o1, o2, o3) /\
    canonical ["法人コード"; "法人名"] years cur d1 o1 /\
    canonical ["得意先コード"; "得意先名"] years cur d2 o2 /\
    canonical ["営業所名"; "得意先コード"; "得意先名"; "第1階層";
               "商品コード"; "商品名"] years cur d3 o3.
Proof.
  intros years cur.
  assert (Hy : NoDup years) by apply years_list_NoDup.
  unfold Script2QStages.reorder_columns.
  destruct (reorder_table_canonical ["法人コード"; "法人名"] years cur d1)
    as [o1 [-> C1]]; auto.
  { repeat constructor; simpl; intuition discriminate. }
  { intros c Hc. unfold protected_keys. simpl in *. intuition. }
  destruct (reorder_table_canonical ["得意先コード"; "得意先名"] years cur d2)
    as [o2 [-> C2]]; auto.
  { repeat constructor; simpl; intuition discriminate. }
  { intros c Hc. unfold protected_keys. simpl in *. intuition. }
  destruct (reorder_table_canonical
              ["営業所名"; "得意先コード"; "得意先名"; "第1階層";
               "商品コード"; "商品名"] years cur d3)
    as [o3 [-> C3]]; auto.
  { repeat constructor; simpl; intuition discriminate. }
  { intros c Hc. unfold protected_keys. simpl in *. intuition. }
  exists o1, o2, o3. auto.
Qed.

(** ** Type conversion *)

Section Casting.

Lemma columns_cast_column (col : string) (df : DataFrame) :
  columns (cast_column col df) = columns df.
Proof.
  unfold cast_column. destruct (get_column col df) as [s|] eqn:E;
    [|reflexivity].
  rewrite columns_with_column.
  now rewrite (proj2 (has_column_get col df) (ex_intro _ s E)).
Qed.

Lemma get_cast_column (col c : string) (df : DataFrame) :
  get_column c (cast_column col df)
  = if (col =? c)%string then option_map (map cast_utf8) (get_column c df)
    else get_column c df.
Proof.
  unfold cast_column. destruct (String.eqb_spec col c) as [-> | Hne].
  - destruct (get_column c df) as [s|] eqn:E; [|now rewrite E].
    now rewrite get_with_column_same.
  - destruct (get_column col df); [|reflexivity].
    now apply get_with_column_other.
Qed.

Lemma cast_columns_casted (d : DataFrame) :
  casted d (cast_column "商品コード"
              (cast_column "得意先コード" (cast_column "法人コード" d))).
Proof.
  split; [now rewrite !columns_cast_column|].
  intros c. rewrite !get_cast_column. unfold CODE_COLUMNS, mem.
  cbn [existsb]. rewrite !(String.eqb_sym c).
  destruct ("法人コード" =? c)%string eqn:E1;
    destruct ("得意先コード" =? c)%string eqn:E2;
    destruct ("商品コード" =? c)%string eqn:E3; cbn [orb];
    try reflexivity; exfalso;
    repeat match goal with
           | H : (_ =? _)%string = true |- _ => apply String.eqb_eq in H
           end; congruence.
Qed.

End Casting.

(** X14 -- [convert_data_types] touches the code columns only: each
    table keeps its column names and their order, the cells of 法人コード,
    得意先コード and 商品コード become text (a number its decimal text, a
    null stays null), and every other column is returned as it was. *)
Theorem convert_data_types_casts_codes (df1 df2 df3 : DataFrame) :
  let '(o1, o2, o3) := convert_data_types df1 df2 df3 in
  casted df1 o1 /\ casted df2 o2 /\ casted df3 o3.
Proof.
  unfold convert_data_types, CODE_COLUMNS. cbn [fold_left].
  auto using cast_columns_casted.
Qed.

(** ** The master merge *)

(** X15 -- With a master table whose codes are unique, [merge_with_master]
    succeeds and changes nothing but the name column: the result is the
    corporate table with 法人名 set to its old names, the nulls among them
    (or all of them, when the table had no name column) filled with the
    name the master has for the row's code, and null where the code is
    null or unknown to the master.  Rows are neither added nor lost. *)
Theorem master_merge_fills_names (df1 master : DataFrame)
  (code mcode mname : Series) :
  wf df1 -> wf master ->
  get_column "法人コード" df1 = Some code ->
  has_column "法人名_new" df1 = false ->
  get_column "法人コード" master = Some mcode ->
  get_column "法人名" master = Some mname ->
  unique_keys ["法人コード"] master = true ->
  exists fill,
    merge_with_master df1 master
    = Some (with_column "法人名"
              (match get_column "法人名" df1 with
               | Some name => coalesce name fill
               | None => fill
               end) df1) /\
    length fill = height df1 /\
    forall i, i < height df1 ->
      (forall j, j < height master ->
                 nth i code Null <> Null ->
                 nth j mcode Null = nth i code Null ->
                 nth i fill Null = nth j mname Null) /\
      ((nth i code Null = Null \/
        forall j, j < height master -> nth j mcode Null <> nth i code Null) ->
       nth i fill Null = Null).
Proof.
  intros Hwf Hwfm Hcode Hnew Hmcode Hmname Huniq.
  set (n := height df1). set (m := height master).
  set (M := fun i j => keys_match (row_key [code] i) (row_key [mcode] j)).
  set (look := fun i => hd_error (filter (M i) (seq 0 m))).
  set (fill := map (fun i => match look i with
                             | Some j => nth j mname Null
                             | None => Null
                             end) (seq 0 n)).
  assert (Hlm : length mcode = m) by now apply (wf_get_length master "法人コード").
  assert (Hkm : key_columns ["法人コード"] master = Some [mcode])
    by (simpl; now rewrite Hmcode).
  assert (HU : forall j j', In j (seq 0 m) -> In j' (seq 0 m) ->
                 keys_match (row_key [mcode] j) (row_key [mcode] j') = true ->
                 j = j')
    by exact (unique_keys_inv _ _ _ Huniq Hkm).
  exists fill. split; [|split].
  - unfold merge_with_master, select. cbn [nodupb mem existsb negb andb].
    cbn [String.eqb Ascii.eqb Bool.eqb andb negb orb].
    cbn [select_columns]. rewrite Hmcode, Hmname. cbn [bind].
    unfold join_left. cbn [key_columns]. rewrite Hcode.
    cbn [get_column String.eqb Ascii.eqb Bool.eqb andb].
    cbn [height]. rewrite Hlm. fold n.
    rewrite left_pairs_unique by exact HU.
    rewrite !map_map. cbn [fst snd].
    change (map (fun x : nat => Some x) (seq 0 n)) with (map Some (seq 0 n)).
    rewrite take_all_frame by (destruct Hwf; assumption).
    cbn [filter fst mem existsb String.eqb Ascii.eqb Bool.eqb andb negb orb
         map snd].
    assert (Hfill :
              take mname
                (map (fun x =>
                        hd_error
                          (filter (fun j => keys_match (row_key [code] x)
                                                       (row_key [mcode] j))
                                  (seq 0 m)))
                     (seq 0 n)) = fill)
      by (unfold fill, take; rewrite map_map; reflexivity).
    rewrite Hfill. clear Hfill.
    destruct (get_column "法人名" df1) as [name|] eqn:Hname.
    + assert (Hhas : has_column "法人名" df1 = true)
        by (apply has_column_get; eauto).
      assert (Hrn : right_name "_new" df1 "法人名" = "法人名_new")
        by (unfold right_name; now rewrite Hhas).
      rewrite Hrn.
      assert (Hnd : nodupb (columns (df1 ++ [("法人名_new", fill)])) = true).
      { apply nodupb_NoDup. unfold columns. rewrite map_app.
        apply NoDup_app; [apply Hwf | repeat constructor; auto |].
        intros x Hx [<- | []]. cbn [fst] in Hx.
        apply has_column_In in Hx. congruence. }
      match goal with
      | |- context [nodupb ?x] =>
          replace (nodupb x) with true by (symmetry; exact Hnd)
      end.
      cbn [bind].
      rewrite !has_column_app, Hhas, Hnew. cbn [orb andb].
      change (has_column "法人名_new" [("法人名_new", fill)]) with true.
      cbn match.
      rewrite !get_column_app, Hname. cbn [bind].
      rewrite (proj1 (has_column_none _ _) Hnew).
      cbn [get_column]. rewrite String.eqb_refl. cbn [bind].
      rewrite with_column_app by assumption.
      rewrite drop_last; [reflexivity|].
      apply has_column_none. rewrite get_with_column_other by discriminate.
      now apply has_column_none.
    + assert (Hhas : has_column "法人名" df1 = false)
        by now apply has_column_none.
      assert (Hrn : right_name "_new" df1 "法人名" = "法人名")
        by (unfold right_name; now rewrite Hhas).
      rewrite Hrn.
      assert (Hnd : nodupb (columns (df1 ++ [("法人名", fill)])) = true).
      { apply nodupb_NoDup. unfold columns. rewrite map_app.
        apply NoDup_app; [apply Hwf | repeat constructor; auto |].
        intros x Hx [<- | []]. cbn [fst] in Hx.
        apply has_column_In in Hx. congruence. }
      match goal with
      | |- context [nodupb ?x] =>
          replace (nodupb x) with true by (symmetry; exact Hnd)
      end.
      cbn [bind].
      rewrite !has_column_app, Hhas, Hnew.
      cbn [orb andb has_column columns map fst mem existsb].
      cbn [String.eqb Ascii.eqb Bool.eqb andb orb].
      now rewrite with_column_absent.
  - unfold fill. now rewrite length_map, length_seq.
  - intros i Hi.
    assert (Hfi : nth i fill Null = match look i with
                                    | Some j => nth j mname Null
                                    | None => Null
                                    end).
    { unfold fill.
      rewrite (nth_indep _ Null ((fun i => match look i with
                                           | Some j => nth j mname Null
                                           | None => Null
                                           end) 0))
        by (now rewrite length_map, length_seq).
      rewrite (map_nth (fun i => match look i with
                                 | Some j => nth j mname Null
                                 | None => Null
                                 end)).
      now rewrite seq_nth. }
    rewrite Hfi. split.
    + intros j Hj Hnn E.
      assert (Hin : In j (filter (M i) (seq 0 m))).
      { apply filter_In. split; [apply in_seq; lia|].
        unfold M, row_key. simpl. rewrite E.
        rewrite (proj2 (cell_eqb_eq _ _) eq_refl).
        destruct (nth i code Null); [contradiction | reflexivity..]. }
      unfold look.
      destruct (filter_at_most_one (M i) m) as [E0 | [j' E0]].
      * intros a b Ha Hb Ma Mb. apply HU; try assumption.
        eapply keys_match_right; eassumption.
      * rewrite E0 in Hin. contradiction.
      * rewrite E0 in Hin |- *. destruct Hin as [-> | []]. reflexivity.
    + intros H. unfold look.
      destruct (filter (M i) (seq 0 m)) as [|j l] eqn:E0; [reflexivity|].
      exfalso.
      assert (Hin : In j (filter (M i) (seq 0 m))) by (rewrite E0; now left).
      apply filter_In in Hin as [Hj Hm]. apply in_seq in Hj.
      unfold M, row_key in Hm. simpl in Hm.
      rewrite andb_true_r in Hm. apply andb_true_iff in Hm as [Hn He].
      apply cell_eqb_eq in He. destruct H as [H | H].
      * rewrite H in Hn. discriminate.
      * apply (H j); [lia | congruence].
Qed.

Lemma master_merge_fills_names_witness :
  exists fill,
    merge_with_master Sample2.corporate_unnamed Sample2.master
    = Some (with_column "法人名" (coalesce [Txt "Alpha"; Null] fill)
                        Sample2.corporate_unnamed) /\
    length fill = 2.
Proof.
  assert (W1 : wf Sample2.corporate_unnamed).
  { split.
    - repeat constructor; simpl; intuition discriminate.
    - repeat constructor. }
  assert (W2 : wf Sample2.master).
  { split.
    - repeat constructor; simpl; intuition discriminate.
    - repeat constructor. }
  destruct (master_merge_fills_names
              Sample2.corporate_unnamed Sample2.master
              [Txt "A"; Txt "B"] [Txt "B"; Txt "C"]
              [Txt "Beta"; Txt "Gamma"]
              W1 W2 eq_refl eq_refl eq_refl eq_refl eq_refl)
    as (fill & H & Hl & _).
  exists fill. split; assumption.
Defined.

(** ** Legacy column names *)

Section LegacyNames.

Lemma rename_one_NoDup (a b : string) (l : list string) :
  NoDup l -> ~ In b l ->
  NoDup (map (fun c => if (a =? c)%string then b else c) l).
Proof.
  induction 1 as [|x l Hx Hnd IH]; intros Hb; [constructor|].
  simpl. constructor.
  - intros Hin. apply in_map_iff in Hin as [y [E Hy]].
    assert (y = x); [|subst; contradiction].
    destruct (String.eqb_spec a y) as [Hay | Hay];
      destruct (String.eqb_spec a x) as [Hax | Hax].
    + congruence.
    + exfalso. apply Hb. left. congruence.
    + exfalso. apply Hb. right. congruence.
    + assumption.
  - apply IH. intros H. apply Hb. now right.
Qed.

Lemma rename_one (a b : string) (df : DataFrame) :
  has_column a df = true -> has_column b df = false -> NoDup (columns df) ->
  exists out,
    rename [(a, b)] df = Some out /\
    columns out = map (fun c => if (a =? c)%string then b else c) (columns df) /\
    map snd out = map snd df.
Proof.
  intros Ha Hb Hnd. unfold rename. cbn [forallb fst]. rewrite Ha. cbn [andb].
  set (out := map _ df).
  assert (Hc : columns out
               = map (fun c => if (a =? c)%string then b else c) (columns df)).
  { unfold out, columns. rewrite !map_map. apply map_ext. intros [c v].
    cbn [fst snd assoc].
    now destruct (a =? c)%string. }
  rewrite Hc.
  rewrite (proj2 (nodupb_NoDup _)).
  - exists out. split; [reflexivity|]. split; [assumption|].
    unfold out. rewrite map_map. reflexivity.
  - apply rename_one_NoDup; [assumption|]. now apply mem_false in Hb.
Qed.

End LegacyNames.

(** X16 -- The two scripts treat a customer history that has the legacy
    code column 取引先コード but not the legacy name column 取引先名
    differently: [rename_columns] renames both names at once and raises,
    while [preprocess_past_data] of the second-quarter script renames what
    is there, giving back the table with that one column renamed to
    得意先コード and all data in place. *)
Theorem legacy_code_without_name (df2_b df3_b : DataFrame) :
  is_empty df2_b = false -> is_empty df3_b = false ->
  NoDup (columns df2_b) ->
  has_column "取引先コード" df2_b = true ->
  has_column "取引先名" df2_b = false ->
  has_column "得意先コード" df2_b = false ->
  has_column "得意先" df3_b = false ->
  rename_columns df2_b df3_b = None /\
  exists df2_past,
    Script2QStages.preprocess_past_data df2_b df3_b = Some (df2_past, df3_b) /\
    columns df2_past
    = map (fun c => if ("取引先コード" =? c)%string then "得意先コード" else c)
          (columns df2_b) /\
    map snd df2_past = map snd df2_b.
Proof.
  intros He2 He3 Hnd Hcode Hname Hnew Hcust. split.
  - unfold rename_columns. rewrite He2, He3, Hcode. cbn [orb].
    unfold rename. cbn [forallb fst]. rewrite Hcode, Hname. reflexivity.
  - unfold Script2QStages.preprocess_past_data.
    rewrite Hcode, Hname, Hcust. cbn [app].
    destruct (rename_one "取引先コード" "得意先コード" df2_b Hcode Hnew Hnd)
      as (out & -> & Hc & Hs).
    exists out. cbn [bind]. auto.
Qed.

Lemma legacy_code_without_name_witness :
  rename_columns Sample2.customer_history_legacy_code Sample.product_history
  = None.
Proof.
  refine (proj1 (legacy_code_without_name
                   Sample2.customer_history_legacy_code
                   Sample.product_history
                   eq_refl eq_refl _ eq_refl eq_refl eq_refl eq_refl)).
  repeat constructor; simpl; intuition discriminate.
Defined.
